(** * Recruitment intake: CV parsing and the two channel bots

    A shallow embedding of [cv_parser.py], [email_bot.py], [whatsapp_bot.py]
    and the tables of [models.py] they write, followed by the properties of
    the ingestion pipeline that were checked against it.

    Conventions.
    - A Python [str] is a [string]: a sequence of 8-bit code units.  Case
      mapping, whitespace, digits and word characters are the ASCII ones;
      a code unit above 127 is an opaque symbol.
    - A Python [dict] with string keys is a [gmap string pyval]; a missing
      key and a key bound to [None] are different things, as in Python.
    - A Python call that can raise returns an [outcome]; [try]/[except] is a
      match on it. *)

From Stdlib Require Import ZArith QArith.QArith_base Ascii String List Bool Lia.
From stdpp Require Import base option list strings gmap fin_maps.

Local Open Scope list_scope.
Local Open Scope string_scope.

(** ** Python strings *)

Module PyStr.

Definition code (c : ascii) : nat := nat_of_ascii c.

Definition between (lo hi : nat) (c : ascii) : bool :=
  (lo <=? code c)%nat && (code c <=? hi)%nat.

(** [c.isdigit()] *)
Definition isdigit (c : ascii) : bool := between 48 57 c.
Definition isupper (c : ascii) : bool := between 65 90 c.
Definition islower (c : ascii) : bool := between 97 122 c.
Definition isalpha (c : ascii) : bool := isupper c || islower c.
Definition isalnum (c : ascii) : bool := isalpha c || isdigit c.

(** [c.isspace()]: tab, newline, vertical tab, form feed, carriage
    return, the four separators 28..31 and the space. *)
Definition isspace (c : ascii) : bool :=
  between 9 13 c || between 28 31 c || (code c =? 32)%nat.

(** the word characters of [\w] and [\b] *)
Definition isword (c : ascii) : bool := isalnum c || (code c =? 95)%nat.

Definition lower_char (c : ascii) : ascii :=
  if isupper c then ascii_of_nat (code c + 32) else c.

(** [s.lower()] *)
Fixpoint lower (s : string) : string :=
  match s with
  | EmptyString => EmptyString
  | String c t => String (lower_char c) (lower t)
  end.

Definition in_chars (cs : string) (c : ascii) : bool :=
  existsb (Ascii.eqb c) (list_ascii_of_string cs).

(** [s.startswith(p)] *)
Fixpoint startswith (p s : string) : bool :=
  match p, s with
  | EmptyString, _ => true
  | String a p', String b s' => Ascii.eqb a b && startswith p' s'
  | String _ _, EmptyString => false
  end.

(** [p in s] *)
Fixpoint contains (p s : string) : bool :=
  startswith p s ||
  match s with
  | EmptyString => false
  | String _ t => contains p t
  end.

Definition rev_string (s : string) : string :=
  string_of_list_ascii (rev (list_ascii_of_string s)).

(** [s.endswith(p)] *)
Definition endswith (p s : string) : bool :=
  startswith (rev_string p) (rev_string s).

(** [s.replace(c, '')] for a one-character [c] *)
Fixpoint remove_char (c : ascii) (s : string) : string :=
  match s with
  | EmptyString => EmptyString
  | String a t => if Ascii.eqb a c then remove_char c t else String a (remove_char c t)
  end.

(** [s.lstrip()], [s.rstrip()], [s.strip()] *)
Fixpoint lstrip (s : string) : string :=
  match s with
  | EmptyString => EmptyString
  | String c t => if isspace c then lstrip t else s
  end.

Definition rstrip (s : string) : string := rev_string (lstrip (rev_string s)).
Definition strip (s : string) : string := rstrip (lstrip s).

(** [s.split(sep)] for a one-character separator: empty pieces are kept,
    the result is never the empty list. *)
Fixpoint split_on (sep : ascii) (s : string) : list string :=
  match s with
  | EmptyString => [EmptyString]
  | String c t =>
      if Ascii.eqb c sep then EmptyString :: split_on sep t
      else match split_on sep t with
           | [] => [String c EmptyString]
           | w :: ws => String c w :: ws
           end
  end.

(** [s.split()]: the maximal runs of non-space characters. *)
Fixpoint words_aux (cur : list ascii) (s : string) : list string :=
  let flush := match cur with
               | [] => []
               | _ => [string_of_list_ascii (rev cur)]
               end in
  match s with
  | EmptyString => flush
  | String c t =>
      if isspace c then flush ++ words_aux [] t else words_aux (c :: cur) t
  end.

Definition split_ws (s : string) : list string := words_aux [] s.

Definition is_empty (s : string) : bool :=
  match s with EmptyString => true | _ => false end.

(** [any(c.isdigit() for c in s)] *)
Definition any_digit (s : string) : bool :=
  existsb isdigit (list_ascii_of_string s).

(** [int(s)] for a non-empty run of decimal digits. *)
Definition digit_value (c : ascii) : Z := Z.of_nat (code c - 48).

Definition int_of_digits (s : string) : Z :=
  fold_left (fun acc c => (10 * acc + digit_value c)%Z) (list_ascii_of_string s) 0%Z.

(** [os.path.splitext(p)[1]] of [posixpath]: the suffix from the last dot
    of the last path component, the leading dots of that component
    excepted. *)
Fixpoint rfind_from (c : ascii) (s : list ascii) (i : nat) (found : option nat) : option nat :=
  match s with
  | [] => found
  | a :: t => rfind_from c t (S i) (if Ascii.eqb a c then Some i else found)
  end.

Definition rfind (c : ascii) (s : string) : option nat :=
  rfind_from c (list_ascii_of_string s) 0 None.

Definition splitext_ext (p : string) : string :=
  let l := list_ascii_of_string p in
  let filenameIndex := match rfind "/"%char p with Some i => S i | None => 0%nat end in
  match rfind "."%char p with
  | None => EmptyString
  | Some dotIndex =>
      if (filenameIndex <=? dotIndex)%nat then
        (* skip all leading dots *)
        if forallb (Ascii.eqb "."%char) (firstn (dotIndex - filenameIndex) (skipn filenameIndex l))
        then EmptyString
        else string_of_list_ascii (skipn dotIndex l)
      else EmptyString
  end.

End PyStr.

(** ** Regular expressions

    The patterns of the source are written as terms of [regex] and run by a
    backtracking matcher with the priorities of Python's [re]: the left
    alternative first, a greedy repetition longest first, a lazy one
    shortest first. *)

Module Re.

Inductive regex : Type :=
| Chr (p : ascii -> bool)            (* a literal, a class or the dot *)
| Eps
| Seq (r1 r2 : regex)
| Alt (r1 r2 : regex)
| Star (greedy : bool) (r : regex)   (* [r*] and [r*?] *)
| Group (n : nat) (r : regex)        (* the n-th parenthesis *)
| Bol                                (* [^] *)
| WordB.                             (* [\b] *)

Definition lit (c : ascii) : regex := Chr (Ascii.eqb c).
(** the dot does not match a newline *)
Definition dot : regex := Chr (fun c => negb (Ascii.eqb c "010"%char)).
Definition plus (greedy : bool) (r : regex) : regex := Seq r (Star greedy r).
Definition opt (r : regex) : regex := Alt r Eps.
(** [r{n,}] *)
Fixpoint at_least (n : nat) (r : regex) : regex :=
  match n with
  | O => Star true r
  | S n' => Seq r (at_least n' r)
  end.

Record mstate : Type := MState {
  m_prev : option ascii;                 (* the character before the position *)
  m_rest : list ascii;                   (* the input from the position on *)
  m_pos : nat;
  m_groups : list (nat * (nat * nat))    (* group number, start, end; newest first *)
}.

Definition advance (c : ascii) (t : list ascii) (st : mstate) : mstate :=
  MState (Some c) t (S (m_pos st)) (m_groups st).

Definition close_group (n start : nat) (st : mstate) : mstate :=
  MState (m_prev st) (m_rest st) (m_pos st) ((n, (start, m_pos st)) :: m_groups st).

Definition word_before (st : mstate) : bool :=
  match m_prev st with Some c => PyStr.isword c | None => false end.

Definition word_after (st : mstate) : bool :=
  match m_rest st with c :: _ => PyStr.isword c | [] => false end.

Definition first_some {A} (x y : option A) : option A :=
  match x with Some _ => x | None => y end.

(** The rounds of a repetition whose body is run by [body]: a greedy
    one tries another round before the continuation, a lazy one after
    it.  A round that consumes nothing is refused, so [S (length rest)]
    rounds are all a repetition can do. *)
Fixpoint star_loop (body : mstate -> (mstate -> option mstate) -> option mstate)
         (greedy : bool) (k : mstate -> option mstate) (fuel : nat) (st : mstate)
  : option mstate :=
  match fuel with
  | O => k st
  | S fuel' =>
      let more := body st (fun st' =>
                    if (m_pos st <? m_pos st')%nat
                    then star_loop body greedy k fuel' st' else None) in
      if greedy then first_some more (k st) else first_some (k st) more
  end.

(** [rmatch r st k]: match [r] at [st], then continue with [k]; [None]
    makes the matcher backtrack. *)
Fixpoint rmatch (r : regex) (st : mstate) (k : mstate -> option mstate) : option mstate :=
  match r with
  | Chr p =>
      match m_rest st with
      | c :: t => if p c then k (advance c t st) else None
      | [] => None
      end
  | Eps => k st
  | Seq r1 r2 => rmatch r1 st (fun st' => rmatch r2 st' k)
  | Alt r1 r2 => first_some (rmatch r1 st k) (rmatch r2 st k)
  | Star greedy r1 => star_loop (rmatch r1) greedy k (S (length (m_rest st))) st
  | Group n r1 =>
      let start := m_pos st in
      rmatch r1 st (fun st' => k (close_group n start st'))
  | Bol => if (m_pos st =? 0)%nat then k st else None
  | WordB => if xorb (word_before st) (word_after st) then k st else None
  end.

(** A match object: the span of the whole match and of its groups. *)
Record match_obj : Type := MatchObj {
  mo_input : list ascii;
  mo_start : nat;
  mo_end : nat;
  mo_groups : list (nat * (nat * nat))
}.

Definition slice (l : list ascii) (i j : nat) : string :=
  string_of_list_ascii (firstn (j - i) (skipn i l)).

(** [m.group()] *)
Definition group0 (m : match_obj) : string :=
  slice (mo_input m) (mo_start m) (mo_end m).

Fixpoint assoc_nat {A} (n : nat) (l : list (nat * A)) : option A :=
  match l with
  | [] => None
  | (n', a) :: t => if (n =? n')%nat then Some a else assoc_nat n t
  end.

(** [m.group(n)]: [None] when the group took no part in the match *)
Definition group (n : nat) (m : match_obj) : option string :=
  match assoc_nat n (mo_groups m) with
  | Some (i, j) => Some (slice (mo_input m) i j)
  | None => None
  end.

(** [re.search]: the match at the leftmost position that has one. *)
Fixpoint search_from (r : regex) (input : list ascii) (prev : option ascii)
         (rest : list ascii) (pos : nat) : option match_obj :=
  match rmatch r (MState prev rest pos []) Some with
  | Some st => Some (MatchObj input pos (m_pos st) (m_groups st))
  | None =>
      match rest with
      | [] => None
      | c :: t => search_from r input (Some c) t (S pos)
      end
  end.

Definition search (r : regex) (s : string) : option match_obj :=
  let input := list_ascii_of_string s in
  search_from r input None input 0.

End Re.

(** ** Python values and exceptions *)

Module Py.

(** A float is a finite value, an infinity or a NaN. *)
Inductive pyfloat : Type :=
| FFinite (q : Q)
| FInf (negative : bool)
| FNan.

(** What [json.loads] can return, which is also what the handlers keep
    in the fields of a row. *)
#[warnings="-register-all"]
Inductive pyval : Type :=
| PNone
| PBool (b : bool)
| PInt (z : Z)
| PFloat (f : pyfloat)
| PStr (s : string)
| PList (l : list pyval)
| PDict (d : gmap string pyval).

Definition float_nonzero (f : pyfloat) : bool :=
  match f with
  | FFinite q => negb (Qeq_bool q 0)
  | FInf _ | FNan => true
  end.

(** [bool(v)] *)
Definition truthy (v : pyval) : bool :=
  match v with
  | PNone => false
  | PBool b => b
  | PInt z => negb (z =? 0)%Z
  | PFloat f => float_nonzero f
  | PStr s => negb (PyStr.is_empty s)
  | PList l => match l with [] => false | _ => true end
  | PDict d => negb (size d =? 0)%nat
  end.

Definition is_none (v : pyval) : bool :=
  match v with PNone => true | _ => false end.

(** [isinstance(v, str)], [isinstance(v, list)] and [isinstance(v, int)];
    [bool] is a subclass of [int]. *)
Definition isinstance_str (v : pyval) : bool :=
  match v with PStr _ => true | _ => false end.

Definition isinstance_list (v : pyval) : bool :=
  match v with PList _ => true | _ => false end.

Definition isinstance_int (v : pyval) : bool :=
  match v with PInt _ | PBool _ => true | _ => false end.

(** [d.get(k)] and [d.get(k, dflt)] *)
Definition get (d : gmap string pyval) (k : string) : pyval :=
  match d !! k with Some v => v | None => PNone end.

Definition get_or (d : gmap string pyval) (k : string) (dflt : pyval) : pyval :=
  match d !! k with Some v => v | None => dflt end.

(** [a or b] *)
Definition or_else (a b : pyval) : pyval := if truthy a then a else b.

(** An exception: its class and [str(e)]. *)
Record exn : Type := Exn { exn_class : string; exn_str : string }.

Inductive outcome (A : Type) : Type :=
| Returns (a : A)
| Raises (e : exn).
Arguments Returns {A} a.
Arguments Raises {A} e.

Definition obind {A B} (x : outcome A) (f : A -> outcome B) : outcome B :=
  match x with
  | Returns a => f a
  | Raises e => Raises e
  end.

(** [try: body  except Exception as e: handler(e)] *)
Definition try_except {A} (body : outcome A) (handler : exn -> outcome A) : outcome A :=
  match body with
  | Returns a => Returns a
  | Raises e => handler e
  end.

Definition is_unicode_decode_error (e : exn) : bool :=
  String.eqb (exn_class e) "UnicodeDecodeError".

End Py.

Export Py.

(** ** cv_parser.py *)

Module CvParser.

Import PyStr Re.

Definition nl : string := String "010"%char EmptyString.

(** A Python dict literal. *)
Definition mkdict (items : list (string * pyval)) : gmap string pyval :=
  list_to_map items.

(** The libraries and the service the parser calls.  Each is a function
    of what it is given; nothing else is assumed of it. *)
Record Libs : Type := {
  (** [PyPDF2.PdfReader(file).pages], each page with what its
      [extract_text()] does *)
  pdf_reader : string -> outcome (list (outcome string));
  (** the paragraph texts of [docx.Document(filepath)] *)
  docx_document : string -> outcome (list string);
  (** reading the file as UTF-8 text; [None] is a [UnicodeDecodeError] *)
  decode_utf8 : string -> option string;
  (** reading the file as Latin-1 text *)
  decode_latin1 : string -> string;
  (** the chat completion on the CV text followed by [json.loads] of its
      content (or of ['{}'] when the content is empty) *)
  openai_json : string -> outcome pyval
}.

(** The files: a path that exists is bound to its bytes, or to the
    exception that opening it raises. *)
Definition path_exists (fs : gmap string (outcome string)) (filepath : string) : bool :=
  match fs !! filepath with Some _ => true | None => false end.

Definition open_file (fs : gmap string (outcome string)) (filepath : string) : outcome string :=
  match fs !! filepath with
  | Some o => o
  | None => Raises (Exn "FileNotFoundError" filepath)
  end.

(** [text += page.extract_text() + "\n"] over the pages *)
Fixpoint concat_pages (pages : list (outcome string)) (text : string) : outcome string :=
  match pages with
  | [] => Returns text
  | page :: rest => obind page (fun t => concat_pages rest (text ++ t ++ nl))
  end.

(** The body of the [try] of [extract_text_from_pdf]. *)
Definition read_pdf (L : Libs) (fs : gmap string (outcome string)) (filepath : string)
  : outcome string :=
  obind (open_file fs filepath) (fun file =>
  obind (pdf_reader L file) (fun pages =>
  obind (concat_pages pages "") (fun text =>
  Returns (strip text)))).

Definition extract_text_from_pdf (L : Libs) (fs : gmap string (outcome string))
           (filepath : string) : outcome string :=
  try_except (read_pdf L fs filepath) (fun _ => Returns "").

(** [text += paragraph.text + "\n"] over the paragraphs *)
Fixpoint concat_paragraphs (paragraphs : list string) (text : string) : string :=
  match paragraphs with
  | [] => text
  | p :: rest => concat_paragraphs rest (text ++ p ++ nl)
  end.

(** The body of the [try] of [extract_text_from_docx]. *)
Definition read_docx (L : Libs) (fs : gmap string (outcome string)) (filepath : string)
  : outcome string :=
  obind (open_file fs filepath) (fun file =>
  obind (docx_document L file) (fun paragraphs =>
  Returns (strip (concat_paragraphs paragraphs "")))).

Definition extract_text_from_docx (L : Libs) (fs : gmap string (outcome string))
           (filepath : string) : outcome string :=
  try_except (read_docx L fs filepath) (fun _ => Returns "").

Definition read_utf8 (L : Libs) (file : string) : outcome string :=
  match decode_utf8 L file with
  | Some text => Returns text
  | None => Raises (Exn "UnicodeDecodeError" "'utf-8' codec can't decode")
  end.

(** The bodies of the outer and of the inner [try] of
    [extract_text_from_txt]. *)
Definition read_txt_utf8 (L : Libs) (fs : gmap string (outcome string)) (filepath : string)
  : outcome string :=
  obind (open_file fs filepath) (fun file =>
  obind (read_utf8 L file) (fun text => Returns (strip text))).

Definition read_txt_latin1 (L : Libs) (fs : gmap string (outcome string)) (filepath : string)
  : outcome string :=
  obind (open_file fs filepath) (fun file => Returns (strip (decode_latin1 L file))).

Definition extract_text_from_txt (L : Libs) (fs : gmap string (outcome string))
           (filepath : string) : outcome string :=
  match read_txt_utf8 L fs filepath with
  | Returns text => Returns text
  | Raises e =>
      if is_unicode_decode_error e then
        (* Try with different encoding *)
        try_except (read_txt_latin1 L fs filepath) (fun _ => Returns "")
      else Returns ""
  end.

Definition extract_text_from_file (L : Libs) (fs : gmap string (outcome string))
           (filepath : string) : outcome string :=
  if negb (path_exists fs filepath) then Returns ""
  else
    let file_extension := lower (splitext_ext filepath) in
    if String.eqb file_extension ".pdf" then extract_text_from_pdf L fs filepath
    else if String.eqb file_extension ".docx" then extract_text_from_docx L fs filepath
    else if String.eqb file_extension ".txt" || String.eqb file_extension ".doc"
         then extract_text_from_txt L fs filepath
    else Returns "".

(** The profile returned when the service call fails. *)
Definition default_profile : gmap string pyval :=
  mkdict [("name", PNone); ("email", PNone); ("phone", PNone); ("location", PNone);
          ("summary", PNone); ("skills", PList []); ("experience_years", PInt 0);
          ("education", PList []); ("work_experience", PList [])].

(** [r'\d+'] *)
Definition digits_pattern : regex := plus true (Chr isdigit).

(** [if not isinstance(result.get(key, []), list): result[key] = []] *)
Definition ensure_list (key : string) (result : gmap string pyval) : gmap string pyval :=
  if negb (isinstance_list (get_or result key (PList []))) then <[key := PList []]> result
  else result.

(** Clean and validate experience years. *)
Definition clean_experience_years (result : gmap string pyval) : gmap string pyval :=
  let exp_years := get result "experience_years" in
  if truthy exp_years && isinstance_str exp_years then
    match exp_years with
    | PStr s =>
        <["experience_years" :=
            match search digits_pattern s with
            | Some exp_match => PInt (int_of_digits (group0 exp_match))
            | None => PInt 0
            end]> result
    | _ => result
    end
  else if negb (isinstance_int exp_years) then <["experience_years" := PInt 0]> result
  else result.

(** The part of [parse_cv_with_ai] after [json.loads]; a parsed value
    that is not an object has no [get]. *)
Definition normalize_result (parsed : pyval) : outcome (gmap string pyval) :=
  match parsed with
  | PDict result =>
      let result := ensure_list "skills" result in
      let result := ensure_list "education" result in
      let result := ensure_list "work_experience" result in
      Returns (clean_experience_years result)
  | _ => Raises (Exn "AttributeError" "object has no attribute 'get'")
  end.

Definition parse_cv_with_ai (L : Libs) (cv_text : string) : outcome (gmap string pyval) :=
  try_except
    (obind (openai_json L cv_text) normalize_result)
    (fun _ => Returns default_profile).

(** [r'\b[A-Za-z0-9._%+-]+@[A-Za-z0-9.-]+\.[A-Z|a-z]{2,}\b'] *)
Definition email_pattern : regex :=
  Seq WordB
 (Seq (plus true (Chr (fun c => isalnum c || in_chars "._%+-" c)))
 (Seq (lit "@")
 (Seq (plus true (Chr (fun c => isalnum c || in_chars ".-" c)))
 (Seq (lit ".")
 (Seq (at_least 2 (Chr (fun c => isalpha c || in_chars "|" c)))
      WordB))))).

(** [r'[\+]?[\d\s\-\(\)]{10,}'] *)
Definition phone_pattern : regex :=
  Seq (opt (lit "+"))
      (at_least 10 (Chr (fun c => isdigit c || isspace c || in_chars "-()" c))).

Definition str_or_none (s : string) : pyval :=
  if is_empty s then PNone else PStr s.

(** The first of the first five lines, stripped, that is not empty, has
    no digit and has at least two words; [""] when there is none. *)
Definition potential_name (text : string) : string :=
  let lines := split_on "010"%char text in
  match find (fun line => negb (is_empty line) && negb (any_digit line)
                          && (2 <=? length (split_ws line))%nat)
             (map strip (firstn 5 lines)) with
  | Some line => line
  | None => ""
  end.

Definition extract_basic_info_regex (text : string) : gmap string pyval :=
  let info : gmap string pyval := ∅ in
  let info := <["email" := match search email_pattern text with
                           | Some email_match => PStr (group0 email_match)
                           | None => PNone
                           end]> info in
  let info := <["phone" := match search phone_pattern text with
                           | Some phone_match => PStr (strip (group0 phone_match))
                           | None => PNone
                           end]> info in
  <["name" := str_or_none (potential_name text)]> info.

(** The profile returned when no text could be extracted. *)
Definition no_text_profile : gmap string pyval :=
  mkdict [("text", PStr ""); ("name", PNone); ("email", PNone); ("phone", PNone);
          ("location", PNone); ("summary", PNone); ("skills", PList []);
          ("experience_years", PInt 0); ("education", PList []);
          ("work_experience", PList [])].

(** [if not cv_data.get(key) and basic_info.get(key): cv_data[key] = basic_info[key]] *)
Definition fill_missing (key : string) (basic_info cv_data : gmap string pyval)
  : gmap string pyval :=
  if negb (truthy (get cv_data key)) && truthy (get basic_info key)
  then <[key := get basic_info key]> cv_data
  else cv_data.

(** Fallback to regex if AI parsing failed for critical fields. *)
Definition regex_fallback (cv_text : string) (cv_data : gmap string pyval)
  : gmap string pyval :=
  if negb (truthy (get cv_data "email")) || negb (truthy (get cv_data "name")) then
    let basic_info := extract_basic_info_regex cv_text in
    let cv_data := fill_missing "email" basic_info cv_data in
    let cv_data := fill_missing "name" basic_info cv_data in
    fill_missing "phone" basic_info cv_data
  else cv_data.

Definition parse_cv_file (L : Libs) (fs : gmap string (outcome string))
           (filepath : string) : outcome (gmap string pyval) :=
  obind (extract_text_from_file L fs filepath) (fun cv_text =>
  if is_empty cv_text then Returns no_text_profile
  else
    obind (parse_cv_with_ai L cv_text) (fun cv_data =>
    let cv_data := <["text" := PStr cv_text]> cv_data in
    Returns (regex_fallback cv_text cv_data))).

(** Alias for [parse_cv_file]. *)
Definition parse_cv_text := parse_cv_file.

End CvParser.

(** ** models.py: the tables the bots read and write

    A column keeps the Python value it was given.  Of the constraints only
    [nullable=False] and [unique=True] are enforced, as the schema declares
    them; column lengths are not. *)

Module CandidateStatus.
Inductive t : Type := NEW | REVIEWED | SHORTLISTED | REJECTED | HIRED.
End CandidateStatus.

Module Candidate.
Record t : Type := Make {
  id : Z;
  name : pyval;                 (* nullable=False *)
  email : pyval;                (* unique=True, nullable=False *)
  phone : pyval;
  location : pyval;
  status : CandidateStatus.t;   (* default NEW *)
  cv_filename : pyval;
  cv_drive_link : pyval;
  cv_text : pyval;
  skills : pyval;
  experience_years : pyval;
  education : pyval;
  work_experience : pyval;
  summary : pyval;
  source : pyval;
  source_reference : pyval;
  created_at : Z;               (* default utcnow *)
  last_updated : Z              (* default utcnow *)
}.
End Candidate.

Module EmailLog.
Record t : Type := Make {
  id : Z;
  sender_email : string;        (* nullable=False *)
  subject : string;
  processed_at : Z;
  candidate_id : option Z;
  status : string;
  error_message : option string
}.
End EmailLog.

Module WhatsAppLog.
Record t : Type := Make {
  id : Z;
  phone_number : string;        (* nullable=False *)
  message_id : string;
  processed_at : Z;
  candidate_id : option Z;
  status : string;
  error_message : option string
}.
End WhatsAppLog.

(** ** The database session, the outbound transports and the files *)

Module Db.

Record Store : Type := MkStore {
  candidates : list Candidate.t;
  email_logs : list EmailLog.t;
  whatsapp_logs : list WhatsAppLog.t
}.

Inductive row : Type :=
| CandidateRow (c : Candidate.t)
| EmailLogRow (l : EmailLog.t)
| WhatsAppLogRow (l : WhatsAppLog.t).

(** The texts the bots send, by name. *)
Inductive body : Type :=
| Rejection          (* "... only considering candidates based in the European Union ..." *)
| CvRequest          (* "... your email doesn't contain a CV attachment ..." *)
| Confirmation       (* "Thank you for your application!" / "Thank you for sending your CV!" *)
| DownloadFailed     (* "Sorry, we couldn't download your document ..." *)
| NotACv             (* "Please send your CV in PDF, DOC, or DOCX format ..." *)
| Welcome.           (* "Hello! ... please send us your CV as a document ..." *)

Inductive reply : Type :=
| EmailReply (to_email subject : string) (message : body)
| WhatsAppMessage (to_phone : string) (message : body).

(** What a handler runs in.
    - [db] is what is committed; [work] is what the session sees: [db]
      with the flushed inserts and the changed attributes of this
      transaction; [pending] are the added objects not yet flushed.
    - [deactive]: a flush or commit has failed and no rollback was
      issued; the session then refuses to flush or commit, as SQLAlchemy's
      does, until [rollback()] is called.  The routes and the scheduler of
      the repository call it in their [except] blocks; the two bots never
      do, so within one handler run a failure is final.
    - [outages]: for each coming commit in turn, whether the database is
      unreachable for it; past the end of the list it is reachable.
    - [outbox]: the replies handed to SMTP or to the WhatsApp API, oldest
      first. *)
Record State : Type := MkState {
  db : Store;
  work : Store;
  pending : list row;
  deactive : bool;
  outages : list bool;
  outbox : list reply;
  fs : gmap string (outcome string)
}.

Definition M (A : Type) : Type := State -> outcome A * State.

Definition ret {A} (a : A) : M A := fun st => (Returns a, st).
Definition raise {A} (e : exn) : M A := fun st => (Raises e, st).

Definition bind {A B} (m : M A) (f : A -> M B) : M B :=
  fun st =>
    match m st with
    | (Returns a, st') => f a st'
    | (Raises e, st') => (Raises e, st')
    end.

(** [try: body  except Exception as e: handler(e)] *)
Definition try_catch {A} (body : M A) (handler : exn -> M A) : M A :=
  fun st =>
    match body st with
    | (Returns a, st') => (Returns a, st')
    | (Raises e, st') => handler e st'
    end.

Definition lift {A} (o : outcome A) : M A := fun st => (o, st).
Definition gets {A} (f : State -> A) : M A := fun st => (Returns (f st), st).
Definition modify (f : State -> State) : M unit := fun st => (Returns tt, f st).

Definition set_work (w : Store) (st : State) : State :=
  MkState (db st) w (pending st) (deactive st) (outages st) (outbox st) (fs st).

Definition set_pending (p : list row) (st : State) : State :=
  MkState (db st) (work st) p (deactive st) (outages st) (outbox st) (fs st).

Definition set_outages (o : list bool) (st : State) : State :=
  MkState (db st) (work st) (pending st) (deactive st) o (outbox st) (fs st).

Definition push_reply (r : reply) (st : State) : State :=
  MkState (db st) (work st) (pending st) (deactive st) (outages st) (outbox st ++ [r]) (fs st).

Definition write_file (filepath content : string) (st : State) : State :=
  MkState (db st) (work st) (pending st) (deactive st) (outages st) (outbox st)
          (<[filepath := Returns content]> (fs st)).

(** The transaction is rolled back and the session is left deactive. *)
Definition fail_transaction (st : State) : State :=
  MkState (db st) (db st) [] true (outages st) (outbox st) (fs st).

Definition persist (st : State) : State :=
  MkState (work st) (work st) [] false (outages st) (outbox st) (fs st).

(** A session as an application context opens it and as its teardown
    ([session.remove()]) leaves it. *)
Definition fresh_session (st : State) : State :=
  MkState (db st) (db st) [] false (outages st) (outbox st) (fs st).

(** [with app.app_context(): body] *)
Definition app_context {A} (body : M A) : M A :=
  fun st => let '(r, st') := body (fresh_session st) in (r, fresh_session st').

(** The next value of an autoincrement key. *)
Definition next_id (ids : list Z) : Z := (1 + fold_right Z.max 0 ids)%Z.

(** Two column values that are the same text. *)
Definition same_text (a b : pyval) : bool :=
  match a, b with
  | PStr x, PStr y => String.eqb x y
  | _, _ => false
  end.

Definition with_id (i : Z) (c : Candidate.t) : Candidate.t :=
  Candidate.Make i (Candidate.name c) (Candidate.email c) (Candidate.phone c)
    (Candidate.location c) (Candidate.status c) (Candidate.cv_filename c)
    (Candidate.cv_drive_link c) (Candidate.cv_text c) (Candidate.skills c)
    (Candidate.experience_years c) (Candidate.education c) (Candidate.work_experience c)
    (Candidate.summary c) (Candidate.source c) (Candidate.source_reference c)
    (Candidate.created_at c) (Candidate.last_updated c).

(** The INSERT of one added object. *)
Definition insert_row (w : Store) (r : row) : outcome Store :=
  match r with
  | CandidateRow c =>
      if is_none (Candidate.name c) then
        Raises (Exn "IntegrityError" "NOT NULL constraint failed: candidate.name")
      else if is_none (Candidate.email c) then
        Raises (Exn "IntegrityError" "NOT NULL constraint failed: candidate.email")
      else if existsb (fun c' => same_text (Candidate.email c') (Candidate.email c))
                      (candidates w) then
        Raises (Exn "IntegrityError" "UNIQUE constraint failed: candidate.email")
      else
        let c := with_id (next_id (map Candidate.id (candidates w))) c in
        Returns (MkStore (candidates w ++ [c]) (email_logs w) (whatsapp_logs w))
  | EmailLogRow l =>
      let l := EmailLog.Make (next_id (map EmailLog.id (email_logs w)))
                 (EmailLog.sender_email l) (EmailLog.subject l) (EmailLog.processed_at l)
                 (EmailLog.candidate_id l) (EmailLog.status l) (EmailLog.error_message l) in
      Returns (MkStore (candidates w) (email_logs w ++ [l]) (whatsapp_logs w))
  | WhatsAppLogRow l =>
      let l := WhatsAppLog.Make (next_id (map WhatsAppLog.id (whatsapp_logs w)))
                 (WhatsAppLog.phone_number l) (WhatsAppLog.message_id l)
                 (WhatsAppLog.processed_at l) (WhatsAppLog.candidate_id l)
                 (WhatsAppLog.status l) (WhatsAppLog.error_message l) in
      Returns (MkStore (candidates w) (email_logs w) (whatsapp_logs w ++ [l]))
  end.

Fixpoint insert_rows (w : Store) (rows : list row) : outcome Store :=
  match rows with
  | [] => Returns w
  | r :: rest => obind (insert_row w r) (fun w' => insert_rows w' rest)
  end.

Definition pending_rollback : exn :=
  Exn "PendingRollbackError"
      "This Session's transaction has been rolled back due to a previous exception during flush.".

(** [db.session.add(obj)] *)
Definition session_add (r : row) : M unit :=
  modify (fun st => set_pending (pending st ++ [r]) st).

(** [db.session.flush()] *)
Definition session_flush : M unit :=
  fun st =>
    if deactive st then (Raises pending_rollback, st)
    else match insert_rows (work st) (pending st) with
         | Returns w => (Returns tt, set_pending [] (set_work w st))
         | Raises e => (Raises e, fail_transaction st)
         end.

(** [db.session.commit()] *)
Definition session_commit : M unit :=
  fun st =>
    if deactive st then (Raises pending_rollback, st)
    else
      let unreachable := match outages st with b :: _ => b | [] => false end in
      let st := set_outages (tail (outages st)) st in
      if unreachable then
        (Raises (Exn "OperationalError" "could not connect to server"), fail_transaction st)
      else match session_flush st with
           | (Returns _, st') => (Returns tt, persist st')
           | (Raises e, st') => (Raises e, st')
           end.

(** [Candidate.query.filter_by(email=email).first()]; a value that is
    not text equals no stored email. *)
Definition candidate_by_email (email : pyval) : M (option Candidate.t) :=
  gets (fun st => find (fun c => same_text (Candidate.email c) email) (candidates (work st))).

(** Assignments to the attributes of a loaded candidate. *)
Definition update_candidate (i : Z) (f : Candidate.t -> Candidate.t) : M unit :=
  modify (fun st =>
    let w := work st in
    set_work (MkStore (map (fun c => if (Candidate.id c =? i)%Z then f c else c) (candidates w))
                      (email_logs w) (whatsapp_logs w)) st).

(** The id an added candidate has once flushed. *)
Definition flushed_id : M Z :=
  gets (fun st => match last (candidates (work st)) with
                  | Some c => Candidate.id c
                  | None => 0%Z
                  end).

End Db.

(** ** What both bots take from the application and its surroundings *)

Module App.

Import PyStr.

Record Env : Type := {
  libs : CvParser.Libs;
  (** [os.getenv('FILTER_EU_ONLY')] *)
  FILTER_EU_ONLY : option string;
  (** [datetime.now().strftime('%Y%m%d_%H%M%S_')] *)
  timestamp : string;
  (** [datetime.utcnow()] *)
  utcnow : Z;
  (** [werkzeug.utils.secure_filename] *)
  secure_filename : string -> string;
  (** what [download_media] returns for a media id: the content, or
      [None] after any failure *)
  media : option string -> option string
}.

(** [app.config['UPLOAD_FOLDER']] *)
Definition UPLOAD_FOLDER : string := "uploads".

(** [os.path.join(a, b)] *)
Definition path_join (a b : string) : string :=
  if startswith "/" b then b
  else if is_empty a || endswith "/" a then a ++ b
  else a ++ "/" ++ b.

(** [os.getenv('FILTER_EU_ONLY', 'false').lower() == 'true'] *)
Definition filter_eu_only (E : Env) : bool :=
  String.eqb (lower (match FILTER_EU_ONLY E with Some v => v | None => "false" end)) "true".

(** [any(filename.lower().endswith(ext) for ext in ['.pdf', '.doc', '.docx', '.txt'])] *)
Definition has_cv_extension (filename : string) : bool :=
  existsb (fun ext => endswith ext (lower filename)) [".pdf"; ".doc"; ".docx"; ".txt"].

(** [parse_cv_text(filepath)] on the files as they are now *)
Definition parse_cv_text (E : Env) (filepath : string) : Db.M (gmap string pyval) :=
  fun st => (CvParser.parse_cv_text (libs E) (Db.fs st) filepath, st).

End App.

(** ** email_bot.py *)

Module EmailBot.

Import PyStr Re Db App.

(** One part of a message, as [msg.walk()] yields it. *)
Record part : Type := {
  get_content_type : string;
  get_content_disposition : option string;
  get_filename : option string;
  (** [get_payload(decode=True)], and for a text part its decoding as
      UTF-8 with errors ignored *)
  get_payload : string
}.

Record message : Type := {
  is_multipart : bool;
  walk : list part;
  (** the decoded payload of a message that is not multipart *)
  payload_text : string
}.

(** [r'<(.+?)>|([a-zA-Z0-9._%+-]+@[a-zA-Z0-9.-]+\.[a-zA-Z]{2,})'] *)
Definition email_pattern : regex :=
  Alt (Seq (lit "<") (Seq (Group 1 (plus false dot)) (lit ">")))
      (Group 2
        (Seq (plus true (Chr (fun c => isalnum c || in_chars "._%+-" c)))
        (Seq (lit "@")
        (Seq (plus true (Chr (fun c => isalnum c || in_chars ".-" c)))
        (Seq (lit ".")
             (at_least 2 (Chr isalpha))))))).

(** [r'^(.+?)\s*<'] *)
Definition name_pattern : regex :=
  Seq Bol (Seq (Group 1 (plus false dot)) (Seq (Star true (Chr isspace)) (lit "<"))).

Definition group_or_empty (n : nat) (m : match_obj) : string :=
  match group n m with Some s => s | None => "" end.

(** Extract name and email from sender string. *)
Definition extract_email_info (sender : string) : string * string :=
  let email_match := search email_pattern sender in
  let name_match := search name_pattern sender in
  let email_addr :=
    match email_match with
    | Some m =>
        (* [email_match.group(1) or email_match.group(2)] *)
        if is_empty (group_or_empty 1 m) then group_or_empty 2 m else group_or_empty 1 m
    | None => sender
    end in
  let name :=
    match name_match with
    | Some m => strip (group_or_empty 1 m)
    | None => match split_on "@" email_addr with w :: _ => w | [] => "" end
    end in
  (name, email_addr).

(** Check if text contains EU phone numbers. *)
Definition eu_codes : list string :=
  ["+44"; "+49"; "+33"; "+39"; "+34"; "+31"; "+32"; "+48"; "+43"; "+45"; "+46"; "+47"; "+41"].

Definition is_eu_phone_number (text : string) : bool :=
  existsb (fun code => contains code text) eu_codes.

(** Extract CV attachments from email: (secured filename, content). *)
Definition extract_cv_attachments (E : Env) (msg : message) : list (string * string) :=
  flat_map (fun p =>
    match get_content_disposition p with
    | Some d =>
        if String.eqb d "attachment" then
          match get_filename p with
          | Some filename =>
              if negb (is_empty filename) && has_cv_extension filename
              then [(secure_filename E filename, get_payload p)]
              else []
          | None => []
          end
        else []
    | None => []
    end) (walk msg).

(** Save attachment to uploads folder. *)
Definition save_attachment (E : Env) (attachment : string * string) : M (string * string) :=
  let filename := timestamp E ++ fst attachment in
  let filepath := path_join UPLOAD_FOLDER filename in
  bind (modify (write_file filepath (snd attachment))) (fun _ =>
  ret (filename, filepath)).

(** Send automated reply email; a failure to send is logged and
    swallowed. *)
Definition send_reply (to_email subject : string) (message : body) : M unit :=
  modify (push_reply (EmailReply to_email ("Re: " ++ subject) message)).

Definition email_body (msg : message) : string :=
  if is_multipart msg then
    String.concat "" (map get_payload
      (List.filter (fun p => String.eqb (get_content_type p) "text/plain") (walk msg)))
  else payload_text msg.

Definition log_entry (E : Env) (sender_email subject : string) (candidate_id : option Z)
           (status : string) (error_message : option string) : row :=
  EmailLogRow (EmailLog.Make 0 sender_email subject (utcnow E) candidate_id status error_message).

(** The assignments of the "Update existing candidate" branch. *)
Definition update_from_cv (E : Env) (cv_filename : string) (cv_data : gmap string pyval)
           (c : Candidate.t) : Candidate.t :=
  Candidate.Make (Candidate.id c) (Candidate.name c) (Candidate.email c) (Candidate.phone c)
    (Candidate.location c) (Candidate.status c)
    (PStr cv_filename)
    (Candidate.cv_drive_link c)
    (get cv_data "text")
    (get_or cv_data "skills" (PList []))
    (get cv_data "experience_years")
    (get_or cv_data "education" (PList []))
    (get_or cv_data "work_experience" (PList []))
    (get cv_data "summary")
    (Candidate.source c) (Candidate.source_reference c) (Candidate.created_at c)
    (utcnow E).

(** The constructor call of the "Create new candidate" branch. *)
Definition new_candidate (E : Env) (sender_name sender_email_clean subject cv_filename : string)
           (cv_data : gmap string pyval) : Candidate.t :=
  Candidate.Make 0
    (get_or cv_data "name" (PStr sender_name))
    (PStr sender_email_clean)
    (get cv_data "phone")
    (get cv_data "location")
    CandidateStatus.NEW
    (PStr cv_filename)
    PNone
    (get cv_data "text")
    (get_or cv_data "skills" (PList []))
    (get cv_data "experience_years")
    (get_or cv_data "education" (PList []))
    (get_or cv_data "work_experience" (PList []))
    (get cv_data "summary")
    (PStr "email")
    (PStr subject)
    (utcnow E) (utcnow E).

(** [EmailLog.query.filter_by(sender_email=..., subject=...).first()] *)
Definition existing_log (sender_email subject : string) : M (option EmailLog.t) :=
  gets (fun st => find (fun l => String.eqb (EmailLog.sender_email l) sender_email
                                 && String.eqb (EmailLog.subject l) subject)
                       (email_logs (work st))).

(** From "Process CV attachment if present" to the commit of the
    candidate; the result is the id of the candidate, if there is one. *)
Definition upsert_candidate (E : Env) (sender_name sender_email_clean subject : string)
           (attachments : list (string * string)) (existing_candidate : option Candidate.t)
  : M (option Z) :=
  bind
    (match attachments with
     | attachment :: _ =>
         bind (save_attachment E attachment) (fun '(cv_filename, filepath) =>
         (* Parse CV *)
         bind (parse_cv_text E filepath) (fun cv_data =>
         match existing_candidate with
         | Some candidate =>
             (* Update existing candidate *)
             bind (update_candidate (Candidate.id candidate)
                     (update_from_cv E cv_filename cv_data)) (fun _ =>
             ret (Some (Candidate.id candidate)))
         | None =>
             (* Create new candidate *)
             bind (session_add (CandidateRow
                     (new_candidate E sender_name sender_email_clean subject
                        cv_filename cv_data))) (fun _ =>
             bind session_flush (fun _ =>
             bind flushed_id (fun i => ret (Some i))))
         end))
     | [] => ret (option_map Candidate.id existing_candidate)
     end) (fun candidate =>
  bind session_commit (fun _ => ret candidate)).

(** The confirmation, if a candidate resulted, and the ledger entry. *)
Definition acknowledge (E : Env) (sender_email_clean subject : string) (candidate : option Z)
  : M unit :=
  bind (match candidate with
        | Some _ => send_reply sender_email_clean subject Confirmation
        | None => ret tt
        end) (fun _ =>
  (* Log successful processing *)
  bind (session_add (log_entry E sender_email_clean subject candidate "success" None))
       (fun _ => session_commit)).

(** Process individual email message. *)
Definition process_email (E : Env) (msg : message) (sender_email subject : string) : M unit :=
  app_context (try_catch
    ((* Check if we've already processed this email *)
     bind (existing_log sender_email subject) (fun existing =>
     match existing with
     | Some _ => ret tt
     | None =>
       (* Extract sender name *)
       let '(sender_name, sender_email_clean) := extract_email_info sender_email in
       (* Check if candidate already exists *)
       bind (candidate_by_email (PStr sender_email_clean)) (fun existing_candidate =>
       (* Filter EU phone numbers if required *)
       if filter_eu_only E && negb (is_eu_phone_number (email_body msg)) then
         bind (send_reply sender_email_clean subject Rejection) (fun _ =>
         bind (session_add (log_entry E sender_email_clean subject None "filtered_non_eu" None))
              (fun _ => session_commit))
       else
         (* Extract CV attachments *)
         let attachments := extract_cv_attachments E msg in
         match attachments, existing_candidate with
         | [], None =>
             (* No CV found, request it *)
             bind (send_reply sender_email_clean subject CvRequest) (fun _ =>
             bind (session_add (log_entry E sender_email_clean subject None "cv_requested" None))
                  (fun _ => session_commit))
         | _, _ =>
             bind (upsert_candidate E sender_name sender_email_clean subject
                     attachments existing_candidate)
                  (acknowledge E sender_email_clean subject)
         end)
     end))
    (fun e =>
       (* Log error *)
       bind (session_add (log_entry E sender_email subject None "error" (Some (exn_str e))))
            (fun _ => session_commit))).

End EmailBot.

(** ** whatsapp_bot.py *)

Module WhatsAppBot.

Import PyStr Db App.

(** A message of the webhook payload: [{from, id, type, text?, document?}]. *)
Record document : Type := {
  doc_id : option string;
  doc_filename : option string
}.

Record message_data : Type := {
  msg_from : string;
  msg_id : string;
  msg_type : string;
  msg_document : option document;
  (** [text.body] *)
  msg_text_body : option string
}.

(** Send WhatsApp message; a failure to send is logged and swallowed. *)
Definition send_message (to_phone : string) (message : body) : M unit :=
  modify (push_reply (WhatsAppMessage to_phone message)).

Definition eu_codes : list string :=
  ["44"; "49"; "33"; "39"; "34"; "31"; "32"; "48"; "43"; "45"; "46"; "47"; "41"].

(** Check if phone number is from EU. *)
Definition is_eu_phone_number (phone_number : string) : bool :=
  (* Remove + and any spaces/dashes *)
  let clean_phone := remove_char "-" (remove_char " " (remove_char "+" phone_number)) in
  existsb (fun code => startswith code clean_phone) eu_codes.

Definition log_entry (E : Env) (phone_number message_id : string) (candidate_id : option Z)
           (status : string) (error_message : option string) : row :=
  WhatsAppLogRow
    (WhatsAppLog.Make 0 phone_number message_id (utcnow E) candidate_id status error_message).

(** [WhatsAppLog.query.filter_by(phone_number=..., message_id=...).first()] *)
Definition existing_log (from_phone message_id : string) : M (option WhatsAppLog.t) :=
  gets (fun st => find (fun l => String.eqb (WhatsAppLog.phone_number l) from_phone
                                 && String.eqb (WhatsAppLog.message_id l) message_id)
                       (whatsapp_logs (work st))).

(** The assignments of the "Update existing candidate" branch. *)
Definition update_from_cv (E : Env) (from_phone cv_filename : string)
           (cv_data : gmap string pyval) (c : Candidate.t) : Candidate.t :=
  Candidate.Make (Candidate.id c) (Candidate.name c) (Candidate.email c)
    (PStr from_phone)
    (Candidate.location c) (Candidate.status c)
    (PStr cv_filename)
    (Candidate.cv_drive_link c)
    (get cv_data "text")
    (get_or cv_data "skills" (PList []))
    (get cv_data "experience_years")
    (get_or cv_data "education" (PList []))
    (get_or cv_data "work_experience" (PList []))
    (get cv_data "summary")
    (Candidate.source c) (Candidate.source_reference c) (Candidate.created_at c)
    (utcnow E).

(** The constructor call of the "Create new candidate" branch. *)
Definition new_candidate (E : Env) (from_phone cv_filename : string) (email : pyval)
           (cv_data : gmap string pyval) : Candidate.t :=
  Candidate.Make 0
    (get_or cv_data "name" (PStr ("WhatsApp User " ++ from_phone)))
    (or_else email (PStr ("whatsapp_" ++ from_phone ++ "@temp.com")))
    (PStr from_phone)
    (get cv_data "location")
    CandidateStatus.NEW
    (PStr cv_filename)
    PNone
    (get cv_data "text")
    (get_or cv_data "skills" (PList []))
    (get cv_data "experience_years")
    (get_or cv_data "education" (PList []))
    (get_or cv_data "work_experience" (PList []))
    (get cv_data "summary")
    (PStr "whatsapp")
    (PStr from_phone)
    (utcnow E) (utcnow E).

(** The "document" branch once the file was downloaded, up to the
    commit of the candidate. *)
Definition upsert_candidate (E : Env) (from_phone filename file_content : string) : M Z :=
  (* Save file *)
  let safe_filename := secure_filename E filename in
  let cv_filename := timestamp E ++ safe_filename in
  let filepath := path_join UPLOAD_FOLDER cv_filename in
  bind (modify (write_file filepath file_content)) (fun _ =>
  (* Parse CV *)
  bind (parse_cv_text E filepath) (fun cv_data =>
  (* Check if candidate exists *)
  let email := get cv_data "email" in
  bind (if truthy email then candidate_by_email email else ret None) (fun existing_candidate =>
  bind (match existing_candidate with
        | Some candidate =>
            (* Update existing candidate *)
            bind (update_candidate (Candidate.id candidate)
                    (update_from_cv E from_phone cv_filename cv_data)) (fun _ =>
            ret (Candidate.id candidate))
        | None =>
            (* Create new candidate *)
            bind (session_add (CandidateRow
                    (new_candidate E from_phone cv_filename email cv_data))) (fun _ =>
            bind session_flush (fun _ => flushed_id))
        end) (fun candidate_id =>
  bind session_commit (fun _ => ret candidate_id))))).

(** The rest of that branch: the confirmation and the ledger entry. *)
Definition acknowledge (E : Env) (from_phone message_id : string) (candidate_id : Z) : M unit :=
  (* Send confirmation *)
  bind (send_message from_phone Confirmation) (fun _ =>
  (* Log success *)
  bind (session_add (log_entry E from_phone message_id (Some candidate_id) "success" None))
       (fun _ => session_commit)).

Definition process_cv (E : Env) (from_phone message_id filename file_content : string) : M unit :=
  bind (upsert_candidate E from_phone filename file_content)
       (acknowledge E from_phone message_id).

(** [document = message_data.get('document', {})], then
    [document.get('id')] and [document.get('filename', 'document')] *)
Definition media_id (message : message_data) : option string :=
  match msg_document message with
  | Some d => doc_id d
  | None => None
  end.

Definition filename (message : message_data) : string :=
  match msg_document message with
  | Some d => match doc_filename d with Some f => f | None => "document" end
  | None => "document"
  end.

Definition job_interest (text : string) : bool :=
  contains "cv" (lower text) || contains "resume" (lower text) || contains "job" (lower text).

(** Process incoming WhatsApp message. *)
Definition process_whatsapp_message (E : Env) (message : message_data) : M unit :=
  let from_phone := msg_from message in
  let message_id := msg_id message in
  app_context (try_catch
    ((* Check if already processed *)
     bind (existing_log from_phone message_id) (fun existing =>
     match existing with
     | Some _ => ret tt
     | None =>
       (* Filter EU numbers if required *)
       if filter_eu_only E && negb (is_eu_phone_number from_phone) then
         bind (send_message from_phone Rejection) (fun _ =>
         bind (session_add (log_entry E from_phone message_id None "filtered_non_eu" None))
              (fun _ => session_commit))
       else if String.eqb (msg_type message) "document" then
         (* Check if it's a CV file *)
         if has_cv_extension (filename message) then
           (* Download the document; empty content counts as none *)
           match media E (media_id message) with
           | Some file_content =>
               if negb (is_empty file_content)
               then process_cv E from_phone message_id (filename message) file_content
               else
                 bind (send_message from_phone DownloadFailed) (fun _ =>
                 bind (session_add (log_entry E from_phone message_id None "download_failed" None))
                      (fun _ => session_commit))
           | None =>
               bind (send_message from_phone DownloadFailed) (fun _ =>
               bind (session_add (log_entry E from_phone message_id None "download_failed" None))
                    (fun _ => session_commit))
           end
         else
           (* Not a CV file *)
           send_message from_phone NotACv
       else if String.eqb (msg_type message) "text" then
         let text := match msg_text_body message with Some b => b | None => "" end in
         bind (if job_interest text then send_message from_phone Welcome else ret tt) (fun _ =>
         (* Log text message *)
         bind (session_add (log_entry E from_phone message_id None "text_received" None))
              (fun _ => session_commit))
       else ret tt
     end))
    (fun e =>
       (* Log error *)
       bind (session_add (log_entry E from_phone message_id None "error" (Some (exn_str e))))
            (fun _ => session_commit))).

End WhatsAppBot.

(** ** Words of the specification, as definitions *)

Module Spec.

Import PyStr.

(** The longest prefix of digits. *)
Fixpoint leading_digits (l : list ascii) : list ascii :=
  match l with
  | c :: t => if isdigit c then c :: leading_digits t else []
  | [] => []
  end.

(** "The first integer substring": the digits from the first digit of
    the text up to the next character that is not one. *)
Fixpoint first_digit_run (l : list ascii) : option (list ascii) :=
  match l with
  | [] => None
  | c :: t => if isdigit c then Some (c :: leading_digits t) else first_digit_run t
  end.

Definition first_integer (s : string) : option Z :=
  match first_digit_run (list_ascii_of_string s) with
  | Some run => Some (int_of_digits (string_of_list_ascii run))
  | None => None
  end.




(** The ledger entries of a key. *)
Definition email_entries (sender subject : string) (s : Db.Store) : list EmailLog.t :=
  List.filter (fun l => String.eqb (EmailLog.sender_email l) sender
                   && String.eqb (EmailLog.subject l) subject) (Db.email_logs s).

Definition whatsapp_entries (phone message_id : string) (s : Db.Store) : list WhatsAppLog.t :=
  List.filter (fun l => String.eqb (WhatsAppLog.phone_number l) phone
                   && String.eqb (WhatsAppLog.message_id l) message_id) (Db.whatsapp_logs s).

End Spec.

(** ** Concrete surroundings used by the examples *)

Module Scenario.

Import PyStr CvParser Db App.

Definition is_ascii (s : string) : bool :=
  forallb (fun c => (code c <? 128)%nat) (list_ascii_of_string s).

(** Libraries for plain-text CVs: ASCII text decodes to itself, nothing
    is a readable PDF or DOCX; the service answers [ai]. *)
Definition text_libs (ai : string -> outcome pyval) : Libs :=
  {| pdf_reader := fun _ => Raises (Exn "PdfReadError" "EOF marker not found");
     docx_document := fun _ => Raises (Exn "PackageNotFoundError" "Package not found");
     decode_utf8 := fun s => if is_ascii s then Some s else None;
     decode_latin1 := fun s => s;
     openai_json := ai |}.

(** File names that [secure_filename] leaves as they are. *)
Definition env (ai : string -> outcome pyval) (filter : option string) (now : Z)
           (download : option string -> option string) : Env :=
  {| libs := text_libs ai;
     FILTER_EU_ONLY := filter;
     timestamp := "20240101_120000_";
     utcnow := now;
     secure_filename := fun s => s;
     media := download |}.

Definition empty_store : Store := MkStore [] [] [].

Definition start (s : Store) (faults : list bool) : State :=
  MkState s s [] false faults [] ∅.

(** The service finds a name and the years of experience. *)
Definition ai_jane (cv_text : string) : outcome pyval :=
  Returns (PDict (mkdict [("name", PStr "Jane Doe"); ("email", PNone); ("phone", PNone);
                          ("skills", PList [PStr "Go"]);
                          ("experience_years", PStr "5 years")])).

(** An email with a greeting and one CV attached. *)
Definition application : EmailBot.message :=
  {| EmailBot.is_multipart := true;
     EmailBot.walk :=
       [ {| EmailBot.get_content_type := "multipart/mixed";
            EmailBot.get_content_disposition := None;
            EmailBot.get_filename := None;
            EmailBot.get_payload := "" |};
         {| EmailBot.get_content_type := "text/plain";
            EmailBot.get_content_disposition := None;
            EmailBot.get_filename := None;
            EmailBot.get_payload := "Please find my CV attached." |};
         {| EmailBot.get_content_type := "text/plain";
            EmailBot.get_content_disposition := Some "attachment";
            EmailBot.get_filename := Some "cv.txt";
            EmailBot.get_payload := "Jane Doe, jane@x.com, 5 years Python" |} ];
     EmailBot.payload_text := "" |}.

Definition jane_from : string := "Jane Doe <jane@x.com>".

(** The first delivery, at time 1000, and the state it leaves. *)
Definition after_first_email : outcome unit * State :=
  EmailBot.process_email (env ai_jane None 1000 (fun _ => None))
    application jane_from "Application" (start empty_store []).

(** The same message delivered again, at time 2000. *)
Definition after_second_email : outcome unit * State :=
  EmailBot.process_email (env ai_jane None 2000 (fun _ => None))
    application jane_from "Application" (snd after_first_email).

(** Documents sent over WhatsApp: two CVs without an email address and a
    picture. *)
Definition downloads (media_id : option string) : option string :=
  match media_id with
  | Some "cv-1" => Some "Jane Doe, 5 years Python"
  | Some "cv-2" => Some "Jane Doe, 6 years Python and Go"
  | Some "cv-3" => Some "Jane Doe, jane@x.com, 7 years Go"
  | Some "pic" => Some "not a cv"
  | _ => None
  end.

Definition document_message (phone message_id media_id filename : string)
  : WhatsAppBot.message_data :=
  {| WhatsAppBot.msg_from := phone;
     WhatsAppBot.msg_id := message_id;
     WhatsAppBot.msg_type := "document";
     WhatsAppBot.msg_document :=
       Some {| WhatsAppBot.doc_id := Some media_id; WhatsAppBot.doc_filename := Some filename |};
     WhatsAppBot.msg_text_body := None |}.

Definition text_message (phone message_id text : string) : WhatsAppBot.message_data :=
  {| WhatsAppBot.msg_from := phone;
     WhatsAppBot.msg_id := message_id;
     WhatsAppBot.msg_type := "text";
     WhatsAppBot.msg_document := None;
     WhatsAppBot.msg_text_body := Some text |}.

Definition wa_env (now : Z) : Env := env ai_jane None now downloads.

(** A CV arrives and the database is lost after the first commit, for
    the rest of the run. *)
Definition after_lost_ledger_commit : outcome unit * State :=
  WhatsAppBot.process_whatsapp_message (wa_env 1000)
    (document_message "15550100" "wamid.1" "cv-1" "cv.txt")
    (start empty_store [false; true; true]).


(** Two CVs without an email address from the same number. *)
Definition after_first_cv : outcome unit * State :=
  WhatsAppBot.process_whatsapp_message (wa_env 1000)
    (document_message "15550100" "wamid.1" "cv-1" "cv.txt") (start empty_store []).

Definition after_second_cv : outcome unit * State :=
  WhatsAppBot.process_whatsapp_message (wa_env 2000)
    (document_message "15550100" "wamid.2" "cv-2" "cv.txt") (snd after_first_cv).

(** A picture sent as a document. *)
Definition after_picture : outcome unit * State :=
  WhatsAppBot.process_whatsapp_message (wa_env 1000)
    (document_message "15550100" "wamid.9" "pic" "photo.png") (start empty_store []).

(** The picture delivered a second time. *)
Definition after_picture_again : outcome unit * State :=
  WhatsAppBot.process_whatsapp_message (wa_env 2000)
    (document_message "15550100" "wamid.9" "pic" "photo.png") (snd after_picture).

(** A stored candidate with a phone number, and a CV with her email
    address sent from another number. *)
Definition jane : Candidate.t :=
  Candidate.Make 1 (PStr "Jane Doe") (PStr "jane@x.com") (PStr "+1-555-0100") (PStr "Lisbon")
    CandidateStatus.REVIEWED (PStr "old_cv.txt") PNone (PStr "old text") (PList [])
    (PInt 4) (PList []) (PList []) PNone (PStr "email") (PStr "Application") 500 500.



(** The service answers with an empty email next to a name. *)
Definition ai_empty_email (cv_text : string) : outcome pyval :=
  Returns (PDict (mkdict [("name", PStr "Jane Doe"); ("email", PStr ""); ("phone", PNone)])).

Definition cv_file : gmap string (outcome string) :=
  <["uploads/cv.txt" := Returns "Jane Doe, jane@x.com, 5 years Python"]> ∅.

(** The service answers with an object that has no name, for a text in
    which no line looks like a name. *)
Definition ai_no_fields (cv_text : string) : outcome pyval := Returns (PDict ∅).

Definition after_nameless_cv : outcome unit * State :=
  WhatsAppBot.process_whatsapp_message (env ai_no_fields None 1000 (fun _ => Some "resume"))
    (document_message "15550100" "wamid.1" "cv-1" "cv.txt") (start empty_store []).

(** The filter switched on; a number that starts with no listed code. *)
Definition filtering_env : Env := env ai_jane (Some "true") 1000 downloads.

Definition overseas_text : WhatsAppBot.message_data :=
  text_message "15550100" "wamid.7" "Do you have any jobs?".

(** An email without a calling code in its text. *)
Definition plain_email : EmailBot.message :=
  {| EmailBot.is_multipart := false;
     EmailBot.walk := [];
     EmailBot.payload_text := "Hello, I would like to apply." |}.

Definition after_overseas_text : outcome unit * State :=
  WhatsAppBot.process_whatsapp_message filtering_env overseas_text (start empty_store []).

Definition after_plain_email : outcome unit * State :=
  EmailBot.process_email filtering_env plain_email jane_from "Application"
    (start empty_store []).


End Scenario.

(** ** Reasoning about a handler step by step *)

Module Steps.

Import Db.

(** [on_return P m Q]: started in a state with [P], [m] can only return a
    value and a state with [Q]; nothing is said of a run that raises. *)
Definition on_return {A : Type} (P : State -> Prop) (m : M A) (Q : A -> State -> Prop) : Prop :=
  forall st a st', P st -> m st = (Returns a, st') -> Q a st'.

Definition is_candidate_row (r : row) : bool :=
  match r with CandidateRow _ => true | _ => false end.



(** [preserved I m]: [m] keeps [I], whether it returns or raises. *)
Definition preserved {A : Type} (I : State -> Prop) (m : M A) : Prop :=
  forall st, I st -> I (snd (m st)).

Definition has_key (phone message_id : string) (l : WhatsAppLog.t) : bool :=
  String.eqb (WhatsAppLog.phone_number l) phone
  && String.eqb (WhatsAppLog.message_id l) message_id.

(** The objects the WhatsApp handler adds for a message: candidates, and
    ledger entries under the key of the message. *)
Definition adds_for (phone message_id : string) (r : row) : bool :=
  match r with
  | CandidateRow _ => true
  | WhatsAppLogRow l => has_key phone message_id l
  | EmailLogRow _ => false
  end.

(** The stored ledger is the one of [st] followed by entries under the
    key. *)
Definition grown_by_key (phone message_id : string) (st : State) (logs : list WhatsAppLog.t)
  : Prop :=
  exists new, logs = (whatsapp_logs (db st) ++ new)%list
              /\ forallb (has_key phone message_id) new = true.

(** A session of the handler of a message, begun in [st]. *)
Definition handling (phone message_id : string) (st s : State) : Prop :=
  grown_by_key phone message_id st (whatsapp_logs (db s))
  /\ grown_by_key phone message_id st (whatsapp_logs (work s))
  /\ forallb (adds_for phone message_id) (pending s) = true.

End Steps.

(** * More of the code *)

(** ** cv_parser.py: the requirements of a job *)

Module JobRequirements.

Import CvParser.

(** The requirements returned when the service call fails. *)
Definition default_requirements : gmap string pyval :=
  mkdict [("required_skills", PList []); ("preferred_skills", PList []);
          ("experience_level", PStr "mid"); ("min_experience_years", PInt 0);
          ("education_level", PNone); ("certifications", PList [])].

(** The part of [extract_job_requirements] after [json.loads]: the three
    list fields are ensured, nothing else is looked at. *)
Definition normalize_requirements (parsed : pyval) : outcome (gmap string pyval) :=
  match parsed with
  | PDict result =>
      let result := ensure_list "required_skills" result in
      let result := ensure_list "preferred_skills" result in
      let result := ensure_list "certifications" result in
      Returns result
  | _ => Raises (Exn "AttributeError" "object has no attribute 'get'")
  end.

(** [openai_json] is the chat completion on the requirements text followed
    by [json.loads] of its content. *)
Definition extract_job_requirements (openai_json : string -> outcome pyval)
           (requirements_text : string) : outcome (gmap string pyval) :=
  try_except
    (obind (openai_json requirements_text) normalize_requirements)
    (fun _ => Returns default_requirements).

End JobRequirements.


(** ** What one run of a handler may do to the tables *)

Module Footprint.

Import Db.

(** [hoare P m Q R]: started in a state with [P], [m] returns a value and
    a state with [Q], or raises in a state with [R]. *)
Definition hoare {A : Type} (P : State -> Prop) (m : M A) (Q : A -> State -> Prop)
           (R : State -> Prop) : Prop :=
  forall st, P st -> match m st with
                     | (Returns a, s) => Q a s
                     | (Raises _, s) => R s
                     end.

(** A change of the state that touches neither the session nor the
    database. *)
Definition apart (f : State -> State) : Prop :=
  forall s, db (f s) = db s /\ work (f s) = work s /\ pending (f s) = pending s
            /\ deactive (f s) = deactive s.

(** The columns of a candidate that neither bot assigns to once the
    candidate is stored. *)
Definition identity (c : Candidate.t)
  : Z * pyval * pyval * pyval * CandidateStatus.t * pyval * pyval * pyval * Z :=
  (Candidate.id c, Candidate.name c, Candidate.email c, Candidate.location c,
   Candidate.status c, Candidate.cv_drive_link c, Candidate.source c,
   Candidate.source_reference c, Candidate.created_at c).

(** The candidates of [d0] are those of [w], in the same order and with
    the same identity, followed in [w] by at most [n] more. *)
Definition candidates_kept (n : nat) (d0 w : Store) : Prop :=
  exists new, map identity (candidates w) = (map identity (candidates d0) ++ new)%list
              /\ (length new <= n)%nat.

Definition same_ledgers (d0 w : Store) : Prop :=
  whatsapp_logs w = whatsapp_logs d0 /\ email_logs w = email_logs d0.

(** A working session with nothing added and not flushed, which has so
    far inserted at most [n_work] candidates and committed at most [n_db]
    of them, and no ledger entry. *)
Definition session (d0 : Store) (n_work n_db : nat) (s : State) : Prop :=
  deactive s = false /\ pending s = []
  /\ same_ledgers d0 (work s) /\ same_ledgers d0 (db s)
  /\ candidates_kept n_work d0 (work s) /\ candidates_kept n_db d0 (db s).

(** The session after the new candidate was added and before the flush. *)
Definition adding (d0 : Store) (s : State) : Prop :=
  deactive s = false /\ (exists c, pending s = [CandidateRow c])
  /\ same_ledgers d0 (work s) /\ same_ledgers d0 (db s)
  /\ candidates_kept 0 d0 (work s) /\ candidates_kept 0 d0 (db s).

(** A flush or a commit has failed: the session refuses further work and
    the ledgers are as they were. *)
Definition failed (d0 : Store) (s : State) : Prop :=
  deactive s = true /\ same_ledgers d0 (db s) /\ candidates_kept 1 d0 (db s).

(** What the WhatsApp handler leaves when it returns. *)
Definition whatsapp_closed (d0 : Store) (phone message_id : string) (s : State) : Prop :=
  email_logs (db s) = email_logs d0
  /\ candidates_kept 1 d0 (db s)
  /\ (whatsapp_logs (db s) = whatsapp_logs d0
      \/ exists l, whatsapp_logs (db s) = (whatsapp_logs d0 ++ [l])%list
                   /\ WhatsAppLog.phone_number l = phone
                   /\ WhatsAppLog.message_id l = message_id).

(** What the email handler leaves when it returns. *)
Definition email_closed (d0 : Store) (sender_email subject : string) (s : State) : Prop :=
  whatsapp_logs (db s) = whatsapp_logs d0
  /\ candidates_kept 1 d0 (db s)
  /\ (email_logs (db s) = email_logs d0
      \/ exists l, email_logs (db s) = (email_logs d0 ++ [l])%list
                   /\ EmailLog.sender_email l = sender_email
                   /\ EmailLog.subject l = subject).

End Footprint.

(** ** The replies of one run *)

Module Replies.

Import Db.

(** [m] hands nothing to a transport. *)
Definition silent {A : Type} (m : M A) : Prop :=
  forall s, outbox (snd (m s)) = outbox s.

(** [m] hands at most one reply to a transport, and one that [allowed]
    accepts. *)
Definition sends_at_most_one {A : Type} (allowed : reply -> Prop) (m : M A) : Prop :=
  forall s, outbox (snd (m s)) = outbox s
            \/ exists r, allowed r /\ outbox (snd (m s)) = (outbox s ++ [r])%list.

(** A WhatsApp text to [phone]. *)
Definition whatsapp_to (phone : string) (r : reply) : Prop :=
  exists message, r = WhatsAppMessage phone message.

(** An email to [address] in reply to [subject]. *)
Definition email_to (address subject : string) (r : reply) : Prop :=
  exists message, r = EmailReply address ("Re: " ++ subject) message.

End Replies.

(** ** whatsapp_bot.py: the webhook *)

Module Webhook.

Import Db App.

(** The payload: [{entry: [{changes: [{field, value: {messages}}]}]}].
    A list that is missing is the empty list, as the [.get(..., [])] of
    the source make it. *)
Record change : Type := {
  (** [change.get('field')] *)
  field : option string;
  (** [change.get('value', {}).get('messages', [])] *)
  messages : list WhatsAppBot.message_data
}.

Record item : Type := {
  (** [item.get('changes', [])] *)
  changes : list change
}.

Record data : Type := {
  (** [data.get('entry', [])] *)
  entry : list item
}.

(** [for x in l: body(x)] *)
Fixpoint for_each {A : Type} (body : A -> M unit) (l : list A) : M unit :=
  match l with
  | [] => ret tt
  | x :: rest => bind (body x) (fun _ => for_each body rest)
  end.

Definition is_messages (c : change) : bool :=
  match field c with
  | Some f => String.eqb f "messages"
  | None => false
  end.

(** Handle WhatsApp webhook data. *)
Definition handle_webhook (E : Env) (d : data) : M unit :=
  try_catch
    (for_each (fun item =>
       for_each (fun change =>
         if is_messages change
         then for_each (WhatsAppBot.process_whatsapp_message E) (messages change)
         else ret tt) (changes item)) (entry d))
    (fun e => ret tt).

(** Entry point for handling WhatsApp webhooks. *)
Definition handle_whatsapp_webhook (E : Env) (d : data) : M unit := handle_webhook E d.

(** The messages of a payload that reach the handler, in the order of
    the payload. *)
Definition delivered (d : data) : list WhatsAppBot.message_data :=
  flat_map (fun item =>
    flat_map (fun change => if is_messages change then messages change else [])
             (changes item)) (entry d).

(** A stored entry belongs to one of the messages. *)
Definition entry_of (ms : list WhatsAppBot.message_data) (l : WhatsAppLog.t) : Prop :=
  exists m, In m ms /\ WhatsAppLog.phone_number l = WhatsAppBot.msg_from m
            /\ WhatsAppLog.message_id l = WhatsAppBot.msg_id m.

End Webhook.

(** ** More examples *)

Module Example.

Import PyStr CvParser Db App.

(** A webhook call with a CV and a question from the same number, and one
    change that is not about messages. *)
Definition cv_then_question : Webhook.data :=
  {| Webhook.entry :=
       [ {| Webhook.changes :=
              [ {| Webhook.field := Some "statuses";
                   Webhook.messages :=
                     [Scenario.text_message "15550100" "wamid.0" "delivered"] |};
                {| Webhook.field := Some "messages";
                   Webhook.messages :=
                     [Scenario.document_message "15550100" "wamid.1" "cv-1" "cv.txt";
                      Scenario.text_message "15550100" "wamid.2" "Any jobs?"] |} ] |} ] |}.

(** Jane's application with a [From] header that is the bare address. *)
Definition after_bare_email : outcome unit * State :=
  EmailBot.process_email (Scenario.env Scenario.ai_jane None 1000 (fun _ => None))
    Scenario.application "jane@x.com" "Application" (Scenario.start Scenario.empty_store []).

(** A CV whose media id the API does not know. *)
Definition after_failed_download : outcome unit * State :=
  WhatsAppBot.process_whatsapp_message (Scenario.wa_env 1000)
    (Scenario.document_message "15550100" "wamid.3" "gone" "cv.pdf")
    (Scenario.start Scenario.empty_store []).

(** A question about jobs. *)
Definition after_question : outcome unit * State :=
  WhatsAppBot.process_whatsapp_message (Scenario.wa_env 1000)
    (Scenario.text_message "15550100" "wamid.2" "Any jobs?")
    (Scenario.start Scenario.empty_store []).

(** An email without attachment from Jane, before and after she is a
    stored candidate. *)
Definition after_note_from_stranger : outcome unit * State :=
  EmailBot.process_email (Scenario.env Scenario.ai_jane None 1000 (fun _ => None))
    Scenario.plain_email Scenario.jane_from "Hello" (Scenario.start Scenario.empty_store []).

Definition after_note_from_jane : outcome unit * State :=
  EmailBot.process_email (Scenario.env Scenario.ai_jane None 1000 (fun _ => None))
    Scenario.plain_email Scenario.jane_from "Hello"
    (Scenario.start (MkStore [Scenario.jane] [] []) []).





(** An application written in HTML only, with a UK number in the HTML
    and in the attached PDF. *)
Definition html_application : EmailBot.message :=
  {| EmailBot.is_multipart := true;
     EmailBot.walk :=
       [ {| EmailBot.get_content_type := "multipart/mixed";
            EmailBot.get_content_disposition := None;
            EmailBot.get_filename := None;
            EmailBot.get_payload := "" |};
         {| EmailBot.get_content_type := "text/html";
            EmailBot.get_content_disposition := None;
            EmailBot.get_filename := None;
            EmailBot.get_payload := "<p>Call me on +44 20 7946 0000.</p>" |};
         {| EmailBot.get_content_type := "application/pdf";
            EmailBot.get_content_disposition := Some "attachment";
            EmailBot.get_filename := Some "cv.pdf";
            EmailBot.get_payload := "Jane Doe, +44 20 7946 0000" |} ];
     EmailBot.payload_text := "" |}.

Definition after_html_application : outcome unit * State :=
  EmailBot.process_email Scenario.filtering_env html_application Scenario.jane_from
    "Application" (Scenario.start Scenario.empty_store []).

End Example.

(** ** A change of the candidates and its confirmation *)

Module Acknowledged.

Import Db.

Definition no_candidate_rows (rows : list row) : bool :=
  forallb (fun r => negb (Steps.is_candidate_row r)) rows.

(** Nothing about the candidates is stored, changed in the session or
    waiting to be inserted. *)
Definition quiet (c0 : list Candidate.t) (s : State) : Prop :=
  candidates (db s) = c0 /\ candidates (work s) = c0 /\ no_candidate_rows (pending s) = true.

(** An upsert under way: the session works, nothing is committed and
    nothing was sent. *)
Definition unsettled (c0 : list Candidate.t) (o0 : list reply) (s : State) : Prop :=
  deactive s = false /\ candidates (db s) = c0 /\ outbox s = o0.

(** The run has handed [r] to the transport, and nothing else. *)
Definition sent (o0 : list reply) (r : reply) (s : State) : Prop :=
  outbox s = (o0 ++ [r])%list.

End Acknowledged.

(** ** The words a pattern can match *)

Module Language.

Import Re.

(** [matches r u]: [r] can consume the characters [u].  An anchor
    consumes nothing; where it holds is not part of this relation, which so
    allows more than the matcher does. *)
Inductive matches : regex -> list ascii -> Prop :=
| matches_chr (p : ascii -> bool) (c : ascii) : p c = true -> matches (Chr p) [c]
| matches_eps : matches Eps []
| matches_seq (r1 r2 : regex) (u v : list ascii) :
    matches r1 u -> matches r2 v -> matches (Seq r1 r2) (u ++ v)
| matches_alt_l (r1 r2 : regex) (u : list ascii) : matches r1 u -> matches (Alt r1 r2) u
| matches_alt_r (r1 r2 : regex) (u : list ascii) : matches r2 u -> matches (Alt r1 r2) u
| matches_star_nil (greedy : bool) (r : regex) : matches (Star greedy r) []
| matches_star_cons (greedy : bool) (r : regex) (u v : list ascii) :
    matches r u -> matches (Star greedy r) v -> matches (Star greedy r) (u ++ v)
| matches_group (n : nat) (r : regex) (u : list ascii) : matches r u -> matches (Group n r) u
| matches_bol : matches Bol []
| matches_wordb : matches WordB [].

(** What a run of the matcher finds, the pattern can consume: a
    successful run splits the input at the position into the characters
    consumed and the rest, with which the continuation succeeded. *)
Definition consumes (r : regex) (run : mstate -> (mstate -> option mstate) -> option mstate)
  : Prop :=
  forall st k res,
    run st k = Some res ->
    exists u st1, matches r u /\ m_rest st = (u ++ m_rest st1)%list
                  /\ m_pos st1 = (m_pos st + length u)%nat /\ k st1 = Some res.


End Language.

(** ** Messages that are in the ledger already *)

Module Batches.

Import Db.

(** [message] has an entry in the WhatsApp ledger [logs]. *)
Definition logged (logs : list WhatsAppLog.t) (message : WhatsAppBot.message_data) : bool :=
  match find (fun l => String.eqb (WhatsAppLog.phone_number l) (WhatsAppBot.msg_from message)
                       && String.eqb (WhatsAppLog.message_id l) (WhatsAppBot.msg_id message))
             logs with
  | Some _ => true
  | None => false
  end.

End Batches.
(** * Properties *)

Import PyStr Re CvParser Db App.

(** ** The matcher on a run of digits *)

Lemma star_loop_digits (rest : list ascii) :
  forall fuel prev pos groups,
    (length rest < fuel)%nat ->
    exists st',
      star_loop (rmatch (Chr isdigit)) true Some fuel (MState prev rest pos groups) = Some st'
      /\ m_pos st' = (pos + length (Spec.leading_digits rest))%nat.
Proof.
  set (body := rmatch (Chr isdigit)).
  induction rest as [|c t IH]; intros fuel prev pos groups Hfuel.
  - destruct fuel as [|fuel]; [simpl in Hfuel; lia|].
    cbn [star_loop]. unfold body at 1. cbn.
    eexists; split; [reflexivity|]. cbn. lia.
  - destruct fuel as [|fuel]; [simpl in Hfuel; lia|].
    cbn [length] in Hfuel. cbn [star_loop]. unfold body at 1.
    cbn [rmatch m_rest Spec.leading_digits].
    destruct (isdigit c) eqn:Hc.
    + unfold advance; cbn [m_pos m_groups].
      assert (Hlt : (pos <? S pos)%nat = true) by (apply Nat.ltb_lt; lia).
      rewrite Hlt.
      destruct (IH fuel (Some c) (S pos) groups) as (st' & Hst & Hpos); [lia|].
      rewrite Hst. cbn [first_some]. eexists; split; [reflexivity|]. rewrite Hpos.
      cbn [length]. lia.
    + cbn [first_some]. eexists; split; [reflexivity|]. cbn. lia.
Qed.

Lemma firstn_leading_digits (l : list ascii) :
  firstn (length (Spec.leading_digits l)) l = Spec.leading_digits l.
Proof.
  induction l as [|c t IH]; simpl; [reflexivity|].
  destruct (isdigit c); simpl; [now rewrite IH | reflexivity].
Qed.

Lemma slice_after_prefix (pre rest : list ascii) (n : nat) :
  slice (pre ++ rest) (length pre) (length pre + n) = string_of_list_ascii (firstn n rest).
Proof.
  unfold slice. f_equal.
  replace (length pre + n - length pre)%nat with n by lia.
  f_equal. rewrite skipn_app, skipn_all, Nat.sub_diag. reflexivity.
Qed.

Lemma rmatch_digits_cons (c : ascii) (t : list ascii) prev pos groups :
  rmatch digits_pattern (MState prev (c :: t) pos groups) Some
  = if isdigit c
    then star_loop (rmatch (Chr isdigit)) true Some (S (length t))
           (MState (Some c) t (S pos) groups)
    else None.
Proof. reflexivity. Qed.

(** [re.search(r'\d+', s)] finds the first run of digits of [s]. *)
Lemma search_from_digits (rest : list ascii) :
  forall pre prev,
    option_map group0 (search_from digits_pattern (pre ++ rest) prev rest (length pre))
    = option_map string_of_list_ascii (Spec.first_digit_run rest).
Proof.
  induction rest as [|c t IH]; intros pre prev.
  - reflexivity.
  - cbn [search_from Spec.first_digit_run]. rewrite rmatch_digits_cons.
    destruct (isdigit c) eqn:Hc.
    + destruct (star_loop_digits t (S (length t)) (Some c) (S (length pre)) [])
        as (st' & Hst & Hpos); [lia|].
      rewrite Hst. cbn [option_map]. f_equal.
      unfold group0; cbn [mo_input mo_start mo_end]. rewrite Hpos.
      replace (S (length pre) + length (Spec.leading_digits t))%nat
        with (length pre + S (length (Spec.leading_digits t)))%nat by lia.
      rewrite slice_after_prefix. cbn [firstn]. now rewrite firstn_leading_digits.
    + specialize (IH (pre ++ [c])%list (Some c)).
      rewrite <- app_assoc in IH. cbn [app] in IH.
      rewrite length_app in IH. cbn [length] in IH.
      replace (length pre + 1)%nat with (S (length pre)) in IH by lia.
      exact IH.
Qed.

Lemma search_digits (s : string) :
  option_map group0 (search digits_pattern s)
  = option_map string_of_list_ascii (Spec.first_digit_run (list_ascii_of_string s)).
Proof.
  unfold search. exact (search_from_digits (list_ascii_of_string s) [] None).
Qed.

(** ** The normalization of the service's answer *)

Lemma ensure_list_lookup (key k : string) (result : gmap string pyval) :
  ensure_list key result !! k =
    if String.eqb key k
    then match result !! key with
         | Some (PList l) => Some (PList l)
         | Some _ => Some (PList [])
         | None => None
         end
    else result !! k.
Proof.
  unfold ensure_list, get_or.
  destruct (String.eqb_spec key k) as [->|Hne].
  - destruct (result !! k) as [[]|] eqn:Hk; cbn; rewrite ?lookup_insert_eq, ?Hk; reflexivity.
  - destruct (result !! key) as [[]|]; cbn; rewrite ?lookup_insert_ne by exact Hne; reflexivity.
Qed.

Lemma clean_experience_years_other (k : string) (result : gmap string pyval) :
  k <> "experience_years" -> clean_experience_years result !! k = result !! k.
Proof.
  intros Hk. unfold clean_experience_years.
  destruct (get result "experience_years") as [|b|z|f|s|l|d];
    cbn [isinstance_str isinstance_int negb];
    rewrite ?andb_false_r, ?andb_true_r; cbn [negb];
    try reflexivity; try (rewrite lookup_insert_ne by congruence; reflexivity).
  destruct (truthy (PStr s)); rewrite lookup_insert_ne by congruence; reflexivity.
Qed.

Lemma first_integer_search (s : string) :
  match search digits_pattern s with
  | Some exp_match => PInt (int_of_digits (group0 exp_match))
  | None => PInt 0
  end = PInt (match Spec.first_integer s with Some z => z | None => 0%Z end).
Proof.
  unfold Spec.first_integer. pose proof (search_digits s) as H.
  destruct (search digits_pattern s), (Spec.first_digit_run (list_ascii_of_string s));
    cbn in H; try discriminate; [|reflexivity].
  injection H as ->. reflexivity.
Qed.

Lemma clean_experience_years_value (result : gmap string pyval) :
  clean_experience_years result !! "experience_years" =
    match get result "experience_years" with
    | PStr s => Some (PInt (match Spec.first_integer s with Some z => z | None => 0%Z end))
    | PInt z => result !! "experience_years"
    | PBool b => result !! "experience_years"
    | _ => Some (PInt 0)
    end.
Proof.
  unfold clean_experience_years.
  destruct (get result "experience_years") as [|b|z|f|s|l|d] eqn:Hg;
    cbn [isinstance_str isinstance_int negb];
    rewrite ?andb_false_r, ?andb_true_r; cbn [negb];
    rewrite ?lookup_insert_eq; try reflexivity.
  destruct (truthy (PStr s)) eqn:Hs; rewrite lookup_insert_eq.
  - now rewrite first_integer_search.
  - destruct s; [reflexivity | discriminate].
Qed.

Lemma normalize_result_lookup (result : gmap string pyval) :
  exists out,
    normalize_result (PDict result) = Returns out
    /\ out !! "experience_years"
       = match get result "experience_years" with
         | PStr s => Some (PInt (match Spec.first_integer s with Some z => z | None => 0%Z end))
         | PInt z => result !! "experience_years"
         | PBool b => result !! "experience_years"
         | _ => Some (PInt 0)
         end
    /\ forall key, In key ["skills"; "education"; "work_experience"] ->
         out !! key = match result !! key with
                      | Some (PList l) => Some (PList l)
                      | Some _ => Some (PList [])
                      | None => None
                      end.
Proof.
  eexists; split; [reflexivity|]. split.
  - rewrite clean_experience_years_value.
    unfold get. rewrite !ensure_list_lookup. cbn [String.eqb Ascii.eqb Bool.eqb]. reflexivity.
  - intros key Hkey.
    rewrite clean_experience_years_other
      by (cbn in Hkey; intros ->; intuition discriminate).
    rewrite !ensure_list_lookup.
    cbn in Hkey. destruct Hkey as [<-|[<-|[<-|[]]]]; cbn [String.eqb Ascii.eqb Bool.eqb];
      try reflexivity;
      repeat match goal with
             | |- context [match ?m !! ?k with _ => _ end] =>
                 destruct (m !! k) as [[]|]; try reflexivity
             end.
Qed.

(** A failing call and an answer that is not an object give the default
    profile. *)
Lemma parse_cv_with_ai_default (L : Libs) (cv_text : string) :
  (forall result, openai_json L cv_text <> Returns (PDict result)) ->
  parse_cv_with_ai L cv_text = Returns default_profile.
Proof.
  intros H. unfold parse_cv_with_ai.
  destruct (openai_json L cv_text) as [[]|e]; try reflexivity.
  exfalso. eapply H. reflexivity.
Qed.

Lemma parse_cv_with_ai_returns (L : Libs) (cv_text : string) :
  exists out, parse_cv_with_ai L cv_text = Returns out.
Proof.
  unfold parse_cv_with_ai.
  destruct (openai_json L cv_text) as [[]|e]; cbn; eauto.
Qed.




(** The three examples of the specification. *)
Example experience_years_examples :
  Spec.first_integer "5 years" = Some 5%Z /\ Spec.first_integer "five" = None.
Proof. split; reflexivity. Qed.
(** ** The text extractor *)

Lemma extract_text_from_pdf_returns (L : Libs) fs filepath :
  exists text, extract_text_from_pdf L fs filepath = Returns text
               /\ (forall e, read_pdf L fs filepath = Raises e -> text = "").
Proof.
  unfold extract_text_from_pdf.
  destruct (read_pdf L fs filepath) as [text|e]; cbn.
  - exists text. split; [reflexivity|]. intros; discriminate.
  - exists "". split; [reflexivity|]. intros; reflexivity.
Qed.

Lemma extract_text_from_docx_returns (L : Libs) fs filepath :
  exists text, extract_text_from_docx L fs filepath = Returns text
               /\ (forall e, read_docx L fs filepath = Raises e -> text = "").
Proof.
  unfold extract_text_from_docx.
  destruct (read_docx L fs filepath) as [text|e]; cbn.
  - exists text. split; [reflexivity|]. intros; discriminate.
  - exists "". split; [reflexivity|]. intros; reflexivity.
Qed.

Lemma extract_text_from_txt_returns (L : Libs) fs filepath :
  exists text,
    extract_text_from_txt L fs filepath = Returns text
    /\ (forall e, read_txt_utf8 L fs filepath = Raises e ->
          is_unicode_decode_error e = false -> text = "")
    /\ (forall e e', read_txt_utf8 L fs filepath = Raises e ->
          read_txt_latin1 L fs filepath = Raises e' -> text = "").
Proof.
  unfold extract_text_from_txt.
  destruct (read_txt_utf8 L fs filepath) as [text|e].
  - exists text. split; [reflexivity|]. split; intros; discriminate.
  - destruct (is_unicode_decode_error e) eqn:He.
    + destruct (read_txt_latin1 L fs filepath) as [text|e'] eqn:Hl; cbn.
      * exists text. split; [reflexivity|]. split.
        -- intros e0 [= <-] He0. congruence.
        -- intros; discriminate.
      * exists "". split; [reflexivity|]. split; intros; reflexivity.
    + exists "". split; [reflexivity|]. split; intros; reflexivity.
Qed.

Lemma strip_empty : strip "" = "".
Proof. reflexivity. Qed.

(** C5.  The extractor returns a string for every path, in every state of
    the files and whatever the libraries do, and the string is empty when
    the path does not exist, when the file cannot be opened, when the
    extension is not a supported one, when reading the PDF or the DOCX
    raises, when reading the text file raises with both encodings or with
    an error other than a decoding error, and for a text file of no
    bytes. *)
Theorem C5_extract_text_never_raises (L : Libs) (fs : gmap string (outcome string))
        (filepath : string) :
  let ext := lower (splitext_ext filepath) in
  exists text,
    extract_text_from_file L fs filepath = Returns text
    /\ (fs !! filepath = None -> text = "")
    /\ (forall e, fs !! filepath = Some (Raises e) -> text = "")
    /\ (ext <> ".pdf" -> ext <> ".docx" -> ext <> ".txt" -> ext <> ".doc" -> text = "")
    /\ (ext = ".pdf" -> forall e, read_pdf L fs filepath = Raises e -> text = "")
    /\ (ext = ".docx" -> forall e, read_docx L fs filepath = Raises e -> text = "")
    /\ (ext = ".txt" \/ ext = ".doc" ->
          (forall e, read_txt_utf8 L fs filepath = Raises e ->
             is_unicode_decode_error e = false -> text = "")
          /\ (forall e e', read_txt_utf8 L fs filepath = Raises e ->
                read_txt_latin1 L fs filepath = Raises e' -> text = "")
          /\ (fs !! filepath = Some (Returns "") -> decode_utf8 L "" = Some "" -> text = "")).
Proof.
  intros ext. unfold extract_text_from_file, path_exists. fold ext.
  destruct (fs !! filepath) as [o|] eqn:Hfs; cbn [negb].
  2: { exists "". repeat split; intros; reflexivity. }
  destruct (String.eqb_spec ext ".pdf") as [Hpdf|Hpdf].
  { destruct (extract_text_from_pdf_returns L fs filepath) as (text & Ht & Hfail).
    exists text. split; [exact Ht|].
    split; [intros; discriminate|].
    split; [intros e [= ->]; apply (Hfail e); unfold read_pdf, open_file; now rewrite Hfs|].
    split; [intros; congruence|].
    split; [intros _ e; apply Hfail|].
    split; [intros; congruence|].
    intros [?|?]; congruence. }
  destruct (String.eqb_spec ext ".docx") as [Hdocx|Hdocx].
  { destruct (extract_text_from_docx_returns L fs filepath) as (text & Ht & Hfail).
    exists text. split; [exact Ht|].
    split; [intros; discriminate|].
    split; [intros e [= ->]; apply (Hfail e); unfold read_docx, open_file; now rewrite Hfs|].
    split; [intros; congruence|].
    split; [intros; congruence|].
    split; [intros _ e; apply Hfail|].
    intros [?|?]; congruence. }
  assert (Htxt_case :
    exists text, extract_text_from_txt L fs filepath = Returns text
      /\ (forall e, Some o = Some (Raises e) -> text = "")
      /\ (forall e, read_txt_utf8 L fs filepath = Raises e ->
            is_unicode_decode_error e = false -> text = "")
      /\ (forall e e', read_txt_utf8 L fs filepath = Raises e ->
            read_txt_latin1 L fs filepath = Raises e' -> text = "")
      /\ (Some o = Some (Returns "") -> decode_utf8 L "" = Some "" -> text = "")).
  { destruct (extract_text_from_txt_returns L fs filepath) as (text & Ht & Hother & Hboth).
    exists text. split; [exact Ht|].
    split; [|split; [exact Hother|split; [exact Hboth|]]].
    - intros e [= ->].
      destruct (is_unicode_decode_error e) eqn:He.
      + apply (Hboth e e); unfold read_txt_utf8, read_txt_latin1, open_file; now rewrite Hfs.
      + apply (Hother e); [unfold read_txt_utf8, open_file; now rewrite Hfs | exact He].
    - intros [= ->] Hdec.
      unfold extract_text_from_txt, read_txt_utf8, open_file, read_utf8 in Ht.
      rewrite Hfs in Ht. cbn in Ht. rewrite Hdec in Ht. cbn in Ht. congruence. }
  destruct (String.eqb_spec ext ".txt") as [Htxt|Htxt];
    [|destruct (String.eqb_spec ext ".doc") as [Hdoc|Hdoc]]; cbn [orb].
  3: { exists "". repeat split; intros; reflexivity. }
  all: destruct Htxt_case as (text & Ht & Hopen & Hother & Hboth & Hzero);
    exists text; (split; [exact Ht|]);
    (split; [intros; discriminate|]);
    (split; [exact Hopen|]);
    (split; [intros; congruence|]);
    (split; [intros; congruence|]);
    (split; [intros; congruence|]);
    intros _; split; [exact Hother|split; [exact Hboth|exact Hzero]].
Qed.

(** The theorem at a PDF of no bytes, which the library refuses. *)
Lemma C5_extract_text_never_raises_witness :
  extract_text_from_file (Scenario.text_libs Scenario.ai_jane)
    (<["uploads/empty.pdf" := Returns ""]> ∅) "uploads/empty.pdf" = Returns "".
Proof.
  destruct (C5_extract_text_never_raises (Scenario.text_libs Scenario.ai_jane)
              (<["uploads/empty.pdf" := Returns ""]> ∅) "uploads/empty.pdf")
    as (text & Ht & _ & _ & _ & Hpdf & _).
  rewrite Ht. f_equal.
  apply (Hpdf eq_refl (Exn "PdfReadError" "EOF marker not found")).
  reflexivity.
Defined.

(** ** The orchestrator and its regex fallback *)

Lemma fill_missing_lookup (key k : string) (basic_info cv_data : gmap string pyval) :
  fill_missing key basic_info cv_data !! k =
    if String.eqb key k && negb (truthy (get cv_data key)) && truthy (get basic_info key)
    then Some (get basic_info key)
    else cv_data !! k.
Proof.
  unfold fill_missing. rewrite <- andb_assoc.
  destruct (negb (truthy (get cv_data key)) && truthy (get basic_info key)) eqn:Hc.
  - destruct (String.eqb_spec key k) as [->|Hne]; cbn [andb].
    + now rewrite lookup_insert_eq.
    + now rewrite lookup_insert_ne.
  - rewrite andb_false_r. reflexivity.
Qed.

Lemma get_fill_missing_ne (key k : string) (basic_info cv_data : gmap string pyval) :
  key <> k -> get (fill_missing key basic_info cv_data) k = get cv_data k.
Proof.
  intros Hne. unfold get. rewrite fill_missing_lookup.
  destruct (String.eqb_spec key k); [contradiction|reflexivity].
Qed.

(** What the fallback does to one of the three fields it knows. *)
Lemma regex_fallback_lookup (cv_text key : string) (cv_data : gmap string pyval) :
  In key ["email"; "name"; "phone"] ->
  regex_fallback cv_text cv_data !! key = cv_data !! key
  \/ (truthy (get cv_data key) = false
      /\ truthy (get (extract_basic_info_regex cv_text) key) = true
      /\ regex_fallback cv_text cv_data !! key
         = Some (get (extract_basic_info_regex cv_text) key)).
Proof.
  intros Hkey. unfold regex_fallback.
  destruct (negb (truthy (get cv_data "email")) || negb (truthy (get cv_data "name")));
    [|left; reflexivity].
  set (basic_info := extract_basic_info_regex cv_text).
  rewrite !fill_missing_lookup.
  rewrite !get_fill_missing_ne by discriminate.
  cbn in Hkey. destruct Hkey as [<-|[<-|[<-|[]]]]; cbn [String.eqb Ascii.eqb Bool.eqb andb].
  - destruct (truthy (get cv_data "email")); cbn [negb andb]; [left; reflexivity|].
    destruct (truthy (get basic_info "email")) eqn:Hb; [right; auto|left; reflexivity].
  - destruct (truthy (get cv_data "name")); cbn [negb andb]; [left; reflexivity|].
    destruct (truthy (get basic_info "name")) eqn:Hb; [right; auto|left; reflexivity].
  - destruct (truthy (get cv_data "phone")); cbn [negb andb]; [left; reflexivity|].
    destruct (truthy (get basic_info "phone")) eqn:Hb; [right; auto|left; reflexivity].
Qed.

Lemma parse_cv_file_with_text (L : Libs) fs filepath cv_text ai_data :
  extract_text_from_file L fs filepath = Returns cv_text ->
  cv_text <> "" ->
  parse_cv_with_ai L cv_text = Returns ai_data ->
  parse_cv_file L fs filepath
  = Returns (regex_fallback cv_text (<["text" := PStr cv_text]> ai_data)).
Proof.
  intros Hx Hne Hai. unfold parse_cv_file. rewrite Hx. cbn [obind].
  destruct cv_text; [contradiction|]. cbn [is_empty]. rewrite Hai. reflexivity.
Qed.

(** C7, as the code has it.  For a CV with text, a field among email,
    name and phone for which the AI pass returned a value that counts as
    true (not null, not empty) has exactly that value in the result; the
    result differs from the AI value only where the AI value counts as
    false and the fallback found a match, and then it is the match. *)
Theorem C7_fallback_only_completes (L : Libs) (fs : gmap string (outcome string))
        (filepath cv_text : string) (ai_data : gmap string pyval) :
  extract_text_from_file L fs filepath = Returns cv_text ->
  cv_text <> "" ->
  parse_cv_with_ai L cv_text = Returns ai_data ->
  exists out,
    parse_cv_file L fs filepath = Returns out
    /\ forall key, In key ["email"; "name"; "phone"] ->
         (truthy (get ai_data key) = true -> out !! key = ai_data !! key)
         /\ (out !! key <> ai_data !! key ->
               truthy (get ai_data key) = false
               /\ truthy (get (extract_basic_info_regex cv_text) key) = true
               /\ out !! key = Some (get (extract_basic_info_regex cv_text) key)).
Proof.
  intros Hx Hne Hai. eexists. split; [eapply parse_cv_file_with_text; eassumption|].
  intros key Hkey.
  assert (Hk : "text" <> key) by (cbn in Hkey; intros <-; intuition discriminate).
  assert (Hget : get (<["text" := PStr cv_text]> ai_data) key = get ai_data key)
    by (unfold get; now rewrite lookup_insert_ne).
  destruct (regex_fallback_lookup cv_text key (<["text" := PStr cv_text]> ai_data) Hkey)
    as [Hsame|(Hfalsy & Hfound & Hval)].
  - rewrite lookup_insert_ne in Hsame by exact Hk. split; [intros _; exact Hsame|].
    intros Hdiff. contradiction.
  - rewrite Hget in Hfalsy. split; [intros Ht; congruence|]. intros _. auto.
Qed.

(** The theorem at a CV in which the service found the name. *)
Lemma C7_fallback_only_completes_witness :
  exists out,
    parse_cv_file (Scenario.text_libs Scenario.ai_jane) Scenario.cv_file "uploads/cv.txt"
    = Returns out
    /\ out !! "name" = Some (PStr "Jane Doe").
Proof.
  destruct (C7_fallback_only_completes (Scenario.text_libs Scenario.ai_jane) Scenario.cv_file
              "uploads/cv.txt" "Jane Doe, jane@x.com, 5 years Python"
              (mkdict [("name", PStr "Jane Doe"); ("email", PNone); ("phone", PNone);
                       ("skills", PList [PStr "Go"]); ("experience_years", PInt 5)]))
    as (out & Hout & Hkeys).
  - reflexivity.
  - discriminate.
  - reflexivity.
  - exists out. split; [exact Hout|].
    destruct (Hkeys "name") as [Hkept _]; [cbn; auto|].
    rewrite Hkept; reflexivity.
Defined.

(** C7 as it was stated fails when the AI pass returns the empty string,
    which is not null: the fallback's match replaces it. *)
Lemma C7_counterexample :
  exists ai_data out,
    parse_cv_with_ai (Scenario.text_libs Scenario.ai_empty_email)
      "Jane Doe, jane@x.com, 5 years Python" = Returns ai_data
    /\ ai_data !! "email" = Some (PStr "")
    /\ is_none (get ai_data "email") = false
    /\ parse_cv_file (Scenario.text_libs Scenario.ai_empty_email) Scenario.cv_file
         "uploads/cv.txt" = Returns out
    /\ out !! "email" = Some (PStr "jane@x.com")
    /\ out !! "email" <> ai_data !! "email".
Proof.
  eexists. eexists. split; [reflexivity|].
  split; [reflexivity|]. split; [reflexivity|]. split; [reflexivity|].
  split; [reflexivity|]. vm_compute. discriminate.
Qed.

(** ** The name of a new candidate *)

Lemma basic_info_name (text : string) :
  get (extract_basic_info_regex text) "name" = str_or_none (potential_name text).
Proof. unfold get, extract_basic_info_regex. now rewrite lookup_insert_eq. Qed.

Lemma str_or_none_falsy (s : string) : truthy (str_or_none s) = false -> s = "".
Proof. destruct s; [reflexivity|discriminate]. Qed.

Lemma regex_fallback_name_absent (cv_text : string) (cv_data : gmap string pyval) :
  regex_fallback cv_text cv_data !! "name" = None ->
  cv_data !! "name" = None /\ potential_name cv_text = "".
Proof.
  unfold regex_fallback.
  destruct (negb (truthy (get cv_data "email")) || negb (truthy (get cv_data "name"))) eqn:Hc.
  - rewrite !fill_missing_lookup, !get_fill_missing_ne by discriminate.
    cbn [String.eqb Ascii.eqb Bool.eqb andb].
    destruct (negb (truthy (get cv_data "name")) && truthy (get (extract_basic_info_regex cv_text) "name"))
      eqn:Hfill; [discriminate|].
    intros Hnone. split; [exact Hnone|].
    unfold get at 1 in Hfill. rewrite Hnone in Hfill. cbn in Hfill.
    rewrite basic_info_name in Hfill. now apply str_or_none_falsy.
  - intros Hnone. unfold get at 2 in Hc. rewrite Hnone in Hc. cbn in Hc.
    rewrite orb_true_r in Hc. discriminate.
Qed.

Lemma normalize_result_name (parsed : pyval) (out : gmap string pyval) :
  normalize_result parsed = Returns out ->
  exists result, parsed = PDict result /\ out !! "name" = result !! "name".
Proof.
  destruct parsed as [|b|z|f|s|l|result]; try discriminate.
  intros [= <-]. exists result. split; [reflexivity|].
  rewrite clean_experience_years_other by discriminate.
  rewrite !ensure_list_lookup. reflexivity.
Qed.

(** The profile lacks the key ['name'] only when the service answered with
    an object that has none and no line of the text looks like a name. *)
Lemma parse_cv_file_name_absent (L : Libs) fs filepath (cv_data : gmap string pyval) :
  parse_cv_file L fs filepath = Returns cv_data ->
  cv_data !! "name" = None ->
  exists cv_text result,
    extract_text_from_file L fs filepath = Returns cv_text
    /\ cv_text <> ""
    /\ openai_json L cv_text = Returns (PDict result)
    /\ result !! "name" = None
    /\ potential_name cv_text = "".
Proof.
  unfold parse_cv_file.
  destruct (extract_text_from_file L fs filepath) as [cv_text|e]; [|discriminate].
  cbn [obind]. destruct (is_empty cv_text) eqn:Hempty.
  - intros [= <-] Hname. discriminate.
  - unfold parse_cv_with_ai.
    destruct (openai_json L cv_text) as [parsed|e] eqn:Hai; cbn [obind try_except].
    + destruct (normalize_result parsed) as [out|e] eqn:Hnorm; cbn [obind try_except].
      * intros [= <-] Hname.
        apply regex_fallback_name_absent in Hname as [Hname Hpot].
        rewrite lookup_insert_ne in Hname by discriminate.
        apply normalize_result_name in Hnorm as (result & -> & Hres).
        exists cv_text, result. repeat split; try assumption; try congruence.
        intros ->. discriminate.
      * intros [= <-] Hname.
        apply regex_fallback_name_absent in Hname as [Hname _].
        rewrite lookup_insert_ne in Hname by discriminate. discriminate.
    + intros [= <-] Hname.
      apply regex_fallback_name_absent in Hname as [Hname _].
      rewrite lookup_insert_ne in Hname by discriminate. discriminate.
Qed.

(** C10, as the code has it.  The name handed to a new candidate is the
    value the profile has under ['name'] whenever the profile has that
    key, also when the value is null, and a row with a null name is
    refused by the table; the sender-derived default is used when the key
    is missing, which happens only when the service answered with an
    object without a name and no line of the text looks like one. *)
Theorem C10_name_of_new_candidate (L : Libs) (fs : gmap string (outcome string))
        (filepath : string) (cv_data : gmap string pyval) :
  parse_cv_file L fs filepath = Returns cv_data ->
  (forall E sender_name sender_email_clean subject cv_filename,
      Candidate.name (EmailBot.new_candidate E sender_name sender_email_clean subject
                        cv_filename cv_data)
      = match cv_data !! "name" with Some v => v | None => PStr sender_name end)
  /\ (forall E from_phone cv_filename email,
        Candidate.name (WhatsAppBot.new_candidate E from_phone cv_filename email cv_data)
        = match cv_data !! "name" with
          | Some v => v
          | None => PStr ("WhatsApp User " ++ from_phone)
          end)
  /\ (cv_data !! "name" = None ->
        exists cv_text result,
          extract_text_from_file L fs filepath = Returns cv_text
          /\ cv_text <> ""
          /\ openai_json L cv_text = Returns (PDict result)
          /\ result !! "name" = None
          /\ potential_name cv_text = "")
  /\ (forall w c, Candidate.name c = PNone ->
        insert_row w (CandidateRow c)
        = Raises (Exn "IntegrityError" "NOT NULL constraint failed: candidate.name")).
Proof.
  intros Hparse. split; [reflexivity|]. split; [reflexivity|].
  split; [apply parse_cv_file_name_absent; exact Hparse|].
  intros w c Hc. unfold insert_row. rewrite Hc. reflexivity.
Qed.

(** The theorem at a file from which no text comes: the profile has a
    null name, and this null is the name of the new candidate. *)
Lemma C10_name_of_new_candidate_witness :
  Candidate.name (WhatsAppBot.new_candidate (Scenario.wa_env 1000) "15550100"
                    "20240101_120000_cv.pdf" PNone no_text_profile)
  = PNone.
Proof.
  destruct (C10_name_of_new_candidate (Scenario.text_libs Scenario.ai_jane)
              (∅ : gmap string (outcome string)) "uploads/missing.pdf" no_text_profile)
    as (_ & Hwa & _).
  - reflexivity.
  - rewrite Hwa. reflexivity.
Defined.

(** C10 as it was stated fails when the service answers with an object
    that has no name and the text has no line that looks like one: the
    profile has no ['name'] key and the candidate is stored under the
    sender-derived default. *)
Lemma C10_counterexample :
  exists cv_data,
    parse_cv_file (Scenario.text_libs Scenario.ai_no_fields)
      (<["uploads/20240101_120000_cv.txt" := Returns "resume"]> ∅)
      "uploads/20240101_120000_cv.txt" = Returns cv_data
    /\ cv_data !! "name" = None
    /\ fst Scenario.after_nameless_cv = Returns tt
    /\ map Candidate.name (candidates (db (snd Scenario.after_nameless_cv)))
       = [PStr "WhatsApp User 15550100"].
Proof.
  eexists. split; [reflexivity|]. repeat split; reflexivity.
Qed.

(** ** The eligibility filter *)

Ltac run_handler :=
  unfold app_context, try_catch, bind, gets, ret, modify, lift;
  cbn [fresh_session work db pending deactive outages outbox fs].


Ltac run_session :=
  unfold session_add, session_commit, session_flush, modify, ret;
  cbn [fresh_session fail_transaction persist set_work set_pending set_outages push_reply
       write_file work db pending deactive outages outbox fs app insert_rows insert_row
       obind fst snd hd tail].

(** C9.  With the filter switched on and a sender that is not eligible,
    and the message not in the ledger yet, either handler hands the
    rejection to its transport and leaves every candidate as it was; when
    the database takes the commit it returns normally and the ledger has
    gained one entry, with status ['filtered_non_eu'] (the status the
    specification calls filtered_ineligible) and no candidate. *)
Theorem C9_ineligible_sender_is_filtered :
  (forall (E : Env) (msg : EmailBot.message) (sender_email subject : string) (st : State),
      find (fun l => String.eqb (EmailLog.sender_email l) sender_email
                     && String.eqb (EmailLog.subject l) subject)
           (email_logs (db st)) = None ->
      filter_eu_only E = true ->
      EmailBot.is_eu_phone_number (EmailBot.email_body msg) = false ->
      let r := EmailBot.process_email E msg sender_email subject st in
      let clean := snd (EmailBot.extract_email_info sender_email) in
      candidates (db (snd r)) = candidates (db st)
      /\ outbox (snd r) = (outbox st ++ [EmailReply clean ("Re: " ++ subject) Rejection])%list
      /\ (hd false (outages st) = false ->
            fst r = Returns tt
            /\ whatsapp_logs (db (snd r)) = whatsapp_logs (db st)
            /\ email_logs (db (snd r))
               = (email_logs (db st)
                  ++ [EmailLog.Make (next_id (map EmailLog.id (email_logs (db st))))
                        clean subject (utcnow E) None "filtered_non_eu" None])%list))
  /\
  (forall (E : Env) (message : WhatsAppBot.message_data) (st : State),
      find (fun l => String.eqb (WhatsAppLog.phone_number l) (WhatsAppBot.msg_from message)
                     && String.eqb (WhatsAppLog.message_id l) (WhatsAppBot.msg_id message))
           (whatsapp_logs (db st)) = None ->
      filter_eu_only E = true ->
      WhatsAppBot.is_eu_phone_number (WhatsAppBot.msg_from message) = false ->
      let r := WhatsAppBot.process_whatsapp_message E message st in
      candidates (db (snd r)) = candidates (db st)
      /\ outbox (snd r)
         = (outbox st ++ [WhatsAppMessage (WhatsAppBot.msg_from message) Rejection])%list
      /\ (hd false (outages st) = false ->
            fst r = Returns tt
            /\ email_logs (db (snd r)) = email_logs (db st)
            /\ whatsapp_logs (db (snd r))
               = (whatsapp_logs (db st)
                  ++ [WhatsAppLog.Make (next_id (map WhatsAppLog.id (whatsapp_logs (db st))))
                        (WhatsAppBot.msg_from message) (WhatsAppBot.msg_id message)
                        (utcnow E) None "filtered_non_eu" None])%list)).
Proof.
  split.
  - intros E msg sender_email subject st Hlog Hfilter Hineligible r clean.
    subst r clean. unfold EmailBot.process_email, EmailBot.existing_log.
    run_handler. rewrite Hlog.
    destruct (EmailBot.extract_email_info sender_email) as [sender_name sender_email_clean].
    unfold candidate_by_email. run_handler. rewrite Hfilter, Hineligible. cbn [andb negb].
    unfold EmailBot.send_reply, EmailBot.log_entry. run_session.
    destruct (outages st) as [|[] rest]; run_session; cbn;
      (split; [reflexivity|]); (split; [reflexivity|]); intros Hup;
      try discriminate; repeat split; reflexivity.
  - intros E message st Hlog Hfilter Hineligible r.
    subst r. unfold WhatsAppBot.process_whatsapp_message, WhatsAppBot.existing_log.
    run_handler. rewrite Hlog, Hfilter, Hineligible. cbn [andb negb].
    unfold WhatsAppBot.send_message, WhatsAppBot.log_entry. run_session.
    destruct (outages st) as [|[] rest]; run_session; cbn;
      (split; [reflexivity|]); (split; [reflexivity|]); intros Hup;
      try discriminate; repeat split; reflexivity.
Qed.

(** The theorem at a text message from a number outside the list, and at
    an email whose text has no listed code. *)
Lemma C9_ineligible_sender_is_filtered_witness :
  (fst Scenario.after_overseas_text = Returns tt
   /\ candidates (db (snd Scenario.after_overseas_text)) = []
   /\ outbox (snd Scenario.after_overseas_text) = [WhatsAppMessage "15550100" Rejection]
   /\ map WhatsAppLog.status (whatsapp_logs (db (snd Scenario.after_overseas_text)))
      = ["filtered_non_eu"])
  /\
  (fst Scenario.after_plain_email = Returns tt
   /\ candidates (db (snd Scenario.after_plain_email)) = []
   /\ outbox (snd Scenario.after_plain_email)
      = [EmailReply "jane@x.com" "Re: Application" Rejection]
   /\ map EmailLog.status (email_logs (db (snd Scenario.after_plain_email)))
      = ["filtered_non_eu"]).
Proof.
  destruct C9_ineligible_sender_is_filtered as [Hemail Hwa].
  split.
  - destruct (Hwa Scenario.filtering_env Scenario.overseas_text
                (Scenario.start Scenario.empty_store []))
      as (Hc & Ho & Hl); [reflexivity|reflexivity|reflexivity|].
    destruct (Hl eq_refl) as (Hr & _ & Hlogs).
    unfold Scenario.after_overseas_text. rewrite Hc, Ho, Hr, Hlogs.
    repeat split; reflexivity.
  - destruct (Hemail Scenario.filtering_env Scenario.plain_email Scenario.jane_from
                "Application" (Scenario.start Scenario.empty_store []))
      as (Hc & Ho & Hl); [reflexivity|reflexivity|reflexivity|].
    destruct (Hl eq_refl) as (Hr & _ & Hlogs).
    unfold Scenario.after_plain_email. rewrite Hc, Ho, Hr, Hlogs.
    repeat split; reflexivity.
Defined.

(** ** One ledger entry per message *)

(** A document whose name has no CV extension gets the "please send your
    CV" reply and nothing else: no session change, no ledger entry. *)
Lemma document_without_cv_extension (E : Env) (message : WhatsAppBot.message_data)
      (st : State) :
  find (fun l => String.eqb (WhatsAppLog.phone_number l) (WhatsAppBot.msg_from message)
                 && String.eqb (WhatsAppLog.message_id l) (WhatsAppBot.msg_id message))
       (whatsapp_logs (db st)) = None ->
  filter_eu_only E && negb (WhatsAppBot.is_eu_phone_number (WhatsAppBot.msg_from message))
  = false ->
  WhatsAppBot.msg_type message = "document" ->
  has_cv_extension (WhatsAppBot.filename message) = false ->
  WhatsAppBot.process_whatsapp_message E message st
  = (Returns tt,
     fresh_session (push_reply (WhatsAppMessage (WhatsAppBot.msg_from message) NotACv) st)).
Proof.
  intros Hlog Hfilter Htype Hext.
  unfold WhatsAppBot.process_whatsapp_message, WhatsAppBot.existing_log.
  run_handler. rewrite Hlog, Hfilter, Htype, Hext. reflexivity.
Qed.

(** A text message is logged once, with or without the prompt for a CV. *)
Lemma text_message_is_logged (E : Env) (message : WhatsAppBot.message_data) (st : State) :
  find (fun l => String.eqb (WhatsAppLog.phone_number l) (WhatsAppBot.msg_from message)
                 && String.eqb (WhatsAppLog.message_id l) (WhatsAppBot.msg_id message))
       (whatsapp_logs (db st)) = None ->
  filter_eu_only E && negb (WhatsAppBot.is_eu_phone_number (WhatsAppBot.msg_from message))
  = false ->
  WhatsAppBot.msg_type message = "text" ->
  hd false (outages st) = false ->
  let r := WhatsAppBot.process_whatsapp_message E message st in
  fst r = Returns tt
  /\ candidates (db (snd r)) = candidates (db st)
  /\ whatsapp_logs (db (snd r))
     = (whatsapp_logs (db st)
        ++ [WhatsAppLog.Make (next_id (map WhatsAppLog.id (whatsapp_logs (db st))))
              (WhatsAppBot.msg_from message) (WhatsAppBot.msg_id message)
              (utcnow E) None "text_received" None])%list.
Proof.
  intros Hlog Hfilter Htype Hup r. subst r.
  unfold WhatsAppBot.process_whatsapp_message, WhatsAppBot.existing_log.
  run_handler. rewrite Hlog, Hfilter, Htype. cbn [String.eqb Ascii.eqb Bool.eqb].
  unfold WhatsAppBot.send_message, WhatsAppBot.log_entry.
  destruct (WhatsAppBot.job_interest _); run_session;
    destruct (outages st) as [|[] rest]; try discriminate; run_session; cbn;
    repeat split; reflexivity.
Qed.

(** C4 on the code: a document named [photo.png] is answered and the
    handler returns, yet the ledger has no entry for the message, and the
    same message delivered again is answered again. *)
Theorem C4_document_without_cv_extension_leaves_no_entry :
  fst Scenario.after_picture = Returns tt
  /\ outbox (snd Scenario.after_picture) = [WhatsAppMessage "15550100" NotACv]
  /\ Spec.whatsapp_entries "15550100" "wamid.9" (db (snd Scenario.after_picture)) = []
  /\ fst Scenario.after_picture_again = Returns tt
  /\ outbox (snd Scenario.after_picture_again)
     = [WhatsAppMessage "15550100" NotACv; WhatsAppMessage "15550100" NotACv]
  /\ Spec.whatsapp_entries "15550100" "wamid.9" (db (snd Scenario.after_picture_again)) = [].
Proof. vm_compute. repeat split; reflexivity. Qed.

(** ** Redelivery *)

(** A message whose key is in the ledger is skipped: nothing is sent and
    nothing is written. *)
Lemma whatsapp_logged_message_is_skipped (E : Env) (message : WhatsAppBot.message_data)
      (st : State) (l : WhatsAppLog.t) :
  find (fun l => String.eqb (WhatsAppLog.phone_number l) (WhatsAppBot.msg_from message)
                 && String.eqb (WhatsAppLog.message_id l) (WhatsAppBot.msg_id message))
       (whatsapp_logs (db st)) = Some l ->
  WhatsAppBot.process_whatsapp_message E message st = (Returns tt, fresh_session st).
Proof.
  intros Hlog. unfold WhatsAppBot.process_whatsapp_message, WhatsAppBot.existing_log.
  run_handler. rewrite Hlog. reflexivity.
Qed.

Lemma email_logged_message_is_skipped (E : Env) (msg : EmailBot.message)
      (sender_email subject : string) (st : State) (l : EmailLog.t) :
  find (fun l => String.eqb (EmailLog.sender_email l) sender_email
                 && String.eqb (EmailLog.subject l) subject)
       (email_logs (db st)) = Some l ->
  EmailBot.process_email E msg sender_email subject st = (Returns tt, fresh_session st).
Proof.
  intros Hlog. unfold EmailBot.process_email, EmailBot.existing_log.
  run_handler. rewrite Hlog. reflexivity.
Qed.

(** C1 on the code.  An email from ["Jane Doe <jane@x.com>"] is processed
    and logged with success; its entry is stored under the bare address,
    so the check for the header as it came finds nothing, and the same
    message delivered again is processed again: the candidate is updated,
    a second confirmation is sent and the key has two ledger entries. *)
Theorem C1_email_redelivery_is_processed_again :
  fst Scenario.after_first_email = Returns tt
  /\ map (fun l => (EmailLog.sender_email l, EmailLog.subject l, EmailLog.status l))
         (email_logs (db (snd Scenario.after_first_email)))
     = [("jane@x.com", "Application", "success")]
  /\ Spec.email_entries Scenario.jane_from "Application" (db (snd Scenario.after_first_email))
     = []
  /\ map Candidate.last_updated (candidates (db (snd Scenario.after_first_email))) = [1000%Z]
  /\ fst Scenario.after_second_email = Returns tt
  /\ map Candidate.last_updated (candidates (db (snd Scenario.after_second_email))) = [2000%Z]
  /\ outbox (snd Scenario.after_second_email)
     = [EmailReply "jane@x.com" "Re: Application" Confirmation;
        EmailReply "jane@x.com" "Re: Application" Confirmation]
  /\ length (Spec.email_entries "jane@x.com" "Application"
               (db (snd Scenario.after_second_email))) = 2%nat.
Proof. vm_compute. repeat split; reflexivity. Qed.

(** ** A second CV without an email address *)

(** C3 on the code.  The first CV without an email address creates a
    candidate under [whatsapp_15550100@temp.com].  For the second one the
    lookup is skipped, a new row with the same address is added and the
    table refuses it: the handler ends with an exception, the stored
    candidate keeps the first CV and the message has no ledger entry. *)
Theorem C3_second_cv_without_email_is_not_merged :
  fst Scenario.after_first_cv = Returns tt
  /\ map (fun c => (Candidate.email c, Candidate.cv_text c))
         (candidates (db (snd Scenario.after_first_cv)))
     = [(PStr "whatsapp_15550100@temp.com", PStr "Jane Doe, 5 years Python")]
  /\ fst Scenario.after_second_cv = Raises pending_rollback
  /\ candidates (db (snd Scenario.after_second_cv))
     = candidates (db (snd Scenario.after_first_cv))
  /\ Spec.whatsapp_entries "15550100" "wamid.2" (db (snd Scenario.after_second_cv)) = []
  /\ outbox (snd Scenario.after_second_cv) = outbox (snd Scenario.after_first_cv).
Proof. vm_compute. repeat split; reflexivity. Qed.


(** ** Merging a profile into a stored candidate *)







(** ** The upsert and the ledger entry are two transactions *)

Import Steps.



Lemma on_return_weaken {A : Type} (P P' : State -> Prop) (m : M A) (Q Q' : A -> State -> Prop) :
  on_return P' m Q' -> (forall s, P s -> P' s) -> (forall a s, Q' a s -> Q a s) ->
  on_return P m Q.
Proof. intros Hm HP HQ st a st' H Hrun. eauto. Qed.














(** ** A logged WhatsApp message is handled once *)

Lemma preserved_bind {A B : Type} (I : State -> Prop) (m : M A) (f : A -> M B) :
  preserved I m -> (forall a, preserved I (f a)) -> preserved I (bind m f).
Proof.
  intros Hm Hf st HI. unfold bind. pose proof (Hm st HI) as H1.
  destruct (m st) as [[a|e] st1]; cbn in H1; [apply Hf; exact H1 | exact H1].
Qed.

Lemma preserved_try_catch {A : Type} (I : State -> Prop) (m : M A) (h : exn -> M A) :
  preserved I m -> (forall e, preserved I (h e)) -> preserved I (try_catch m h).
Proof.
  intros Hm Hh st HI. unfold try_catch. pose proof (Hm st HI) as H1.
  destruct (m st) as [[a|e] st1]; cbn in H1; [exact H1 | apply Hh; exact H1].
Qed.

Lemma preserved_read {A : Type} (I : State -> Prop) (m : M A) :
  (forall s, snd (m s) = s) -> preserved I m.
Proof. intros Hm st HI. now rewrite Hm. Qed.

Section Handling.

Variables (phone message_id : string) (st : State).

Let I := handling phone message_id st.

Lemma handling_start : I (fresh_session st).
Proof.
  unfold I, handling, grown_by_key; cbn.
  repeat split; try (exists []; rewrite app_nil_r; split; reflexivity).
Qed.

Lemma handling_fresh (s : State) : I s -> I (fresh_session s).
Proof. intros (Hdb & Hwork & Hp). unfold I, handling; cbn. auto. Qed.

Lemma handling_push_reply (r : reply) : preserved I (modify (push_reply r)).
Proof. intros s H. exact H. Qed.

Lemma handling_write_file (filepath content : string) :
  preserved I (modify (write_file filepath content)).
Proof. intros s H. exact H. Qed.

Lemma handling_update (i : Z) (f : Candidate.t -> Candidate.t) :
  preserved I (update_candidate i f).
Proof. intros s H. exact H. Qed.

Lemma handling_add (r : row) : adds_for phone message_id r = true -> preserved I (session_add r).
Proof.
  intros Hr s (Hdb & Hwork & Hp). unfold I, handling; cbn.
  rewrite forallb_app, Hp. cbn. rewrite Hr. auto.
Qed.

Lemma insert_rows_grow (rows : list row) :
  forall w w',
    forallb (adds_for phone message_id) rows = true ->
    grown_by_key phone message_id st (whatsapp_logs w) ->
    insert_rows w rows = Returns w' ->
    grown_by_key phone message_id st (whatsapp_logs w').
Proof.
  induction rows as [|r rows IH]; intros w w' Hrows Hw; cbn [insert_rows].
  - intros [= <-]. exact Hw.
  - cbn in Hrows. apply andb_prop in Hrows as [Hr Hrows].
    destruct (insert_row w r) as [w1|e] eqn:Hins; [|discriminate]. cbn [obind].
    apply IH; [exact Hrows|].
    destruct r as [c|l|l]; cbn in Hr, Hins; try discriminate.
    + destruct (is_none (Candidate.name c)); [discriminate|].
      destruct (is_none (Candidate.email c)); [discriminate|].
      destruct (existsb _ _); [discriminate|]. injection Hins as <-. exact Hw.
    + injection Hins as <-. cbn. destruct Hw as (new & -> & Hnew).
      eexists. rewrite <- app_assoc. split; [reflexivity|].
      rewrite forallb_app, Hnew. unfold has_key in Hr |- *. cbn. now rewrite Hr.
Qed.

Lemma handling_flush : preserved I session_flush.
Proof.
  intros s (Hdb & Hwork & Hp). unfold session_flush.
  destruct (deactive s); [repeat split; assumption|].
  destruct (insert_rows (work s) (pending s)) as [w|e] eqn:Hins; unfold I, handling; cbn.
  - repeat split; auto. eapply insert_rows_grow; eassumption.
  - auto.
Qed.

Lemma handling_commit : preserved I session_commit.
Proof.
  intros s (Hdb & Hwork & Hp). unfold session_commit, session_flush.
  destruct (deactive s) eqn:Hd; [repeat split; assumption|].
  destruct (match outages s with [] => false | b :: _ => b end);
    [unfold I, handling; cbn; auto|].
  cbn [set_outages deactive work pending]. rewrite Hd.
  destruct (insert_rows (work s) (pending s)) as [w|e] eqn:Hins; unfold I, handling; cbn.
  - assert (grown_by_key phone message_id st (whatsapp_logs w))
      by (eapply insert_rows_grow; eassumption).
    auto.
  - auto.
Qed.

End Handling.

(** Whatever the handler does with a message, the stored ledger only
    grows, and by entries under the key of the message. *)
Lemma whatsapp_ledger_grows_by_key (E : Env) (message : WhatsAppBot.message_data) (st : State) :
  grown_by_key (WhatsAppBot.msg_from message) (WhatsAppBot.msg_id message) st
    (whatsapp_logs (db (snd (WhatsAppBot.process_whatsapp_message E message st)))).
Proof.
  set (phone := WhatsAppBot.msg_from message). set (message_id := WhatsAppBot.msg_id message).
  assert (Hlog : forall candidate_id status error_message,
             preserved (handling phone message_id st)
               (bind (session_add (WhatsAppBot.log_entry E phone message_id candidate_id
                                     status error_message))
                     (fun _ => session_commit))).
  { intros. apply preserved_bind; [|intros; apply handling_commit].
    apply handling_add. cbn. unfold has_key. cbn. now rewrite !String.eqb_refl. }
  assert (Hsend : forall b (k : M unit),
             preserved (handling phone message_id st) k ->
             preserved (handling phone message_id st)
               (bind (WhatsAppBot.send_message phone b) (fun _ => k))).
  { intros. apply preserved_bind; [apply handling_push_reply|auto]. }
  assert (Hbody : preserved (handling phone message_id st)
            (try_catch
               (bind (WhatsAppBot.existing_log phone message_id) (fun existing =>
                match existing with
                | Some _ => ret tt
                | None =>
                  if filter_eu_only E && negb (WhatsAppBot.is_eu_phone_number phone) then
                    bind (WhatsAppBot.send_message phone Rejection) (fun _ =>
                    bind (session_add (WhatsAppBot.log_entry E phone message_id None
                                         "filtered_non_eu" None))
                         (fun _ => session_commit))
                  else if String.eqb (WhatsAppBot.msg_type message) "document" then
                    if has_cv_extension (WhatsAppBot.filename message) then
                      match media E (WhatsAppBot.media_id message) with
                      | Some file_content =>
                          if negb (is_empty file_content)
                          then WhatsAppBot.process_cv E phone message_id
                                 (WhatsAppBot.filename message) file_content
                          else
                            bind (WhatsAppBot.send_message phone DownloadFailed) (fun _ =>
                            bind (session_add (WhatsAppBot.log_entry E phone message_id None
                                                 "download_failed" None))
                                 (fun _ => session_commit))
                      | None =>
                          bind (WhatsAppBot.send_message phone DownloadFailed) (fun _ =>
                          bind (session_add (WhatsAppBot.log_entry E phone message_id None
                                               "download_failed" None))
                               (fun _ => session_commit))
                      end
                    else WhatsAppBot.send_message phone NotACv
                  else if String.eqb (WhatsAppBot.msg_type message) "text" then
                    let text := match WhatsAppBot.msg_text_body message with
                                | Some b => b | None => "" end in
                    bind (if WhatsAppBot.job_interest text
                          then WhatsAppBot.send_message phone Welcome else ret tt) (fun _ =>
                    bind (session_add (WhatsAppBot.log_entry E phone message_id None
                                         "text_received" None))
                         (fun _ => session_commit))
                  else ret tt
                end))
               (fun e =>
                  bind (session_add (WhatsAppBot.log_entry E phone message_id None "error"
                                       (Some (exn_str e))))
                       (fun _ => session_commit)))).
  { apply preserved_try_catch; [|intros; apply Hlog].
    apply preserved_bind; [apply preserved_read; reflexivity|]. intros existing.
    destruct existing; [apply preserved_read; reflexivity|].
    destruct (filter_eu_only E && negb (WhatsAppBot.is_eu_phone_number phone));
      [apply Hsend, Hlog|].
    destruct (String.eqb (WhatsAppBot.msg_type message) "document").
    - destruct (has_cv_extension _); [|apply handling_push_reply].
      destruct (media E _) as [file_content|]; [|apply Hsend, Hlog].
      destruct (negb (is_empty file_content)); [|apply Hsend, Hlog].
      unfold WhatsAppBot.process_cv, WhatsAppBot.upsert_candidate, WhatsAppBot.acknowledge.
      apply preserved_bind; [|intros; apply Hsend, Hlog].
      apply preserved_bind; [apply handling_write_file|]. intros ?.
      apply preserved_bind; [apply preserved_read; reflexivity|]. intros cv_data.
      apply preserved_bind.
      { apply preserved_read. intros s. destruct (truthy _); reflexivity. }
      intros existing_candidate.
      apply preserved_bind.
      + destruct existing_candidate as [candidate|].
        * apply preserved_bind; [apply handling_update|].
          intros; apply preserved_read; reflexivity.
        * apply preserved_bind; [apply handling_add; reflexivity|]. intros ?.
          apply preserved_bind; [apply handling_flush|].
          intros; apply preserved_read; reflexivity.
      + intros ?. apply preserved_bind; [apply handling_commit|].
        intros; apply preserved_read; reflexivity.
    - destruct (String.eqb (WhatsAppBot.msg_type message) "text");
        [|apply preserved_read; reflexivity].
      apply preserved_bind; [|intros; apply Hlog].
      destruct (WhatsAppBot.job_interest _);
        [apply handling_push_reply | apply preserved_read; reflexivity]. }
  unfold WhatsAppBot.process_whatsapp_message, app_context. fold phone. fold message_id.
  pose proof (Hbody (fresh_session st) (handling_start phone message_id st)) as H.
  destruct (try_catch _ _ (fresh_session st)) as [r st']. cbn in H |- *.
  destruct H as (Hdb & _). exact Hdb.
Qed.

Lemma find_in_grown (phone message_id : string) (old new : list WhatsAppLog.t) :
  new <> [] ->
  forallb (has_key phone message_id) new = true ->
  exists l, find (fun l => String.eqb (WhatsAppLog.phone_number l) phone
                           && String.eqb (WhatsAppLog.message_id l) message_id)
                 (old ++ new) = Some l.
Proof.
  intros Hne Hnew. induction old as [|o old IH]; cbn.
  - destruct new as [|n new]; [contradiction|]. cbn in Hnew |- *.
    apply andb_prop in Hnew as [Hn _]. unfold has_key in Hn. rewrite Hn. eauto.
  - destruct (_ && _); eauto.
Qed.

Lemma process_whatsapp_message_ends_fresh (E : Env) (message : WhatsAppBot.message_data)
      (st : State) :
  fresh_session (snd (WhatsAppBot.process_whatsapp_message E message st))
  = snd (WhatsAppBot.process_whatsapp_message E message st).
Proof.
  unfold WhatsAppBot.process_whatsapp_message, app_context.
  destruct (try_catch _ _ (fresh_session st)) as [r st']. reflexivity.
Qed.

(** The chat half of C1 holds: once handling a message has left a ledger
    entry, handling the same message again, in any surroundings, sends
    nothing and changes nothing. *)
Theorem whatsapp_redelivery_is_a_no_op (E E' : Env) (message : WhatsAppBot.message_data)
        (st : State) :
  let st1 := snd (WhatsAppBot.process_whatsapp_message E message st) in
  whatsapp_logs (db st1) <> whatsapp_logs (db st) ->
  WhatsAppBot.process_whatsapp_message E' message st1 = (Returns tt, st1).
Proof.
  intros st1 Hchanged.
  destruct (whatsapp_ledger_grows_by_key E message st) as (new & Hlogs & Hnew).
  fold st1 in Hlogs.
  assert (Hne : new <> []).
  { intros ->. apply Hchanged. rewrite Hlogs. apply app_nil_r. }
  destruct (find_in_grown _ _ (whatsapp_logs (db st)) new Hne Hnew) as (l & Hfind).
  rewrite <- Hlogs in Hfind.
  rewrite (whatsapp_logged_message_is_skipped E' message st1 l Hfind).
  f_equal. apply process_whatsapp_message_ends_fresh.
Qed.

(** * More properties *)

Import JobRequirements.

(** ** The AI parser and the orchestrator, whatever the service does *)

Lemma extract_text_from_file_returns (L : Libs) (fs : gmap string (outcome string))
      (filepath : string) :
  exists text, extract_text_from_file L fs filepath = Returns text.
Proof.
  unfold extract_text_from_file.
  destruct (negb (path_exists fs filepath)); [eauto|].
  destruct (String.eqb _ ".pdf").
  { destruct (extract_text_from_pdf_returns L fs filepath) as (t & Ht & _). eauto. }
  destruct (String.eqb _ ".docx").
  { destruct (extract_text_from_docx_returns L fs filepath) as (t & Ht & _). eauto. }
  destruct (_ || _); [|eauto].
  destruct (extract_text_from_txt_returns L fs filepath) as (t & Ht & _). eauto.
Qed.

(** X1.  [parse_cv_with_ai] returns a profile whatever the service does:
    when the call raises, or the answer is not a JSON object, the profile
    is the default one, with every field null, empty or 0. *)
Theorem parse_cv_with_ai_never_raises (L : Libs) (cv_text : string) :
  exists out,
    parse_cv_with_ai L cv_text = Returns out
    /\ (forall e, openai_json L cv_text = Raises e -> out = default_profile)
    /\ (forall parsed, openai_json L cv_text = Returns parsed ->
          (forall result, parsed <> PDict result) -> out = default_profile).
Proof.
  unfold parse_cv_with_ai.
  destruct (openai_json L cv_text) as [parsed|e] eqn:Hai; cbn [obind try_except].
  - destruct parsed as [|b|z|f|s|l|result]; cbn;
      try (exists default_profile; repeat split; intros; reflexivity || discriminate).
    eexists. split; [reflexivity|]. split; [intros; discriminate|].
    intros parsed [= <-] Hno. exfalso. eapply Hno. reflexivity.
  - exists default_profile. repeat split; intros; reflexivity || discriminate.
Qed.

Lemma regex_fallback_other (cv_text key : string) (cv_data : gmap string pyval) :
  key <> "email" -> key <> "name" -> key <> "phone" ->
  regex_fallback cv_text cv_data !! key = cv_data !! key.
Proof.
  intros He Hn Hp. unfold regex_fallback.
  destruct (_ || _); [|reflexivity].
  rewrite !fill_missing_lookup.
  destruct (String.eqb_spec "phone" key); [congruence|].
  destruct (String.eqb_spec "name" key); [congruence|].
  destruct (String.eqb_spec "email" key); [congruence|]. reflexivity.
Qed.

(** The fields of a profile that the database columns rely on. *)
Lemma parse_cv_with_ai_shape (L : Libs) (cv_text : string) (out : gmap string pyval) :
  parse_cv_with_ai L cv_text = Returns out ->
  (exists v, out !! "experience_years" = Some v /\ isinstance_int v = true)
  /\ (forall key v, In key ["skills"; "education"; "work_experience"] ->
        out !! key = Some v -> isinstance_list v = true).
Proof.
  unfold parse_cv_with_ai.
  assert (Hdefault :
    (exists v, default_profile !! "experience_years" = Some v /\ isinstance_int v = true)
    /\ (forall key v, In key ["skills"; "education"; "work_experience"] ->
          default_profile !! key = Some v -> isinstance_list v = true)).
  { split; [eexists; split; reflexivity|].
    intros key v Hkey. cbn in Hkey.
    destruct Hkey as [<-|[<-|[<-|[]]]]; vm_compute; intros [= <-]; reflexivity. }
  destruct (openai_json L cv_text) as [parsed|e]; cbn [obind try_except];
    [|intros [= <-]; exact Hdefault].
  destruct parsed as [|b|z|f|s|l|result]; cbn [normalize_result try_except];
    try (intros [= <-]; exact Hdefault).
  destruct (normalize_result_lookup result) as (out' & Hout & Hexp & Hlists).
  cbn [normalize_result] in Hout. rewrite Hout. cbn [try_except]. intros [= <-].
  split.
  - rewrite Hexp. unfold get.
    destruct (result !! "experience_years") as [[|b|z|f|s|l|d]|]; eexists; split; reflexivity.
  - intros key v Hkey. rewrite (Hlists key Hkey).
    destruct (result !! key) as [[|b|z|f|s|l|d]|]; intros [= <-]; reflexivity.
Qed.

(** X2.  [parse_cv_file] returns a profile for every path.  Its ['text'] is
    the extracted text; with no text it is the all-null profile, whatever
    the service would have answered; ['experience_years'] is always there
    and an [int]; and each of the three list fields, when there, is a list. *)
Theorem parse_cv_file_shape (L : Libs) (fs : gmap string (outcome string)) (filepath : string) :
  exists text out,
    extract_text_from_file L fs filepath = Returns text
    /\ parse_cv_file L fs filepath = Returns out
    /\ out !! "text" = Some (PStr text)
    /\ (text = "" -> out = no_text_profile)
    /\ (exists v, out !! "experience_years" = Some v /\ isinstance_int v = true)
    /\ (forall key v, In key ["skills"; "education"; "work_experience"] ->
          out !! key = Some v -> isinstance_list v = true).
Proof.
  destruct (extract_text_from_file_returns L fs filepath) as (text & Htext).
  exists text. unfold parse_cv_file. rewrite Htext. cbn [obind].
  destruct text as [|c text]; cbn [is_empty].
  - exists no_text_profile. split; [reflexivity|]. split; [reflexivity|].
    split; [reflexivity|]. split; [reflexivity|].
    split; [eexists; split; reflexivity|].
    intros key v Hkey. cbn in Hkey.
    destruct Hkey as [<-|[<-|[<-|[]]]]; vm_compute; intros [= <-]; reflexivity.
  - destruct (parse_cv_with_ai_returns L (String c text)) as (ai & Hai).
    rewrite Hai. cbn [obind].
    destruct (parse_cv_with_ai_shape L _ ai Hai) as (Hexp & Hlists).
    eexists. split; [reflexivity|]. split; [reflexivity|].
    split.
    { rewrite regex_fallback_other by discriminate. apply lookup_insert_eq. }
    split; [discriminate|].
    split.
    { rewrite regex_fallback_other by discriminate.
      rewrite lookup_insert_ne by discriminate. exact Hexp. }
    intros key v Hkey.
    rewrite regex_fallback_other by (cbn in Hkey; intros ->; intuition discriminate).
    rewrite lookup_insert_ne by (cbn in Hkey; intros <-; intuition discriminate).
    apply Hlists, Hkey.
Qed.


(** ** The requirements of a job *)

(** X5.  [extract_job_requirements] returns for every answer of the
    service.  For a JSON object each of [required_skills],
    [preferred_skills] and [certifications] stays when it is a list,
    becomes the empty list when it is anything else and stays out when the
    service left it out; every other key, [min_experience_years] among
    them, is handed on exactly as the service gave it.  Any other answer
    and any failure give the default requirements. *)
Theorem extract_job_requirements_normalizes (openai_json : string -> outcome pyval)
        (requirements_text : string) :
  exists out,
    extract_job_requirements openai_json requirements_text = Returns out
    /\ (forall result, openai_json requirements_text = Returns (PDict result) ->
          (forall key, In key ["required_skills"; "preferred_skills"; "certifications"] ->
             out !! key = match result !! key with
                          | Some (PList l) => Some (PList l)
                          | Some _ => Some (PList [])
                          | None => None
                          end)
          /\ (forall key, ~ In key ["required_skills"; "preferred_skills"; "certifications"] ->
                out !! key = result !! key))
    /\ ((forall result, openai_json requirements_text <> Returns (PDict result)) ->
          out = default_requirements).
Proof.
  unfold extract_job_requirements.
  destruct (openai_json requirements_text) as [parsed|e] eqn:Hai; cbn [obind try_except].
  2: { exists default_requirements. repeat split; intros; reflexivity || discriminate. }
  destruct parsed as [|b|z|f|s|l|result]; cbn;
    try (exists default_requirements; split; [reflexivity|];
         split; [intros; discriminate | intros; reflexivity]).
  eexists. split; [reflexivity|]. split.
  - intros result' [= <-]. split.
    + intros key Hkey. rewrite !ensure_list_lookup.
      cbn in Hkey. destruct Hkey as [<-|[<-|[<-|[]]]];
        cbn [String.eqb Ascii.eqb Bool.eqb]; try reflexivity;
        repeat match goal with
               | |- context [match ?m !! ?k with _ => _ end] =>
                   destruct (m !! k) as [[]|]; try reflexivity
               end.
    + intros key Hkey. rewrite !ensure_list_lookup.
      destruct (String.eqb_spec "certifications" key);
        [exfalso; apply Hkey; subst; cbn; auto|].
      destruct (String.eqb_spec "preferred_skills" key);
        [exfalso; apply Hkey; subst; cbn; auto|].
      destruct (String.eqb_spec "required_skills" key);
        [exfalso; apply Hkey; subst; cbn; auto|]. reflexivity.
  - intros Hno. exfalso. eapply Hno. reflexivity.
Qed.

(** ** Extracted text is stripped *)


Lemma append_cons (c : ascii) (a b : string) : String c a ++ b = String c (a ++ b).
Proof. reflexivity. Qed.

Lemma string_of_list_ascii_app (a b : list ascii) :
  string_of_list_ascii (a ++ b)%list = string_of_list_ascii a ++ string_of_list_ascii b.
Proof. induction a as [|c a IH]; [reflexivity|]. simpl. rewrite IH. reflexivity. Qed.

Lemma list_ascii_of_string_app (a b : string) :
  list_ascii_of_string (a ++ b) = (list_ascii_of_string a ++ list_ascii_of_string b)%list.
Proof. induction a as [|c a IH]; [reflexivity|]. simpl. rewrite IH. reflexivity. Qed.

Lemma rev_string_app (a b : string) : rev_string (a ++ b) = rev_string b ++ rev_string a.
Proof.
  unfold rev_string. now rewrite list_ascii_of_string_app, rev_app_distr, string_of_list_ascii_app.
Qed.














(** ** The two eligibility checks *)

Lemma remove_char_app (c : ascii) (a b : string) :
  remove_char c (a ++ b) = remove_char c a ++ remove_char c b.
Proof.
  induction a as [|x a IH]; [reflexivity|].
  rewrite append_cons. cbn. destruct (Ascii.eqb x c).
  - exact IH.
  - rewrite append_cons. now rewrite IH.
Qed.

Lemma startswith_digit (code : string) (c : ascii) (rest : string) :
  In code WhatsAppBot.eu_codes ->
  startswith code (String c rest) = true ->
  c = "3"%char \/ c = "4"%char.
Proof.
  intros Hcode. cbn in Hcode.
  repeat (destruct Hcode as [<-|Hcode]); try contradiction; cbn [startswith];
    destruct (Ascii.eqb_spec "3"%char c); destruct (Ascii.eqb_spec "4"%char c);
    subst; auto; discriminate.
Qed.

(** X6.  The WhatsApp check looks at the number without its [+], blanks
    and dashes: putting one of them anywhere in a number never changes the
    answer; and it accepts a number only if the first character left is a
    3 or a 4, so a number of the +1 zone, among others, is never accepted. *)
Theorem whatsapp_eligibility_ignores_formatting :
  (forall (a b : string) (c : ascii),
      In c ["+"; " "; "-"]%char ->
      WhatsAppBot.is_eu_phone_number (a ++ String c b) = WhatsAppBot.is_eu_phone_number (a ++ b))
  /\ (forall phone_number,
        WhatsAppBot.is_eu_phone_number phone_number = true ->
        exists c rest,
          remove_char "-" (remove_char " " (remove_char "+" phone_number)) = String c rest
          /\ (c = "3"%char \/ c = "4"%char)).
Proof.
  split.
  - intros a b c Hc. unfold WhatsAppBot.is_eu_phone_number. f_equal.
    rewrite !remove_char_app.
    cbn in Hc. destruct Hc as [<-|[<-|[<-|[]]]]; cbn [remove_char Ascii.eqb Bool.eqb];
      rewrite ?remove_char_app; reflexivity.
  - intros phone_number. unfold WhatsAppBot.is_eu_phone_number.
    set (clean_phone := remove_char "-" (remove_char " " (remove_char "+" phone_number))).
    intros Hex. apply existsb_exists in Hex as (code & Hcode & Hstart).
    destruct clean_phone as [|c rest].
    + exfalso. cbn in Hcode.
      repeat (destruct Hcode as [<-|Hcode]); try contradiction; discriminate.
    + exists c, rest. split; [reflexivity|]. eapply startswith_digit; eassumption.
Qed.

Lemma startswith_spec (p s : string) :
  startswith p s = true <-> exists b, s = p ++ b.
Proof.
  revert s. induction p as [|x p IH]; intros s.
  - cbn. split; [intros _; exists s; reflexivity|reflexivity].
  - destruct s as [|y s]; cbn.
    + split; [discriminate|intros (b & Hb); discriminate].
    + split.
      * intros H. apply andb_prop in H as [Hxy Hp].
        apply Ascii.eqb_eq in Hxy as ->. apply IH in Hp as (b & ->).
        exists b. reflexivity.
      * intros (b & Hb). rewrite append_cons in Hb. injection Hb as -> ->.
        rewrite Ascii.eqb_refl. cbn. apply IH. eauto.
Qed.

(** [p in s] holds exactly when [p] occurs in [s]. *)
Lemma contains_spec (p s : string) :
  contains p s = true <-> exists a b, s = a ++ p ++ b.
Proof.
  induction s as [|y s IH].
  - cbn. rewrite orb_false_r. split.
    + intros H. apply startswith_spec in H as (b & Hb). exists "", b. exact Hb.
    + intros (a & b & H). apply startswith_spec.
      destruct a as [|x a]; [exists b; exact H|discriminate].
  - cbn [contains]. split.
    + intros H. apply orb_prop in H as [H|H].
      * apply startswith_spec in H as (b & Hb). exists "", b. exact Hb.
      * apply IH in H as (a & b & ->). exists (String y a), b. reflexivity.
    + intros (a & b & H). apply orb_true_iff.
      destruct a as [|x a].
      * left. apply startswith_spec. exists b. exact H.
      * right. rewrite append_cons in H. injection H as -> ->. apply IH. eauto.
Qed.

(** X7.  The email check accepts a body exactly when one of the thirteen
    codes, with its [+], occurs somewhere in the text; where it occurs and
    what surrounds it does not matter, and the sender plays no part. *)
Theorem email_eligibility_is_a_substring_test (text : string) :
  EmailBot.is_eu_phone_number text = true
  <-> exists code a b, In code EmailBot.eu_codes /\ text = a ++ code ++ b.
Proof.
  unfold EmailBot.is_eu_phone_number. rewrite existsb_exists. split.
  - intros (code & Hcode & Hc). apply contains_spec in Hc as (a & b & ->). eauto.
  - intros (code & a & b & Hcode & ->). exists code. split; [exact Hcode|].
    apply contains_spec. eauto.
Qed.

(** ** What one run of a handler may do to the tables *)

Import Footprint.

Lemma hoare_bind {A B : Type} (P : State -> Prop) (m : M A) (Q : A -> State -> Prop)
      (f : A -> M B) (Q' : B -> State -> Prop) (R : State -> Prop) :
  hoare P m Q R -> (forall a, hoare (Q a) (f a) Q' R) -> hoare P (bind m f) Q' R.
Proof.
  intros Hm Hf st HP. unfold bind. pose proof (Hm st HP) as H1.
  destruct (m st) as [[a|e] s]; [exact (Hf a s H1) | exact H1].
Qed.

Lemma hoare_try_catch {A : Type} (P : State -> Prop) (m : M A) (h : exn -> M A)
      (Q : A -> State -> Prop) (R R' : State -> Prop) :
  hoare P m Q R -> (forall e, hoare R (h e) Q R') -> hoare P (try_catch m h) Q R'.
Proof.
  intros Hm Hh st HP. unfold try_catch. pose proof (Hm st HP) as H1.
  destruct (m st) as [[a|e] s]; [exact H1 | exact (Hh e s H1)].
Qed.

Lemma hoare_ret {A : Type} (P : State -> Prop) (a : A) (Q : A -> State -> Prop)
      (R : State -> Prop) :
  (forall s, P s -> Q a s) -> hoare P (ret a) Q R.
Proof. intros H st HP. cbn. auto. Qed.

Lemma hoare_weaken {A : Type} (P P' : State -> Prop) (m : M A) (Q Q' : A -> State -> Prop)
      (R R' : State -> Prop) :
  hoare P' m Q' R' ->
  (forall s, P s -> P' s) -> (forall a s, Q' a s -> Q a s) -> (forall s, R' s -> R s) ->
  hoare P m Q R.
Proof.
  intros Hm HP HQ HR st H. pose proof (Hm st (HP st H)) as H1.
  destruct (m st) as [[a|e] s]; auto.
Qed.

(** A step that returns and leaves the state as it is. *)
Lemma hoare_read {A : Type} (P : State -> Prop) (m : M A) (R : State -> Prop) :
  (forall s, exists a, m s = (Returns a, s)) -> hoare P m (fun _ s => P s) R.
Proof. intros Hm st HP. destruct (Hm st) as (a & ->). exact HP. Qed.

Lemma apart_push_reply (r : reply) : apart (push_reply r).
Proof. intros s. repeat split. Qed.

Lemma apart_write_file (filepath content : string) : apart (write_file filepath content).
Proof. intros s. repeat split. Qed.

Lemma session_apart (d0 : Store) (n m : nat) (f : State -> State) (R : State -> Prop) :
  apart f -> hoare (session d0 n m) (modify f) (fun _ s => session d0 n m s) R.
Proof.
  intros Hf s H. cbn. destruct (Hf s) as (Hdb & Hwork & Hp & Hd).
  unfold session in *. rewrite Hdb, Hwork, Hp, Hd. exact H.
Qed.

Lemma parse_cv_text_returns (E : Env) (filepath : string) (s : State) :
  exists cv_data, parse_cv_text E filepath s = (Returns cv_data, s).
Proof.
  unfold parse_cv_text, CvParser.parse_cv_text, parse_cv_file.
  destruct (extract_text_from_file_returns (libs E) (fs s) filepath) as (text & ->).
  cbn [obind]. destruct (is_empty text); [eauto|].
  destruct (parse_cv_with_ai_returns (libs E) text) as (out & ->). cbn [obind]. eauto.
Qed.

Lemma candidates_kept_le (n m : nat) (d0 w : Store) :
  (n <= m)%nat -> candidates_kept n d0 w -> candidates_kept m d0 w.
Proof. intros Hnm (new & Hnew & Hlen). exists new. split; [exact Hnew|lia]. Qed.

Lemma session_le (d0 : Store) (n m n' m' : nat) (s : State) :
  (n <= n')%nat -> (m <= m')%nat -> session d0 n m s -> session d0 n' m' s.
Proof.
  intros Hn Hm (Hd & Hp & Hw & Hdb & Hcw & Hcdb).
  unfold session. eauto 10 using candidates_kept_le.
Qed.

Lemma candidates_kept_refl (d0 : Store) : candidates_kept 0 d0 d0.
Proof. exists []. rewrite app_nil_r. split; [reflexivity|cbn; lia]. Qed.

Lemma same_ledgers_refl (d0 : Store) : same_ledgers d0 d0.
Proof. split; reflexivity. Qed.

Ltac session_parts := split; [|split; [|split; [|split; [|split]]]].

Lemma session_start (st : State) : session (db st) 0 0 (fresh_session st).
Proof.
  session_parts; cbn; auto using candidates_kept_refl, same_ledgers_refl.
Qed.

Lemma session_update (d0 : Store) (i : Z) (f : Candidate.t -> Candidate.t) (R : State -> Prop) :
  (forall c, identity (f c) = identity c) ->
  hoare (session d0 0 0) (update_candidate i f) (fun _ s => session d0 0 0 s) R.
Proof.
  intros Hf s (Hd & Hp & Hw & Hdb & (new & Hnew & Hlen) & Hcdb). cbn.
  session_parts; try assumption.
  exists new. split; [|exact Hlen]. cbn. rewrite <- Hnew, map_map.
  apply map_ext. intros c. destruct (_ =? _)%Z; [apply Hf|reflexivity].
Qed.

Lemma session_add_candidate (d0 : Store) (c : Candidate.t) (R : State -> Prop) :
  hoare (session d0 0 0) (session_add (CandidateRow c)) (fun _ s => adding d0 s) R.
Proof.
  intros s (Hd & Hp & Hw & Hdb & Hcw & Hcdb). cbn. rewrite Hp.
  session_parts; try assumption. exists c. reflexivity.
Qed.

Lemma failed_transaction (d0 : Store) (n : nat) (s : State) :
  (n <= 1)%nat -> same_ledgers d0 (db s) -> candidates_kept n d0 (db s) ->
  failed d0 (fail_transaction s).
Proof.
  intros Hn Hdb Hc. split; [reflexivity|]. split; [exact Hdb|].
  eapply candidates_kept_le; eassumption.
Qed.

Lemma adding_flush (d0 : Store) :
  hoare (adding d0) session_flush (fun _ s => session d0 1 0 s) (failed d0).
Proof.
  intros s (Hd & (c & Hp) & Hw & Hdb & (new & Hnew & Hlen) & Hcdb).
  unfold session_flush. rewrite Hd, Hp. cbn [insert_rows insert_row].
  assert (Hfail : failed d0 (fail_transaction s))
    by (apply failed_transaction with (n := 0%nat); auto).
  destruct (is_none (Candidate.name c)); [exact Hfail|].
  destruct (is_none (Candidate.email c)); [exact Hfail|].
  destruct (existsb _ _); [exact Hfail|]. cbn.
  session_parts; try assumption; try reflexivity.
  destruct new; [|cbn in Hlen; lia].
  eexists. cbn [work set_pending set_work candidates].
  rewrite map_app, Hnew, app_nil_r. split; [reflexivity|]. cbn. lia.
Qed.

Lemma session_commit_ok (d0 : Store) (n m : nat) :
  (m <= 1)%nat ->
  hoare (session d0 n m) session_commit (fun _ s => session d0 n n s) (failed d0).
Proof.
  intros Hm s (Hd & Hp & Hw & Hdb & Hcw & Hcdb).
  unfold session_commit, session_flush. rewrite Hd.
  destruct (match outages s with [] => false | b :: _ => b end).
  - apply failed_transaction with (n := m); assumption.
  - cbn [set_outages deactive work pending]. rewrite Hd, Hp. cbn.
    session_parts; try assumption; reflexivity.
Qed.

(** The entry of a WhatsApp message and its commit. *)
Lemma whatsapp_log_step (E : Env) (d0 : Store) (phone message_id : string)
      (candidate_id : option Z) (status : string) (error_message : option string) :
  hoare (session d0 1 1)
        (bind (session_add (WhatsAppBot.log_entry E phone message_id candidate_id status
                              error_message))
              (fun _ => session_commit))
        (fun _ s => whatsapp_closed d0 phone message_id s) (failed d0).
Proof.
  intros s (Hd & Hp & Hw & Hdb & Hcw & Hcdb).
  unfold bind, session_add, modify, session_commit, session_flush. cbn. rewrite Hd, Hp.
  destruct (match outages s with [] => false | b :: _ => b end); cbn.
  - split; [reflexivity|]. split; assumption.
  - split; [apply Hw|]. split; [exact Hcw|]. right.
    eexists. destruct Hw as [-> _]. split; [reflexivity|]. split; reflexivity.
Qed.

(** In a session that has failed, the entry is added and its commit is
    refused. *)
Lemma failed_log_step (d0 : Store) (r : row) (Q : unit -> State -> Prop) :
  hoare (failed d0) (bind (session_add r) (fun _ => session_commit)) Q (failed d0).
Proof.
  intros s (Hd & Hdb & Hc).
  unfold bind, session_add, modify, session_commit. cbn. rewrite Hd. cbn.
  split; [exact Hd|]. split; assumption.
Qed.

Lemma whatsapp_closed_session (d0 : Store) (phone message_id : string) (n m : nat) (s : State) :
  (m <= 1)%nat -> session d0 n m s -> whatsapp_closed d0 phone message_id s.
Proof.
  intros Hm (Hd & Hp & Hw & Hdb & Hcw & Hcdb).
  split; [apply Hdb|]. split; [eapply candidates_kept_le; eassumption|].
  left. apply Hdb.
Qed.

Lemma whatsapp_update_keeps_identity (E : Env) (from_phone cv_filename : string)
      (cv_data : gmap string pyval) (c : Candidate.t) :
  identity (WhatsAppBot.update_from_cv E from_phone cv_filename cv_data c) = identity c.
Proof. reflexivity. Qed.

Lemma whatsapp_upsert_footprint (E : Env) (d0 : Store) (from_phone filename file_content : string) :
  hoare (session d0 0 0) (WhatsAppBot.upsert_candidate E from_phone filename file_content)
        (fun _ s => session d0 1 1 s) (failed d0).
Proof.
  unfold WhatsAppBot.upsert_candidate.
  eapply hoare_bind; [apply session_apart, apart_write_file|]. intros ?.
  eapply hoare_bind; [apply hoare_read, parse_cv_text_returns|]. intros cv_data.
  eapply hoare_bind.
  { apply hoare_read. intros s. destruct (truthy _); eexists; reflexivity. }
  intros existing_candidate.
  eapply hoare_bind with (Q := fun _ s => session d0 1 0 s).
  - destruct existing_candidate as [candidate|].
    + eapply hoare_bind; [apply session_update, whatsapp_update_keeps_identity|]. intros ?.
      apply hoare_ret. intros s. apply session_le; lia.
    + eapply hoare_bind; [apply session_add_candidate|]. intros ?.
      eapply hoare_bind; [apply adding_flush|]. intros ?.
      apply hoare_read. intros s. eexists. reflexivity.
  - intros candidate_id.
    eapply hoare_bind; [apply session_commit_ok; lia|]. intros ?.
    apply hoare_ret. auto.
Qed.

Lemma whatsapp_send_then (d0 : Store) (n m : nat) (phone : string) (b : body) (k : M unit)
      (Q : unit -> State -> Prop) (R : State -> Prop) :
  hoare (session d0 n m) k Q R ->
  hoare (session d0 n m) (bind (WhatsAppBot.send_message phone b) (fun _ => k)) Q R.
Proof.
  intros Hk. eapply hoare_bind; [apply session_apart, apart_push_reply|]. intros ?. exact Hk.
Qed.

(** The handler between the opening of the application context and its
    teardown. *)
Lemma whatsapp_handler_footprint (E : Env) (message : WhatsAppBot.message_data) (st : State) :
  match WhatsAppBot.process_whatsapp_message E message st with
  | (Returns _, s) =>
      whatsapp_closed (db st) (WhatsAppBot.msg_from message) (WhatsAppBot.msg_id message) s
  | (Raises _, s) =>
      same_ledgers (db st) (db s) /\ candidates_kept 1 (db st) (db s)
  end.
Proof.
  set (phone := WhatsAppBot.msg_from message). set (message_id := WhatsAppBot.msg_id message).
  set (d0 := db st).
  assert (Hlog : forall candidate_id status error_message,
             hoare (session d0 0 0)
               (bind (session_add (WhatsAppBot.log_entry E phone message_id candidate_id
                                     status error_message))
                     (fun _ => session_commit))
               (fun _ s => whatsapp_closed d0 phone message_id s) (failed d0)).
  { intros. eapply hoare_weaken;
      [apply whatsapp_log_step | intros s; apply session_le; lia
       | intros ? s H; exact H | intros s H; exact H]. }
  pose proof (fun b k => whatsapp_send_then d0 0 0 phone b k
                (fun _ s => whatsapp_closed d0 phone message_id s) (failed d0)) as Hsend.
  assert (Hskip : forall s, session d0 0 0 s -> whatsapp_closed d0 phone message_id s).
  { intros s. apply whatsapp_closed_session. lia. }
  unfold WhatsAppBot.process_whatsapp_message, app_context. fold phone. fold message_id.
  match goal with
  | |- context [try_catch ?b ?h] =>
      assert (Hrun : hoare (session d0 0 0) (try_catch b h)
                       (fun _ s => whatsapp_closed d0 phone message_id s) (failed d0))
  end.
  { eapply hoare_try_catch; [|intros; apply failed_log_step].
    eapply hoare_bind; [apply hoare_read; intros; eexists; reflexivity|]. intros existing.
    destruct existing; [apply hoare_ret, Hskip|].
    destruct (filter_eu_only E && negb (WhatsAppBot.is_eu_phone_number phone));
      [apply Hsend, Hlog|].
    destruct (String.eqb (WhatsAppBot.msg_type message) "document").
    - destruct (has_cv_extension _).
      + destruct (media E _) as [file_content|]; [|apply Hsend, Hlog].
        destruct (negb (is_empty file_content)); [|apply Hsend, Hlog].
        unfold WhatsAppBot.process_cv, WhatsAppBot.acknowledge.
        eapply hoare_bind; [apply whatsapp_upsert_footprint|]. intros candidate_id.
        apply whatsapp_send_then, whatsapp_log_step.
      + eapply hoare_weaken;
          [apply session_apart, apart_push_reply | intros s H; exact H
           | intros ?; exact Hskip | intros s H; exact H].
    - destruct (String.eqb (WhatsAppBot.msg_type message) "text"); [|apply hoare_ret, Hskip].
      eapply hoare_bind with (Q := fun _ s => session d0 0 0 s); [|intros; apply Hlog].
      destruct (WhatsAppBot.job_interest _);
        [apply session_apart, apart_push_reply | apply hoare_ret; auto]. }
  pose proof (Hrun (fresh_session st) (session_start st)) as H.
  destruct (try_catch _ _ (fresh_session st)) as [[[]|e] s]; cbn in H |- *.
  - exact H.
  - destruct H as (_ & Hl & Hc). exact (conj Hl Hc).
Qed.

(** The entry of an email and its commit. *)
Lemma email_log_step (E : Env) (d0 : Store) (sender_email subject : string)
      (candidate_id : option Z) (status : string) (error_message : option string) :
  hoare (session d0 1 1)
        (bind (session_add (EmailBot.log_entry E sender_email subject candidate_id status
                              error_message))
              (fun _ => session_commit))
        (fun _ s => email_closed d0 sender_email subject s) (failed d0).
Proof.
  intros s (Hd & Hp & Hw & Hdb & Hcw & Hcdb).
  unfold bind, session_add, modify, session_commit, session_flush. cbn. rewrite Hd, Hp.
  destruct (match outages s with [] => false | b :: _ => b end); cbn.
  - split; [reflexivity|]. split; assumption.
  - split; [apply Hw|]. split; [exact Hcw|]. right.
    eexists. destruct Hw as [_ ->]. split; [reflexivity|]. split; reflexivity.
Qed.

Lemma email_update_keeps_identity (E : Env) (cv_filename : string)
      (cv_data : gmap string pyval) (c : Candidate.t) :
  identity (EmailBot.update_from_cv E cv_filename cv_data c) = identity c.
Proof. reflexivity. Qed.

Lemma email_upsert_footprint (E : Env) (d0 : Store) (sender_name sender_email_clean subject : string)
      (attachments : list (string * string)) (existing_candidate : option Candidate.t) :
  hoare (session d0 0 0)
        (EmailBot.upsert_candidate E sender_name sender_email_clean subject attachments
           existing_candidate)
        (fun _ s => session d0 1 1 s) (failed d0).
Proof.
  unfold EmailBot.upsert_candidate.
  eapply hoare_bind with (Q := fun _ s => session d0 1 0 s).
  - destruct attachments as [|attachment rest].
    + apply hoare_ret. intros s. apply session_le; lia.
    + unfold EmailBot.save_attachment.
      eapply hoare_bind with (Q := fun _ s => session d0 0 0 s).
      { eapply hoare_bind; [apply session_apart, apart_write_file|]. intros ?.
        apply hoare_ret. auto. }
      intros [cv_filename filepath].
      eapply hoare_bind; [apply hoare_read, parse_cv_text_returns|]. intros cv_data.
      destruct existing_candidate as [candidate|].
      * eapply hoare_bind; [apply session_update, email_update_keeps_identity|]. intros ?.
        apply hoare_ret. intros s. apply session_le; lia.
      * eapply hoare_bind; [apply session_add_candidate|]. intros ?.
        eapply hoare_bind; [apply adding_flush|]. intros ?.
        eapply hoare_bind; [apply hoare_read; intros; eexists; reflexivity|]. intros i.
        apply hoare_ret. auto.
  - intros candidate.
    eapply hoare_bind; [apply session_commit_ok; lia|]. intros ?.
    apply hoare_ret. auto.
Qed.

Lemma email_send_then (d0 : Store) (n m : nat) (to_email subject : string) (b : body)
      (k : M unit) (Q : unit -> State -> Prop) (R : State -> Prop) :
  hoare (session d0 n m) k Q R ->
  hoare (session d0 n m) (bind (EmailBot.send_reply to_email subject b) (fun _ => k)) Q R.
Proof.
  intros Hk. eapply hoare_bind; [apply session_apart, apart_push_reply|]. intros ?. exact Hk.
Qed.

Lemma email_closed_session (d0 : Store) (sender_email subject : string) (n m : nat) (s : State) :
  (m <= 1)%nat -> session d0 n m s -> email_closed d0 sender_email subject s.
Proof.
  intros Hm (Hd & Hp & Hw & Hdb & Hcw & Hcdb).
  split; [apply Hdb|]. split; [eapply candidates_kept_le; eassumption|].
  left. apply Hdb.
Qed.

(** The handler between the opening of the application context and its
    teardown; an entry is stored under the address taken from the
    sender. *)
Lemma email_handler_footprint (E : Env) (msg : EmailBot.message) (sender_email subject : string)
      (st : State) :
  match EmailBot.process_email E msg sender_email subject st with
  | (Returns _, s) =>
      email_closed (db st) (snd (EmailBot.extract_email_info sender_email)) subject s
  | (Raises _, s) =>
      same_ledgers (db st) (db s) /\ candidates_kept 1 (db st) (db s)
  end.
Proof.
  set (d0 := db st).
  unfold EmailBot.process_email, app_context.
  destruct (EmailBot.extract_email_info sender_email) as [sender_name clean] eqn:Hinfo.
  cbn [snd].
  assert (Hlog : forall candidate_id status error_message,
             hoare (session d0 0 0)
               (bind (session_add (EmailBot.log_entry E clean subject candidate_id
                                     status error_message))
                     (fun _ => session_commit))
               (fun _ s => email_closed d0 clean subject s) (failed d0)).
  { intros. eapply hoare_weaken;
      [apply email_log_step | intros s; apply session_le; lia
       | intros ? s H; exact H | intros s H; exact H]. }
  pose proof (fun b k => email_send_then d0 0 0 clean subject b k
                (fun _ s => email_closed d0 clean subject s) (failed d0)) as Hsend.
  assert (Hskip : forall s, session d0 0 0 s -> email_closed d0 clean subject s).
  { intros s. apply email_closed_session. lia. }
  match goal with
  | |- context [try_catch ?b ?h] =>
      assert (Hrun : hoare (session d0 0 0) (try_catch b h)
                       (fun _ s => email_closed d0 clean subject s) (failed d0))
  end.
  { eapply hoare_try_catch; [|intros; apply failed_log_step].
    eapply hoare_bind; [apply hoare_read; intros; eexists; reflexivity|]. intros existing.
    destruct existing; [apply hoare_ret, Hskip|].
    eapply hoare_bind; [apply hoare_read; intros; eexists; reflexivity|].
    intros existing_candidate.
    destruct (filter_eu_only E && negb (EmailBot.is_eu_phone_number (EmailBot.email_body msg)));
      [apply Hsend, Hlog|].
    assert (Hupsert :
      hoare (session d0 0 0)
        (bind (EmailBot.upsert_candidate E sender_name clean subject
                 (EmailBot.extract_cv_attachments E msg) existing_candidate)
              (EmailBot.acknowledge E clean subject))
        (fun _ s => email_closed d0 clean subject s) (failed d0)).
    { eapply hoare_bind; [apply email_upsert_footprint|]. intros candidate.
      unfold EmailBot.acknowledge.
      eapply hoare_bind with (Q := fun _ s => session d0 1 1 s);
        [|intros; apply email_log_step].
      destruct candidate; [apply session_apart, apart_push_reply | apply hoare_ret; auto]. }
    destruct (EmailBot.extract_cv_attachments E msg) as [|attachment rest];
      destruct existing_candidate as [candidate|];
      [exact Hupsert | apply Hsend, Hlog | exact Hupsert | exact Hupsert]. }
  pose proof (Hrun (fresh_session st) (session_start st)) as H.
  destruct (try_catch _ _ (fresh_session st)) as [[[]|e] s]; cbn in H |- *.
  - exact H.
  - destruct H as (_ & Hl & Hc). exact (conj Hl Hc).
Qed.

(** X8.  One run of the WhatsApp handler, whatever the message, the
    surroundings and the faults of the database: the email ledger is left
    as it is; no stored candidate is deleted or moved, none changes its id,
    name, email or another column of its identity, and at most one
    candidate is appended; and the ledger is unchanged or, in a run that
    returns, has gained exactly one entry, for this sender and this
    message.  A run that raises leaves no entry. *)
Theorem whatsapp_run_touches_one_message (E : Env) (message : WhatsAppBot.message_data)
        (st : State) :
  let r := WhatsAppBot.process_whatsapp_message E message st in
  email_logs (db (snd r)) = email_logs (db st)
  /\ candidates_kept 1 (db st) (db (snd r))
  /\ (whatsapp_logs (db (snd r)) = whatsapp_logs (db st)
      \/ fst r = Returns tt
         /\ exists l, whatsapp_logs (db (snd r)) = (whatsapp_logs (db st) ++ [l])%list
                      /\ WhatsAppLog.phone_number l = WhatsAppBot.msg_from message
                      /\ WhatsAppLog.message_id l = WhatsAppBot.msg_id message).
Proof.
  intros r. pose proof (whatsapp_handler_footprint E message st) as H. fold r in H.
  destruct r as [[[]|e] s]; cbn [fst snd].
  - destruct H as (He & Hc & [Hl|Hl]); auto.
  - destruct H as ((Hl & He) & Hc). auto.
Qed.

(** X9.  One run of the email handler: the WhatsApp ledger is left as it
    is; the stored candidates keep their place and their identity, and at
    most one is appended; and the email ledger is unchanged or, in a run
    that returns, has gained exactly one entry, with the subject of the
    email, under the address taken from its sender or under the sender as
    given.  A run that raises leaves no entry. *)
Theorem email_run_touches_one_message (E : Env) (msg : EmailBot.message)
        (sender_email subject : string) (st : State) :
  let r := EmailBot.process_email E msg sender_email subject st in
  whatsapp_logs (db (snd r)) = whatsapp_logs (db st)
  /\ candidates_kept 1 (db st) (db (snd r))
  /\ (email_logs (db (snd r)) = email_logs (db st)
      \/ fst r = Returns tt
         /\ exists l, email_logs (db (snd r)) = (email_logs (db st) ++ [l])%list
                      /\ EmailLog.subject l = subject
                      /\ (EmailLog.sender_email l = snd (EmailBot.extract_email_info sender_email)
                          \/ EmailLog.sender_email l = sender_email)).
Proof.
  intros r. pose proof (email_handler_footprint E msg sender_email subject st) as H.
  fold r in H. destruct r as [[[]|e] s]; cbn [fst snd].
  - destruct H as (Hw & Hc & [Hl|(l & Hl & Hs & Hj)]); auto.
    split; [exact Hw|]. split; [exact Hc|]. right. split; [reflexivity|]. eauto 6.
  - destruct H as ((Hl & He) & Hc). auto.
Qed.

(** ** The replies of one run *)

Import Replies.

Lemma silent_bind {A B : Type} (m : M A) (f : A -> M B) :
  silent m -> (forall a, silent (f a)) -> silent (bind m f).
Proof.
  intros Hm Hf s. unfold bind. pose proof (Hm s) as H1.
  destruct (m s) as [[a|e] s1]; cbn in H1 |- *; [rewrite Hf|]; exact H1.
Qed.

Lemma silent_read {A : Type} (m : M A) : (forall s, snd (m s) = s) -> silent m.
Proof. intros Hm s. now rewrite Hm. Qed.

Lemma silent_session_add (r : row) : silent (session_add r).
Proof. intros s. reflexivity. Qed.

Lemma silent_session_flush : silent session_flush.
Proof.
  intros s. unfold session_flush. destruct (deactive s); [reflexivity|].
  destruct (insert_rows _ _); reflexivity.
Qed.

Lemma silent_session_commit : silent session_commit.
Proof.
  intros s. unfold session_commit, session_flush. destruct (deactive s) eqn:Hd; [reflexivity|].
  destruct (match outages s with [] => false | b :: _ => b end); [reflexivity|].
  cbn [set_outages deactive work pending]. rewrite Hd.
  destruct (insert_rows _ _); reflexivity.
Qed.

Lemma silent_log_step (r : row) : silent (bind (session_add r) (fun _ => session_commit)).
Proof. apply silent_bind; [apply silent_session_add|intros; apply silent_session_commit]. Qed.

Lemma silent_whatsapp_upsert (E : Env) (from_phone filename file_content : string) :
  silent (WhatsAppBot.upsert_candidate E from_phone filename file_content).
Proof.
  unfold WhatsAppBot.upsert_candidate.
  apply silent_bind; [intros s; reflexivity|]. intros ?.
  apply silent_bind; [apply silent_read; reflexivity|]. intros cv_data.
  apply silent_bind; [apply silent_read; intros s; destruct (truthy _); reflexivity|].
  intros existing_candidate. apply silent_bind.
  - destruct existing_candidate as [candidate|].
    + apply silent_bind; [intros s; reflexivity|]. intros ?. apply silent_read. reflexivity.
    + apply silent_bind; [apply silent_session_add|]. intros ?.
      apply silent_bind; [apply silent_session_flush|]. intros ?.
      apply silent_read. reflexivity.
  - intros candidate_id. apply silent_bind; [apply silent_session_commit|]. intros ?.
    apply silent_read. reflexivity.
Qed.

Lemma silent_email_upsert (E : Env) (sender_name sender_email_clean subject : string)
      (attachments : list (string * string)) (existing_candidate : option Candidate.t) :
  silent (EmailBot.upsert_candidate E sender_name sender_email_clean subject attachments
            existing_candidate).
Proof.
  unfold EmailBot.upsert_candidate. apply silent_bind.
  - destruct attachments as [|attachment rest]; [apply silent_read; reflexivity|].
    apply silent_bind; [intros s; reflexivity|]. intros [cv_filename filepath].
    apply silent_bind; [apply silent_read; reflexivity|]. intros cv_data.
    destruct existing_candidate as [candidate|].
    + apply silent_bind; [intros s; reflexivity|]. intros ?. apply silent_read. reflexivity.
    + apply silent_bind; [apply silent_session_add|]. intros ?.
      apply silent_bind; [apply silent_session_flush|]. intros ?.
      apply silent_bind; [apply silent_read; reflexivity|]. intros i.
      apply silent_read. reflexivity.
  - intros candidate. apply silent_bind; [apply silent_session_commit|]. intros ?.
    apply silent_read. reflexivity.
Qed.

Lemma sends_silent {A : Type} (allowed : reply -> Prop) (m : M A) :
  silent m -> sends_at_most_one allowed m.
Proof. intros Hm s. left. apply Hm. Qed.

Lemma sends_push (allowed : reply -> Prop) (r : reply) :
  allowed r -> sends_at_most_one allowed (modify (push_reply r)).
Proof. intros Hr s. right. exists r. split; [exact Hr|reflexivity]. Qed.

(** One reply, then silence. *)
Lemma sends_then_silent {A B : Type} (allowed : reply -> Prop) (m : M A) (f : A -> M B) :
  sends_at_most_one allowed m -> (forall a, silent (f a)) ->
  sends_at_most_one allowed (bind m f).
Proof.
  intros Hm Hf s. unfold bind. pose proof (Hm s) as H1.
  destruct (m s) as [[a|e] s1]; cbn in H1 |- *; [rewrite !Hf|]; exact H1.
Qed.

(** Silence, then one reply. *)
Lemma silent_then_sends {A B : Type} (allowed : reply -> Prop) (m : M A) (f : A -> M B) :
  silent m -> (forall a, sends_at_most_one allowed (f a)) ->
  sends_at_most_one allowed (bind m f).
Proof.
  intros Hm Hf s. unfold bind. pose proof (Hm s) as H1.
  destruct (m s) as [[a|e] s1]; cbn in H1 |- *.
  - rewrite <- H1. apply Hf.
  - left. exact H1.
Qed.

Lemma sends_try_catch {A : Type} (allowed : reply -> Prop) (m : M A) (h : exn -> M A) :
  sends_at_most_one allowed m -> (forall e, silent (h e)) ->
  sends_at_most_one allowed (try_catch m h).
Proof.
  intros Hm Hh s. unfold try_catch. pose proof (Hm s) as H1.
  destruct (m s) as [[a|e] s1]; cbn in H1 |- *; [|rewrite !Hh]; exact H1.
Qed.

Lemma sends_app_context {A : Type} (allowed : reply -> Prop) (m : M A) :
  sends_at_most_one allowed m -> sends_at_most_one allowed (app_context m).
Proof.
  intros Hm s. unfold app_context. pose proof (Hm (fresh_session s)) as H1.
  destruct (m (fresh_session s)) as [r s1]. exact H1.
Qed.

(** X10.  One run of the WhatsApp handler hands at most one text to the
    API, and that one is addressed to the sender of the message: no path
    through the handler replies twice, and a failure after the reply sends
    nothing more. *)
Theorem whatsapp_run_replies_at_most_once (E : Env) (message : WhatsAppBot.message_data) :
  sends_at_most_one (whatsapp_to (WhatsAppBot.msg_from message))
    (WhatsAppBot.process_whatsapp_message E message).
Proof.
  set (phone := WhatsAppBot.msg_from message).
  assert (Hsend : forall b, sends_at_most_one (whatsapp_to phone)
                              (WhatsAppBot.send_message phone b)).
  { intros b. apply sends_push. exists b. reflexivity. }
  assert (Hsend_log : forall b r,
             sends_at_most_one (whatsapp_to phone)
               (bind (WhatsAppBot.send_message phone b) (fun _ =>
                bind (session_add r) (fun _ => session_commit)))).
  { intros. apply sends_then_silent; [apply Hsend|intros; apply silent_log_step]. }
  unfold WhatsAppBot.process_whatsapp_message. fold phone.
  apply sends_app_context, sends_try_catch; [|intros; apply silent_log_step].
  apply silent_then_sends; [apply silent_read; reflexivity|]. intros existing.
  destruct existing; [apply sends_silent, silent_read; reflexivity|].
  destruct (filter_eu_only E && negb (WhatsAppBot.is_eu_phone_number phone));
    [apply Hsend_log|].
  destruct (String.eqb (WhatsAppBot.msg_type message) "document").
  - destruct (has_cv_extension _); [|apply Hsend].
    destruct (media E _) as [file_content|]; [|apply Hsend_log].
    destruct (negb (is_empty file_content)); [|apply Hsend_log].
    unfold WhatsAppBot.process_cv, WhatsAppBot.acknowledge.
    apply silent_then_sends; [apply silent_whatsapp_upsert|]. intros candidate_id.
    apply Hsend_log.
  - destruct (String.eqb (WhatsAppBot.msg_type message) "text");
      [|apply sends_silent, silent_read; reflexivity].
    apply sends_then_silent; [|intros; apply silent_log_step].
    destruct (WhatsAppBot.job_interest _);
      [apply Hsend | apply sends_silent, silent_read; reflexivity].
Qed.

(** X11.  One run of the email handler hands at most one reply to SMTP;
    it goes to the address taken from the sender, never to an address
    found in the CV, under the subject of the email with ["Re: "] before
    it. *)
Theorem email_run_replies_at_most_once (E : Env) (msg : EmailBot.message)
        (sender_email subject : string) :
  sends_at_most_one (email_to (snd (EmailBot.extract_email_info sender_email)) subject)
    (EmailBot.process_email E msg sender_email subject).
Proof.
  unfold EmailBot.process_email.
  destruct (EmailBot.extract_email_info sender_email) as [sender_name clean]. cbn [snd].
  assert (Hsend : forall b, sends_at_most_one (email_to clean subject)
                              (EmailBot.send_reply clean subject b)).
  { intros b. apply sends_push. exists b. reflexivity. }
  assert (Hsend_log : forall b r,
             sends_at_most_one (email_to clean subject)
               (bind (EmailBot.send_reply clean subject b) (fun _ =>
                bind (session_add r) (fun _ => session_commit)))).
  { intros. apply sends_then_silent; [apply Hsend|intros; apply silent_log_step]. }
  apply sends_app_context, sends_try_catch; [|intros; apply silent_log_step].
  apply silent_then_sends; [apply silent_read; reflexivity|]. intros existing.
  destruct existing; [apply sends_silent, silent_read; reflexivity|].
  apply silent_then_sends; [apply silent_read; reflexivity|]. intros existing_candidate.
  destruct (filter_eu_only E && negb (EmailBot.is_eu_phone_number (EmailBot.email_body msg)));
    [apply Hsend_log|].
  assert (Hupsert :
    sends_at_most_one (email_to clean subject)
      (bind (EmailBot.upsert_candidate E sender_name clean subject
               (EmailBot.extract_cv_attachments E msg) existing_candidate)
            (EmailBot.acknowledge E clean subject))).
  { apply silent_then_sends; [apply silent_email_upsert|]. intros candidate.
    unfold EmailBot.acknowledge.
    apply sends_then_silent; [|intros; apply silent_log_step].
    destruct candidate; [apply Hsend | apply sends_silent, silent_read; reflexivity]. }
  destruct (EmailBot.extract_cv_attachments E msg) as [|attachment rest];
    destruct existing_candidate as [candidate|];
    [exact Hupsert | apply Hsend_log | exact Hupsert | exact Hupsert].
Qed.

(** ** The webhook *)

Import Webhook.

Lemma for_each_app {A : Type} (body : A -> M unit) (l1 l2 : list A) (st : State) :
  for_each body (l1 ++ l2)%list st
  = bind (for_each body l1) (fun _ => for_each body l2) st.
Proof.
  revert st. induction l1 as [|x l1 IH]; intros st; cbn [for_each app].
  - reflexivity.
  - unfold bind. destruct (body x st) as [[[]|e] s]; [|reflexivity].
    rewrite IH. reflexivity.
Qed.

Lemma for_each_flat_map {A B : Type} (f : A -> list B) (body : B -> M unit) (l : list A)
      (st : State) :
  for_each (fun x => for_each body (f x)) l st = for_each body (flat_map f l) st.
Proof.
  revert st. induction l as [|x l IH]; intros st; cbn [for_each flat_map].
  - reflexivity.
  - rewrite for_each_app. unfold bind.
    destruct (for_each body (f x) st) as [[[]|e] s]; [apply IH|reflexivity].
Qed.

Lemma for_each_ext {A : Type} (body body' : A -> M unit) (l : list A) (st : State) :
  (forall x s, body x s = body' x s) -> for_each body l st = for_each body' l st.
Proof.
  intros Hb. revert st. induction l as [|x l IH]; intros st; cbn [for_each].
  - reflexivity.
  - unfold bind. rewrite Hb. destruct (body' x st) as [[[]|e] s]; [apply IH|reflexivity].
Qed.

(** The three loops hand the messages of the payload to the handler one
    after the other. *)
Lemma handle_webhook_delivered (E : Env) (d : data) (st : State) :
  handle_webhook E d st
  = try_catch (for_each (WhatsAppBot.process_whatsapp_message E) (delivered d))
              (fun _ => ret tt) st.
Proof.
  unfold handle_webhook, delivered, try_catch.
  rewrite <- for_each_flat_map.
  erewrite for_each_ext; [reflexivity|]. intros it s. cbn beta.
  rewrite <- for_each_flat_map. apply for_each_ext. intros c s'.
  destruct (is_messages c); reflexivity.
Qed.

(** X12.  The [try] of the webhook is around the three loops, not around
    one message.  So the call itself never raises, and when the handler
    raises for a message the messages after it in the payload are not
    handled at all: the call ends, as a success, in the state that message
    left. *)
Theorem webhook_drops_the_messages_after_a_failure
        (E : Env) (d : data) (before after : list WhatsAppBot.message_data)
        (m : WhatsAppBot.message_data) (st s1 s2 : State) (e : exn) :
  delivered d = (before ++ m :: after)%list ->
  for_each (WhatsAppBot.process_whatsapp_message E) before st = (Returns tt, s1) ->
  WhatsAppBot.process_whatsapp_message E m s1 = (Raises e, s2) ->
  handle_webhook E d st = (Returns tt, s2).
Proof.
  intros Hd Hbefore Hm. rewrite handle_webhook_delivered, Hd.
  unfold try_catch. rewrite for_each_app. unfold bind at 1. rewrite Hbefore.
  cbn [for_each]. unfold bind. rewrite Hm. reflexivity.
Qed.

(** The theorem at a CV followed by a question, with the database lost
    after the first commit: the question is never looked at. *)
Lemma webhook_drops_the_messages_after_a_failure_witness :
  handle_webhook (Scenario.wa_env 1000) Example.cv_then_question
    (Scenario.start Scenario.empty_store [false; true; true])
  = (Returns tt, snd Scenario.after_lost_ledger_commit).
Proof.
  apply (webhook_drops_the_messages_after_a_failure
           (Scenario.wa_env 1000) Example.cv_then_question []
           [Scenario.text_message "15550100" "wamid.2" "Any jobs?"]
           (Scenario.document_message "15550100" "wamid.1" "cv-1" "cv.txt")
           (Scenario.start Scenario.empty_store [false; true; true])
           (Scenario.start Scenario.empty_store [false; true; true])
           (snd Scenario.after_lost_ledger_commit) pending_rollback).
  - vm_compute. reflexivity.
  - reflexivity.
  - vm_compute. reflexivity.
Defined.

Lemma candidates_kept_trans (n m : nat) (a b c : Store) :
  candidates_kept n a b -> candidates_kept m b c -> candidates_kept (n + m) a c.
Proof.
  intros (new1 & H1 & Hlen1) (new2 & H2 & Hlen2). exists (new1 ++ new2)%list.
  rewrite H2, H1, <- app_assoc, length_app. split; [reflexivity|lia].
Qed.

Lemma entry_of_cons (m : WhatsAppBot.message_data) (ms : list WhatsAppBot.message_data)
      (l : WhatsAppLog.t) :
  entry_of ms l -> entry_of (m :: ms) l.
Proof. intros (m' & Hin & Hk). exists m'. split; [right; exact Hin|exact Hk]. Qed.

(** The messages of a list handled one after the other, up to the first
    for which the handler raises. *)
Lemma for_each_message_footprint (E : Env) (ms : list WhatsAppBot.message_data) :
  forall st,
    let s := snd (for_each (WhatsAppBot.process_whatsapp_message E) ms st) in
    email_logs (db s) = email_logs (db st)
    /\ candidates_kept (length ms) (db st) (db s)
    /\ exists new, whatsapp_logs (db s) = (whatsapp_logs (db st) ++ new)%list
                   /\ (length new <= length ms)%nat
                   /\ Forall (entry_of ms) new.
Proof.
  induction ms as [|m ms IH]; intros st; cbn [for_each length].
  - cbn. split; [reflexivity|]. split; [apply candidates_kept_refl|].
    exists []. rewrite app_nil_r. split; [reflexivity|]. split; [cbn; lia|constructor].
  - unfold bind. pose proof (whatsapp_handler_footprint E m st) as Hm.
    destruct (WhatsAppBot.process_whatsapp_message E m st) as [[[]|e] s1].
    + destruct Hm as (He1 & Hc1 & Hl1). destruct (IH s1) as (He & Hc & new & Hl & Hlen & Hnew).
      split; [congruence|].
      split; [exact (candidates_kept_trans 1 (length ms) _ _ _ Hc1 Hc)|].
      apply (List.Forall_impl (entry_of (m :: ms)) (entry_of_cons m ms)) in Hnew.
      destruct Hl1 as [Hl1|(l & Hl1 & Hphone & Hid)].
      * exists new. rewrite Hl, Hl1. split; [reflexivity|]. split; [lia|exact Hnew].
      * exists (l :: new). rewrite Hl, Hl1, <- app_assoc. split; [reflexivity|].
        split; [cbn; lia|]. constructor; [|exact Hnew].
        exists m. split; [left; reflexivity|]. split; assumption.
    + cbn [snd]. destruct Hm as ((Hl & He) & Hc).
      split; [exact He|]. split; [eapply candidates_kept_le; [|exact Hc]; lia|].
      exists []. rewrite app_nil_r. split; [exact Hl|]. split; [cbn; lia|constructor].
Qed.

(** X13.  What a webhook call may do to the tables, whatever the payload
    and the faults: the call returns; the email ledger is left as it is;
    the WhatsApp ledger gains at most one entry for each message of the
    payload that is under a change of field ['messages'], and each entry
    it gains carries the sender and the id of one of these messages; the
    stored candidates keep their place and identity, and at most one is
    appended for each such message. *)
Theorem webhook_touches_only_its_messages (E : Env) (d : data) (st : State) :
  let r := handle_webhook E d st in
  fst r = Returns tt
  /\ email_logs (db (snd r)) = email_logs (db st)
  /\ candidates_kept (length (delivered d)) (db st) (db (snd r))
  /\ exists new, whatsapp_logs (db (snd r)) = (whatsapp_logs (db st) ++ new)%list
                 /\ (length new <= length (delivered d))%nat
                 /\ Forall (entry_of (delivered d)) new.
Proof.
  intros r. pose proof (for_each_message_footprint E (delivered d) st) as H.
  assert (Hr : r = handle_webhook E d st) by reflexivity. clearbody r.
  rewrite handle_webhook_delivered in Hr. unfold try_catch in Hr.
  destruct (for_each _ (delivered d) st) as [[[]|e] s]; subst r; cbn [fst snd] in *;
    (split; [reflexivity|exact H]).
Qed.

(** ** Redelivery, again *)

(** X20.  [whatsapp_redelivery_is_a_no_op], that a WhatsApp message which
    has left a ledger entry is skipped from then on, at a CV delivered
    twice: the second delivery, at another time, changes nothing. *)
Lemma whatsapp_redelivery_is_a_no_op_witness :
  WhatsAppBot.process_whatsapp_message (Scenario.wa_env 2000)
    (Scenario.document_message "15550100" "wamid.1" "cv-1" "cv.txt")
    (snd Scenario.after_first_cv)
  = (Returns tt, snd Scenario.after_first_cv).
Proof.
  apply (whatsapp_redelivery_is_a_no_op (Scenario.wa_env 1000) (Scenario.wa_env 2000)
           (Scenario.document_message "15550100" "wamid.1" "cv-1" "cv.txt")
           (Scenario.start Scenario.empty_store [])).
  vm_compute. discriminate.
Defined.

Lemma find_app_last {A : Type} (p : A -> bool) (old : list A) (x : A) :
  p x = true -> exists y, find p (old ++ [x])%list = Some y.
Proof.
  intros Hx. induction old as [|o old IH]; cbn.
  - rewrite Hx. eauto.
  - destruct (p o); eauto.
Qed.

Lemma process_email_ends_fresh (E : Env) (msg : EmailBot.message) (sender_email subject : string)
      (st : State) :
  fresh_session (snd (EmailBot.process_email E msg sender_email subject st))
  = snd (EmailBot.process_email E msg sender_email subject st).
Proof.
  unfold EmailBot.process_email, app_context.
  destruct (try_catch _ _ (fresh_session st)) as [r st']. reflexivity.
Qed.

(** X14.  Redelivery of an email.  The ledger is searched under the
    sender as the header has it and written under the address taken from
    it.  When the two are the same text (a header that is a
    bare address) an email that left a ledger entry is skipped from then
    on: any later email with the same sender and subject, whatever it
    contains, sends nothing and changes nothing. *)
Theorem email_redelivery_from_a_bare_address_is_a_no_op
        (E E' : Env) (msg msg' : EmailBot.message) (sender_email subject : string) (st : State) :
  snd (EmailBot.extract_email_info sender_email) = sender_email ->
  let st1 := snd (EmailBot.process_email E msg sender_email subject st) in
  email_logs (db st1) <> email_logs (db st) ->
  EmailBot.process_email E' msg' sender_email subject st1 = (Returns tt, st1).
Proof.
  intros Hbare st1 Hchanged.
  pose proof (email_handler_footprint E msg sender_email subject st) as H.
  pose proof (process_email_ends_fresh E msg sender_email subject st) as Hfresh.
  fold st1 in Hfresh. subst st1.
  destruct (EmailBot.process_email E msg sender_email subject st) as [[[]|e] s1];
    cbn [snd] in *.
  - destruct H as (_ & _ & [Hsame|(l & Hl & Hsender & Hsubject)]); [contradiction|].
    rewrite Hbare in Hsender.
    destruct (find_app_last
                (fun l => String.eqb (EmailLog.sender_email l) sender_email
                          && String.eqb (EmailLog.subject l) subject)
                (email_logs (db st)) l) as (y & Hfind).
    { rewrite Hsender, Hsubject, !String.eqb_refl. reflexivity. }
    rewrite <- Hl in Hfind.
    rewrite (email_logged_message_is_skipped E' msg' sender_email subject s1 y Hfind).
    now rewrite Hfresh.
  - destruct H as ((_ & Hsame) & _). contradiction.
Qed.

(** The theorem at Jane's application sent from the bare address
    [jane@x.com] and delivered a second time. *)
Lemma email_redelivery_from_a_bare_address_is_a_no_op_witness :
  EmailBot.process_email (Scenario.env Scenario.ai_jane None 2000 (fun _ => None))
    Scenario.application "jane@x.com" "Application" (snd Example.after_bare_email)
  = (Returns tt, snd Example.after_bare_email).
Proof.
  apply (email_redelivery_from_a_bare_address_is_a_no_op
           (Scenario.env Scenario.ai_jane None 1000 (fun _ => None))
           (Scenario.env Scenario.ai_jane None 2000 (fun _ => None))
           Scenario.application Scenario.application "jane@x.com" "Application"
           (Scenario.start Scenario.empty_store [])).
  - vm_compute. reflexivity.
  - vm_compute. discriminate.
Defined.

(** ** The paths through the WhatsApp handler *)

Lemma whatsapp_find_app_last (phone message_id : string) (old : list WhatsAppLog.t)
      (l : WhatsAppLog.t) :
  WhatsAppLog.phone_number l = phone -> WhatsAppLog.message_id l = message_id ->
  exists y, find (fun l => String.eqb (WhatsAppLog.phone_number l) phone
                           && String.eqb (WhatsAppLog.message_id l) message_id)
                 (old ++ [l])%list = Some y.
Proof.
  intros Hp Hm. apply find_app_last. rewrite Hp, Hm, !String.eqb_refl. reflexivity.
Qed.

(** X15.  A document with a CV extension that cannot be downloaded, or
    comes down empty: the sender is told to send it again, no file is
    written and no candidate is touched; when the database takes the commit
    the message is logged as ['download_failed'], and from then on the same
    message is skipped: only a document sent anew, under a new id, is
    fetched again. *)
Theorem failed_download_is_logged_and_final (E : Env) (message : WhatsAppBot.message_data)
        (st : State) :
  find (fun l => String.eqb (WhatsAppLog.phone_number l) (WhatsAppBot.msg_from message)
                 && String.eqb (WhatsAppLog.message_id l) (WhatsAppBot.msg_id message))
       (whatsapp_logs (db st)) = None ->
  filter_eu_only E && negb (WhatsAppBot.is_eu_phone_number (WhatsAppBot.msg_from message))
  = false ->
  WhatsAppBot.msg_type message = "document" ->
  has_cv_extension (WhatsAppBot.filename message) = true ->
  match media E (WhatsAppBot.media_id message) with
  | Some file_content => is_empty file_content
  | None => true
  end = true ->
  let r := WhatsAppBot.process_whatsapp_message E message st in
  outbox (snd r)
  = (outbox st ++ [WhatsAppMessage (WhatsAppBot.msg_from message) DownloadFailed])%list
  /\ candidates (db (snd r)) = candidates (db st)
  /\ fs (snd r) = fs st
  /\ (hd false (outages st) = false ->
        fst r = Returns tt
        /\ whatsapp_logs (db (snd r))
           = (whatsapp_logs (db st)
              ++ [WhatsAppLog.Make (next_id (map WhatsAppLog.id (whatsapp_logs (db st))))
                    (WhatsAppBot.msg_from message) (WhatsAppBot.msg_id message)
                    (utcnow E) None "download_failed" None])%list
        /\ forall E', WhatsAppBot.process_whatsapp_message E' message (snd r)
                      = (Returns tt, snd r)).
Proof.
  intros Hlog Hfilter Htype Hext Hmedia r.
  assert (Hr : r = app_context
                     (try_catch
                        (bind (WhatsAppBot.send_message (WhatsAppBot.msg_from message) DownloadFailed)
                           (fun _ =>
                            bind (session_add (WhatsAppBot.log_entry E (WhatsAppBot.msg_from message)
                                                 (WhatsAppBot.msg_id message) None
                                                 "download_failed" None))
                                 (fun _ => session_commit)))
                        (fun e =>
                           bind (session_add (WhatsAppBot.log_entry E
                                                (WhatsAppBot.msg_from message)
                                                (WhatsAppBot.msg_id message) None "error"
                                                (Some (exn_str e))))
                                (fun _ => session_commit))) st).
  { subst r. unfold WhatsAppBot.process_whatsapp_message, WhatsAppBot.existing_log.
    unfold app_context, try_catch, bind at 1, gets. cbn [fresh_session work db].
    rewrite Hlog, Hfilter, Htype, Hext. cbn [String.eqb Ascii.eqb Bool.eqb].
    destruct (media E (WhatsAppBot.media_id message)) as [file_content|];
      [rewrite Hmedia|]; reflexivity. }
  clearbody r. subst r.
  unfold WhatsAppBot.send_message, WhatsAppBot.log_entry. run_handler. run_session.
  destruct (outages st) as [|[] rest]; run_session; cbn [fst snd db outbox fs candidates];
    (split; [reflexivity|]); (split; [reflexivity|]); (split; [reflexivity|]); intros Hup;
    try discriminate; (split; [reflexivity|]); (split; [reflexivity|]); intros E';
    match goal with
    | |- WhatsAppBot.process_whatsapp_message _ _ ?s = _ =>
        destruct (whatsapp_find_app_last (WhatsAppBot.msg_from message)
                    (WhatsAppBot.msg_id message) (whatsapp_logs (db st))
                    (WhatsAppLog.Make (next_id (map WhatsAppLog.id (whatsapp_logs (db st))))
                       (WhatsAppBot.msg_from message) (WhatsAppBot.msg_id message)
                       (utcnow E) None "download_failed" None) eq_refl eq_refl) as (y & Hy);
        exact (whatsapp_logged_message_is_skipped E' message s y Hy)
    end.
Qed.

(** The theorem at a CV whose media id the API does not know. *)
Lemma failed_download_is_logged_and_final_witness :
  fst Example.after_failed_download = Returns tt
  /\ outbox (snd Example.after_failed_download) = [WhatsAppMessage "15550100" DownloadFailed]
  /\ map WhatsAppLog.status (whatsapp_logs (db (snd Example.after_failed_download)))
     = ["download_failed"].
Proof.
  destruct (failed_download_is_logged_and_final (Scenario.wa_env 1000)
              (Scenario.document_message "15550100" "wamid.3" "gone" "cv.pdf")
              (Scenario.start Scenario.empty_store []))
    as (Ho & _ & _ & Hl); [reflexivity|reflexivity|reflexivity|reflexivity|reflexivity|].
  destruct (Hl eq_refl) as (Hr & Hlogs & _).
  unfold Example.after_failed_download. rewrite Ho, Hr, Hlogs. repeat split; reflexivity.
Defined.

(** X16.  A text message that is not in the ledger and not filtered: the
    prompt for a CV goes out exactly when the text, in lower case, contains
    [cv], [resume] or [job]; no candidate is touched; and when the database
    takes the commit the message is logged as ['text_received'], with or
    without the prompt. *)
Theorem text_message_is_prompted_and_logged (E : Env) (message : WhatsAppBot.message_data)
        (st : State) :
  find (fun l => String.eqb (WhatsAppLog.phone_number l) (WhatsAppBot.msg_from message)
                 && String.eqb (WhatsAppLog.message_id l) (WhatsAppBot.msg_id message))
       (whatsapp_logs (db st)) = None ->
  filter_eu_only E && negb (WhatsAppBot.is_eu_phone_number (WhatsAppBot.msg_from message))
  = false ->
  WhatsAppBot.msg_type message = "text" ->
  let text := match WhatsAppBot.msg_text_body message with Some b => b | None => "" end in
  let r := WhatsAppBot.process_whatsapp_message E message st in
  outbox (snd r)
  = (outbox st ++ if WhatsAppBot.job_interest text
                  then [WhatsAppMessage (WhatsAppBot.msg_from message) Welcome]
                  else [])%list
  /\ (WhatsAppBot.job_interest text = true
      <-> exists word a b, In word ["cv"; "resume"; "job"] /\ lower text = a ++ word ++ b)
  /\ candidates (db (snd r)) = candidates (db st)
  /\ (hd false (outages st) = false ->
        fst r = Returns tt
        /\ whatsapp_logs (db (snd r))
           = (whatsapp_logs (db st)
              ++ [WhatsAppLog.Make (next_id (map WhatsAppLog.id (whatsapp_logs (db st))))
                    (WhatsAppBot.msg_from message) (WhatsAppBot.msg_id message)
                    (utcnow E) None "text_received" None])%list).
Proof.
  intros Hlog Hfilter Htype text r.
  assert (Hwords : WhatsAppBot.job_interest text = true
                   <-> exists word a b, In word ["cv"; "resume"; "job"]
                                        /\ lower text = a ++ word ++ b).
  { unfold WhatsAppBot.job_interest. rewrite !orb_true_iff, !contains_spec. split.
    - intros [[(a & b & H)|(a & b & H)]|(a & b & H)]; eexists _, a, b;
        (split; [|exact H]); cbn; auto.
    - intros (word & a & b & Hin & H). cbn in Hin.
      destruct Hin as [<-|[<-|[<-|[]]]]; eauto. }
  subst r. unfold WhatsAppBot.process_whatsapp_message, WhatsAppBot.existing_log.
  run_handler. rewrite Hlog, Hfilter, Htype. cbn [String.eqb Ascii.eqb Bool.eqb].
  fold text. clearbody text.
  unfold WhatsAppBot.send_message, WhatsAppBot.log_entry.
  destruct (WhatsAppBot.job_interest text); run_session;
    destruct (outages st) as [|[] rest]; run_session; cbn [fst snd db outbox candidates];
    rewrite ?app_nil_r;
    (split; [reflexivity|]); (split; [exact Hwords|]); (split; [reflexivity|]); intros Hup;
    try discriminate; split; reflexivity.
Qed.

(** The theorem at a question about jobs. *)
Lemma text_message_is_prompted_and_logged_witness :
  fst Example.after_question = Returns tt
  /\ outbox (snd Example.after_question) = [WhatsAppMessage "15550100" Welcome]
  /\ map WhatsAppLog.status (whatsapp_logs (db (snd Example.after_question)))
     = ["text_received"].
Proof.
  destruct (text_message_is_prompted_and_logged (Scenario.wa_env 1000)
              (Scenario.text_message "15550100" "wamid.2" "Any jobs?")
              (Scenario.start Scenario.empty_store []))
    as (Ho & _ & _ & Hl); [reflexivity|reflexivity|reflexivity|].
  destruct (Hl eq_refl) as (Hr & Hlogs).
  unfold Example.after_question. rewrite Ho, Hr, Hlogs. repeat split; reflexivity.
Defined.

(** ** The paths through the email handler *)

(** X17.  An email without a CV attachment, not in the ledger and not
    filtered, while the database is reachable.  From an address that no
    candidate has, it is answered with the request for a CV and logged as
    ['cv_requested'].  From the address of a stored candidate it is
    answered with the confirmation of an application and logged as a
    ['success'] for that candidate, although nothing was attached and the
    candidate is left as it was. *)
Theorem email_without_cv_is_answered_by_sender :
  (forall (E : Env) (msg : EmailBot.message) (sender_email subject sender_name clean : string)
          (st : State),
      find (fun l => String.eqb (EmailLog.sender_email l) sender_email
                     && String.eqb (EmailLog.subject l) subject)
           (email_logs (db st)) = None ->
      EmailBot.extract_email_info sender_email = (sender_name, clean) ->
      filter_eu_only E && negb (EmailBot.is_eu_phone_number (EmailBot.email_body msg)) = false ->
      EmailBot.extract_cv_attachments E msg = [] ->
      find (fun c => same_text (Candidate.email c) (PStr clean)) (candidates (db st)) = None ->
      hd false (outages st) = false ->
      let r := EmailBot.process_email E msg sender_email subject st in
      fst r = Returns tt
      /\ outbox (snd r) = (outbox st ++ [EmailReply clean ("Re: " ++ subject) CvRequest])%list
      /\ candidates (db (snd r)) = candidates (db st)
      /\ email_logs (db (snd r))
         = (email_logs (db st)
            ++ [EmailLog.Make (next_id (map EmailLog.id (email_logs (db st))))
                  clean subject (utcnow E) None "cv_requested" None])%list)
  /\
  (forall (E : Env) (msg : EmailBot.message) (sender_email subject sender_name clean : string)
          (st : State) (candidate : Candidate.t),
      find (fun l => String.eqb (EmailLog.sender_email l) sender_email
                     && String.eqb (EmailLog.subject l) subject)
           (email_logs (db st)) = None ->
      EmailBot.extract_email_info sender_email = (sender_name, clean) ->
      filter_eu_only E && negb (EmailBot.is_eu_phone_number (EmailBot.email_body msg)) = false ->
      EmailBot.extract_cv_attachments E msg = [] ->
      find (fun c => same_text (Candidate.email c) (PStr clean)) (candidates (db st))
      = Some candidate ->
      hd false (outages st) = false ->
      hd false (tail (outages st)) = false ->
      let r := EmailBot.process_email E msg sender_email subject st in
      fst r = Returns tt
      /\ outbox (snd r) = (outbox st ++ [EmailReply clean ("Re: " ++ subject) Confirmation])%list
      /\ candidates (db (snd r)) = candidates (db st)
      /\ email_logs (db (snd r))
         = (email_logs (db st)
            ++ [EmailLog.Make (next_id (map EmailLog.id (email_logs (db st))))
                  clean subject (utcnow E) (Some (Candidate.id candidate)) "success" None])%list).
Proof.
  split.
  - intros E msg sender_email subject sender_name clean st Hlog Hinfo Hfilter Hatt Hnone Hup r.
    subst r. unfold EmailBot.process_email, EmailBot.existing_log.
    run_handler. rewrite Hlog, Hinfo.
    unfold candidate_by_email. run_handler. rewrite Hnone, Hfilter, Hatt.
    unfold EmailBot.send_reply, EmailBot.log_entry. run_session.
    destruct (outages st) as [|[] rest]; try discriminate; run_session; cbn;
      repeat split; reflexivity.
  - intros E msg sender_email subject sender_name clean st candidate
           Hlog Hinfo Hfilter Hatt Hsome Hup1 Hup2 r.
    subst r. unfold EmailBot.process_email, EmailBot.existing_log.
    run_handler. rewrite Hlog, Hinfo.
    unfold candidate_by_email. run_handler. rewrite Hsome, Hfilter, Hatt.
    unfold EmailBot.upsert_candidate, EmailBot.acknowledge, EmailBot.send_reply,
      EmailBot.log_entry.
    run_handler. cbn [option_map]. run_session.
    destruct (outages st) as [|[] [|[] rest]]; try discriminate; run_session; cbn;
      repeat split; reflexivity.
Qed.

(** The theorem at an email without attachment from an address nobody
    has, and at the same email once Jane is stored. *)
Lemma email_without_cv_is_answered_by_sender_witness :
  (outbox (snd Example.after_note_from_stranger)
   = [EmailReply "jane@x.com" "Re: Hello" CvRequest]
   /\ map EmailLog.status (email_logs (db (snd Example.after_note_from_stranger)))
      = ["cv_requested"])
  /\
  (outbox (snd Example.after_note_from_jane)
   = [EmailReply "jane@x.com" "Re: Hello" Confirmation]
   /\ map (fun l => (EmailLog.status l, EmailLog.candidate_id l))
          (email_logs (db (snd Example.after_note_from_jane)))
      = [("success", Some 1%Z)]
   /\ candidates (db (snd Example.after_note_from_jane)) = [Scenario.jane]).
Proof.
  destruct email_without_cv_is_answered_by_sender as [Hstranger Hknown].
  split.
  - destruct (Hstranger (Scenario.env Scenario.ai_jane None 1000 (fun _ => None))
                Scenario.plain_email Scenario.jane_from "Hello" "Jane Doe" "jane@x.com"
                (Scenario.start Scenario.empty_store []))
      as (_ & Ho & _ & Hl); try (vm_compute; reflexivity).
    unfold Example.after_note_from_stranger. rewrite Ho, Hl. split; reflexivity.
  - destruct (Hknown (Scenario.env Scenario.ai_jane None 1000 (fun _ => None))
                Scenario.plain_email Scenario.jane_from "Hello" "Jane Doe" "jane@x.com"
                (Scenario.start (MkStore [Scenario.jane] [] []) []) Scenario.jane)
      as (_ & Ho & Hc & Hl); try (vm_compute; reflexivity).
    unfold Example.after_note_from_jane. rewrite Ho, Hc, Hl. repeat split; reflexivity.
Defined.

(** ** A CV from a sender who is not a candidate yet *)







(** ** Two more paths, at an example *)

(** X21.  [document_without_cv_extension], that a document without a CV
    extension gets the reply and leaves the database and the ledger as they
    were, at the picture of [Scenario.after_picture]. *)
Lemma document_without_cv_extension_witness :
  Scenario.after_picture
  = (Returns tt,
     fresh_session (push_reply (WhatsAppMessage "15550100" NotACv)
                      (Scenario.start Scenario.empty_store []))).
Proof.
  apply (document_without_cv_extension (Scenario.wa_env 1000)
           (Scenario.document_message "15550100" "wamid.9" "pic" "photo.png")
           (Scenario.start Scenario.empty_store [])); reflexivity.
Defined.


(** ** A change of the candidates and its confirmation *)

Import Acknowledged.

Lemma insert_rows_keep_candidates (rows : list row) :
  forall w w',
    no_candidate_rows rows = true -> insert_rows w rows = Returns w' ->
    candidates w' = candidates w.
Proof.
  induction rows as [|r rows IH]; intros w w' Hrows; cbn [insert_rows].
  - intros [= <-]. reflexivity.
  - cbn in Hrows. apply andb_prop in Hrows as [Hr Hrows].
    destruct r as [c|l|l]; try discriminate; cbn [insert_row obind]; intros Hrest;
      rewrite (IH _ _ Hrows Hrest); reflexivity.
Qed.

Section Quiet.

Variable c0 : list Candidate.t.

Lemma quiet_add_log (r : row) : is_candidate_row r = false -> preserved (quiet c0) (session_add r).
Proof.
  intros Hr s (Hdb & Hwork & Hp). split; [exact Hdb|]. split; [exact Hwork|].
  cbn. unfold no_candidate_rows in *. rewrite forallb_app, Hp. cbn. now rewrite Hr.
Qed.

Lemma quiet_fail (s : State) : candidates (db s) = c0 -> quiet c0 (fail_transaction s).
Proof. intros Hdb. split; [exact Hdb|]. split; [exact Hdb|reflexivity]. Qed.

Lemma quiet_commit : preserved (quiet c0) session_commit.
Proof.
  intros s (Hdb & Hwork & Hp). unfold session_commit, session_flush.
  destruct (deactive s) eqn:Hd; [split; [|split]; assumption|].
  destruct (match outages s with [] => false | b :: _ => b end); [apply quiet_fail, Hdb|].
  cbn [set_outages deactive work pending]. rewrite Hd.
  destruct (insert_rows (work s) (pending s)) as [w|e] eqn:Hins; [|apply quiet_fail, Hdb].
  apply insert_rows_keep_candidates in Hins; [|exact Hp].
  split; [|split]; cbn; [rewrite Hins; exact Hwork | rewrite Hins; exact Hwork | reflexivity].
Qed.

Lemma quiet_push_reply (r : reply) : preserved (quiet c0) (modify (push_reply r)).
Proof. intros s H. exact H. Qed.

Lemma quiet_log_step (r : row) :
  is_candidate_row r = false ->
  preserved (quiet c0) (bind (session_add r) (fun _ => session_commit)).
Proof. intros Hr. apply preserved_bind; [apply quiet_add_log, Hr|intros; apply quiet_commit]. Qed.

Lemma quiet_send_log_step (reply : reply) (r : row) :
  is_candidate_row r = false ->
  preserved (quiet c0)
    (bind (modify (push_reply reply)) (fun _ => bind (session_add r) (fun _ => session_commit))).
Proof.
  intros Hr. apply preserved_bind; [apply quiet_push_reply|intros; apply quiet_log_step, Hr].
Qed.

Variable o0 : list reply.

Lemma unsettled_apart (f : State -> State) (R : State -> Prop) :
  (forall s, db (f s) = db s /\ deactive (f s) = deactive s /\ outbox (f s) = outbox s) ->
  hoare (unsettled c0 o0) (modify f) (fun _ s => unsettled c0 o0 s) R.
Proof.
  intros Hf s (Hd & Hdb & Ho). cbn. destruct (Hf s) as (H1 & H2 & H3).
  unfold unsettled. rewrite H1, H2, H3. auto.
Qed.

Lemma unsettled_flush :
  hoare (unsettled c0 o0) session_flush (fun _ s => unsettled c0 o0 s) (quiet c0).
Proof.
  intros s (Hd & Hdb & Ho). unfold session_flush. rewrite Hd.
  destruct (insert_rows (work s) (pending s)) as [w|e]; [|apply quiet_fail, Hdb].
  split; [exact Hd|]. split; assumption.
Qed.

Lemma unsettled_commit :
  hoare (unsettled c0 o0) session_commit (fun _ s => outbox s = o0) (quiet c0).
Proof.
  intros s (Hd & Hdb & Ho). unfold session_commit, session_flush. rewrite Hd.
  destruct (match outages s with [] => false | b :: _ => b end); [apply quiet_fail, Hdb|].
  cbn [set_outages deactive work pending]. rewrite Hd.
  destruct (insert_rows (work s) (pending s)) as [w|e]; [exact Ho|apply quiet_fail, Hdb].
Qed.

Lemma unsettled_start (st : State) :
  candidates (db st) = c0 -> outbox st = o0 -> unsettled c0 o0 (fresh_session st).
Proof. intros Hdb Ho. split; [reflexivity|]. split; assumption. Qed.

(** Once the confirmation is out, the entry and its commit send nothing
    more. *)
Lemma sent_log_step (reply : reply) (r : row) :
  hoare (fun s => outbox s = o0)
        (bind (modify (push_reply reply)) (fun _ => bind (session_add r) (fun _ => session_commit)))
        (fun _ s => sent o0 reply s) (sent o0 reply).
Proof.
  intros s Ho.
  pose proof (silent_log_step r (push_reply reply s)) as Hsilent.
  unfold bind at 1. cbn [modify].
  destruct (bind (session_add r) (fun _ => session_commit) (push_reply reply s)) as [[[]|e] s1];
    cbn in Hsilent; unfold sent; rewrite Hsilent, Ho; reflexivity.
Qed.

Lemma whatsapp_upsert_unsettled (E : Env) (from_phone filename file_content : string) :
  hoare (unsettled c0 o0) (WhatsAppBot.upsert_candidate E from_phone filename file_content)
        (fun _ s => outbox s = o0) (quiet c0).
Proof.
  unfold WhatsAppBot.upsert_candidate.
  eapply hoare_bind; [apply unsettled_apart; intros s; repeat split|]. intros ?.
  eapply hoare_bind; [apply hoare_read, parse_cv_text_returns|]. intros cv_data.
  eapply hoare_bind.
  { apply hoare_read. intros s. destruct (truthy _); eexists; reflexivity. }
  intros existing_candidate.
  eapply hoare_bind with (Q := fun _ s => unsettled c0 o0 s).
  - destruct existing_candidate as [candidate|].
    + eapply hoare_bind; [apply unsettled_apart; intros s; repeat split|]. intros ?.
      apply hoare_ret. auto.
    + eapply hoare_bind; [apply unsettled_apart; intros s; repeat split|]. intros ?.
      eapply hoare_bind; [apply unsettled_flush|]. intros ?.
      apply hoare_read. intros s. eexists. reflexivity.
  - intros candidate_id.
    eapply hoare_bind; [apply unsettled_commit|]. intros ?.
    apply hoare_ret. auto.
Qed.

Lemma email_upsert_unsettled (E : Env) (sender_name sender_email_clean subject : string)
      (attachments : list (string * string)) (existing_candidate : option Candidate.t) :
  hoare (unsettled c0 o0)
        (EmailBot.upsert_candidate E sender_name sender_email_clean subject attachments
           existing_candidate)
        (fun candidate s =>
           outbox s = o0
           /\ (candidate = None -> attachments = [] /\ existing_candidate = None))
        (quiet c0).
Proof.
  unfold EmailBot.upsert_candidate.
  eapply hoare_bind
    with (Q := fun candidate s =>
                 unsettled c0 o0 s
                 /\ (candidate = None -> attachments = [] /\ existing_candidate = None)).
  - destruct attachments as [|attachment rest].
    + apply hoare_ret. intros s Hs. split; [exact Hs|].
      destruct existing_candidate; [discriminate|auto].
    + unfold EmailBot.save_attachment.
      eapply hoare_bind with (Q := fun _ s => unsettled c0 o0 s).
      { eapply hoare_bind; [apply unsettled_apart; intros s; repeat split|]. intros ?.
        apply hoare_ret. auto. }
      intros [cv_filename filepath].
      eapply hoare_bind; [apply hoare_read, parse_cv_text_returns|]. intros cv_data.
      destruct existing_candidate as [candidate|].
      * eapply hoare_bind; [apply unsettled_apart; intros s; repeat split|]. intros ?.
        apply hoare_ret. intros s Hs. split; [exact Hs|discriminate].
      * eapply hoare_bind; [apply unsettled_apart; intros s; repeat split|]. intros ?.
        eapply hoare_bind; [apply unsettled_flush|]. intros ?.
        eapply hoare_bind; [apply hoare_read; intros; eexists; reflexivity|]. intros i.
        apply hoare_ret. intros s Hs. split; [exact Hs|discriminate].
  - intros candidate.
    eapply hoare_bind with (Q := fun _ s => outbox s = o0
                                  /\ (candidate = None ->
                                      attachments = [] /\ existing_candidate = None)).
    + intros s [Hs Hc]. pose proof (unsettled_commit s Hs) as H.
      destruct (session_commit s) as [[[]|e] s1]; auto.
    + intros ?. apply hoare_ret. auto.
Qed.

End Quiet.

Lemma preserved_hoare {A : Type} (I : State -> Prop) (m : M A) :
  preserved I m -> hoare I m (fun _ s => I s) I.
Proof. intros Hm s HI. pose proof (Hm s HI) as H. destruct (m s) as [[a|e] s1]; exact H. Qed.

(** X23.  No candidate is stored or changed without the confirmation.
    Whatever the message and the faults of the database, after one run of
    the WhatsApp handler either the stored candidates are exactly those of
    before, or the one text the run has handed to the API is the
    confirmation, to the sender.  (The text can be sent without a change
    being stored; the converse is what holds.) *)
Theorem whatsapp_change_is_confirmed (E : Env) (message : WhatsAppBot.message_data) (st : State) :
  let r := WhatsAppBot.process_whatsapp_message E message st in
  candidates (db (snd r)) = candidates (db st)
  \/ outbox (snd r)
     = (outbox st ++ [WhatsAppMessage (WhatsAppBot.msg_from message) Confirmation])%list.
Proof.
  set (phone := WhatsAppBot.msg_from message). set (message_id := WhatsAppBot.msg_id message).
  set (c0 := candidates (db st)). set (o0 := outbox st).
  set (settled := fun s => quiet c0 s \/ sent o0 (WhatsAppMessage phone Confirmation) s).
  assert (Hquiet : forall (m : M unit), preserved (quiet c0) m ->
                     hoare (fun s => unsettled c0 o0 s /\ quiet c0 s) m (fun _ s => settled s)
                           settled).
  { intros m Hm. eapply hoare_weaken; [apply preserved_hoare, Hm| | |]; unfold settled.
    - intros s [_ H]; exact H.
    - intros ? s H; left; exact H.
    - intros s H; left; exact H. }
  intros r. subst r.
  unfold WhatsAppBot.process_whatsapp_message, app_context. fold phone. fold message_id.
  match goal with
  | |- context [try_catch ?b ?h] =>
      assert (Hrun : hoare (fun s => unsettled c0 o0 s /\ quiet c0 s) (try_catch b h)
                       (fun _ s => settled s) settled)
  end.
  { eapply hoare_try_catch with (R := settled).
    2:{ intros e s [Hq|Hs].
        - pose proof (quiet_log_step c0 (WhatsAppBot.log_entry E phone message_id None "error"
                                           (Some (exn_str e))) eq_refl s Hq) as H.
          destruct (bind _ _ s) as [[[]|e'] s1]; left; exact H.
        - pose proof (silent_log_step (WhatsAppBot.log_entry E phone message_id None "error"
                                         (Some (exn_str e))) s) as H.
          destruct (bind _ _ s) as [[[]|e'] s1]; right; unfold sent in *;
            cbn in H; rewrite H; exact Hs. }
    eapply hoare_bind; [apply hoare_read; intros; eexists; reflexivity|]. intros existing.
    destruct existing; [apply Hquiet, preserved_read; reflexivity|].
    destruct (filter_eu_only E && negb (WhatsAppBot.is_eu_phone_number phone));
      [apply Hquiet, quiet_send_log_step; reflexivity|].
    destruct (String.eqb (WhatsAppBot.msg_type message) "document").
    - destruct (has_cv_extension _); [|apply Hquiet, quiet_push_reply].
      destruct (media E _) as [file_content|];
        [|apply Hquiet, quiet_send_log_step; reflexivity].
      destruct (negb (is_empty file_content));
        [|apply Hquiet, quiet_send_log_step; reflexivity].
      unfold WhatsAppBot.process_cv, WhatsAppBot.acknowledge.
      eapply hoare_bind.
      + eapply hoare_weaken; [apply (whatsapp_upsert_unsettled c0 o0)| | |].
        * intros s [H _]; exact H.
        * intros a s H; exact H.
        * intros s H; left; exact H.
      + intros candidate_id. eapply hoare_weaken; [apply (sent_log_step o0)| | |].
        * intros s H; exact H.
        * intros ? s H; right; exact H.
        * intros s H; right; exact H.
    - destruct (String.eqb (WhatsAppBot.msg_type message) "text");
        [|apply Hquiet, preserved_read; reflexivity].
      apply Hquiet. apply preserved_bind; [|intros; apply quiet_log_step; reflexivity].
      destruct (WhatsAppBot.job_interest _);
        [apply quiet_push_reply | apply preserved_read; reflexivity]. }
  assert (Hstart : unsettled c0 o0 (fresh_session st) /\ quiet c0 (fresh_session st)).
  { split; [apply unsettled_start; reflexivity|]. split; [reflexivity|]. split; reflexivity. }
  pose proof (Hrun (fresh_session st) Hstart) as H.
  destruct (try_catch _ _ (fresh_session st)) as [[[]|e] s]; cbn [snd fresh_session db outbox];
    (destruct H as [(Hdb & _)|Hs]; [left; exact Hdb|right; exact Hs]).
Qed.

(** X24.  The same for the email handler: after one run either the
    stored candidates are exactly those of before, or the one reply the
    run has handed to SMTP is the confirmation, to the address taken from
    the sender. *)
Theorem email_change_is_confirmed (E : Env) (msg : EmailBot.message)
        (sender_email subject : string) (st : State) :
  let r := EmailBot.process_email E msg sender_email subject st in
  candidates (db (snd r)) = candidates (db st)
  \/ outbox (snd r)
     = (outbox st ++ [EmailReply (snd (EmailBot.extract_email_info sender_email))
                        ("Re: " ++ subject) Confirmation])%list.
Proof.
  intros r. subst r. unfold EmailBot.process_email, app_context.
  destruct (EmailBot.extract_email_info sender_email) as [sender_name clean]. cbn [snd].
  set (c0 := candidates (db st)). set (o0 := outbox st).
  set (confirmation := EmailReply clean ("Re: " ++ subject) Confirmation).
  set (settled := fun s => quiet c0 s \/ sent o0 confirmation s).
  assert (Hquiet : forall (m : M unit), preserved (quiet c0) m ->
                     hoare (fun s => unsettled c0 o0 s /\ quiet c0 s) m (fun _ s => settled s)
                           settled).
  { intros m Hm. eapply hoare_weaken; [apply preserved_hoare, Hm| | |]; unfold settled.
    - intros s [_ H]; exact H.
    - intros ? s H; left; exact H.
    - intros s H; left; exact H. }
  match goal with
  | |- context [try_catch ?b ?h] =>
      assert (Hrun : hoare (fun s => unsettled c0 o0 s /\ quiet c0 s) (try_catch b h)
                       (fun _ s => settled s) settled)
  end.
  { eapply hoare_try_catch with (R := settled).
    2:{ intros e s [Hq|Hs].
        - pose proof (quiet_log_step c0 (EmailBot.log_entry E sender_email subject None "error"
                                           (Some (exn_str e))) eq_refl s Hq) as H.
          destruct (bind _ _ s) as [[[]|e'] s1]; left; exact H.
        - pose proof (silent_log_step (EmailBot.log_entry E sender_email subject None "error"
                                         (Some (exn_str e))) s) as H.
          destruct (bind _ _ s) as [[[]|e'] s1]; right; unfold sent in *;
            cbn in H; rewrite H; exact Hs. }
    eapply hoare_bind; [apply hoare_read; intros; eexists; reflexivity|]. intros existing.
    destruct existing; [apply Hquiet, preserved_read; reflexivity|].
    eapply hoare_bind; [apply hoare_read; intros; eexists; reflexivity|].
    intros existing_candidate.
    destruct (filter_eu_only E && negb (EmailBot.is_eu_phone_number (EmailBot.email_body msg)));
      [apply Hquiet, quiet_send_log_step; reflexivity|].
    assert (Hupsert :
      EmailBot.extract_cv_attachments E msg <> [] \/ existing_candidate <> None ->
      hoare (fun s => unsettled c0 o0 s /\ quiet c0 s)
        (bind (EmailBot.upsert_candidate E sender_name clean subject
                 (EmailBot.extract_cv_attachments E msg) existing_candidate)
              (EmailBot.acknowledge E clean subject))
        (fun _ s => settled s) settled).
    { intros Hsome. eapply hoare_bind.
      - eapply hoare_weaken; [apply (email_upsert_unsettled c0 o0)| | |].
        + intros s [H _]; exact H.
        + intros a s H; exact H.
        + intros s H; left; exact H.
      - intros [i|].
        + unfold EmailBot.acknowledge, EmailBot.send_reply.
          eapply hoare_weaken; [apply (sent_log_step o0)| | |].
          * intros s [H _]; exact H.
          * intros ? s H; right; exact H.
          * intros s H; right; exact H.
        + intros s [_ Hnone]. exfalso. destruct (Hnone eq_refl) as [Ha Hc].
          destruct Hsome as [Hsome|Hsome]; contradiction. }
    destruct (EmailBot.extract_cv_attachments E msg) as [|attachment rest];
      destruct existing_candidate as [candidate|].
    - apply Hupsert. right. discriminate.
    - apply Hquiet, quiet_send_log_step. reflexivity.
    - apply Hupsert. left. discriminate.
    - apply Hupsert. left. discriminate. }
  assert (Hstart : unsettled c0 o0 (fresh_session st) /\ quiet c0 (fresh_session st)).
  { split; [apply unsettled_start; reflexivity|]. split; [reflexivity|]. split; reflexivity. }
  pose proof (Hrun (fresh_session st) Hstart) as H.
  destruct (try_catch _ _ (fresh_session st)) as [[[]|e] s]; cbn [snd fresh_session db outbox];
    (destruct H as [(Hdb & _)|Hs]; [left; exact Hdb|right; exact Hs]).
Qed.

(** ** What the email filter reads *)


Lemma no_code_in_empty_text : EmailBot.is_eu_phone_number "" = false.
Proof. reflexivity. Qed.

(** X25.  The email filter reads the [text/plain] parts and nothing
    else.  So with the filter switched on, a multipart email without such a
    part (an HTML-only message, say) is rejected whatever its other parts
    and its attachments hold: the sender gets the rejection, no attachment
    is saved, no candidate is touched, and when the database takes the
    commit the email is logged as ['filtered_non_eu']. *)
Theorem email_without_plain_text_is_filtered
        (E : Env) (msg : EmailBot.message) (sender_email subject : string) (st : State) :
  find (fun l => String.eqb (EmailLog.sender_email l) sender_email
                 && String.eqb (EmailLog.subject l) subject)
       (email_logs (db st)) = None ->
  filter_eu_only E = true ->
  EmailBot.is_multipart msg = true ->
  forallb (fun p => negb (String.eqb (EmailBot.get_content_type p) "text/plain"))
          (EmailBot.walk msg) = true ->
  let r := EmailBot.process_email E msg sender_email subject st in
  let clean := snd (EmailBot.extract_email_info sender_email) in
  EmailBot.email_body msg = ""
  /\ outbox (snd r) = (outbox st ++ [EmailReply clean ("Re: " ++ subject) Rejection])%list
  /\ candidates (db (snd r)) = candidates (db st)
  /\ fs (snd r) = fs st
  /\ (hd false (outages st) = false ->
        fst r = Returns tt
        /\ email_logs (db (snd r))
           = (email_logs (db st)
              ++ [EmailLog.Make (next_id (map EmailLog.id (email_logs (db st))))
                    clean subject (utcnow E) None "filtered_non_eu" None])%list).
Proof.
  intros Hlog Hfilter Hmulti Hparts r clean.
  assert (Hbody : EmailBot.email_body msg = "").
  { unfold EmailBot.email_body. rewrite Hmulti.
    induction (EmailBot.walk msg) as [|p parts IH]; [reflexivity|].
    cbn in Hparts. apply andb_prop in Hparts as [Hp Hparts]. cbn [List.filter].
    destruct (String.eqb (EmailBot.get_content_type p) "text/plain"); [discriminate|].
    exact (IH Hparts). }
  split; [exact Hbody|].
  subst r clean. unfold EmailBot.process_email, EmailBot.existing_log.
  run_handler. rewrite Hlog.
  destruct (EmailBot.extract_email_info sender_email) as [sender_name sender_email_clean].
  unfold candidate_by_email. run_handler. rewrite Hfilter, Hbody, no_code_in_empty_text.
  cbn [andb negb].
  unfold EmailBot.send_reply, EmailBot.log_entry. run_session.
  destruct (outages st) as [|[] rest]; run_session; cbn;
    (split; [reflexivity|]); (split; [reflexivity|]); (split; [reflexivity|]); intros Hup;
    try discriminate; split; reflexivity.
Qed.

(** The theorem at an HTML-only application with a CV attached. *)
Lemma email_without_plain_text_is_filtered_witness :
  fst Example.after_html_application = Returns tt
  /\ outbox (snd Example.after_html_application)
     = [EmailReply "jane@x.com" "Re: Application" Rejection]
  /\ candidates (db (snd Example.after_html_application)) = []
  /\ fs (snd Example.after_html_application) = ∅.
Proof.
  destruct (email_without_plain_text_is_filtered Scenario.filtering_env
              Example.html_application Scenario.jane_from "Application"
              (Scenario.start Scenario.empty_store []))
    as (_ & Ho & Hc & Hf & Hl); [reflexivity|reflexivity|reflexivity|reflexivity|].
  destruct (Hl eq_refl) as (Hr & _).
  unfold Example.after_html_application. rewrite Hr, Ho, Hc, Hf.
  vm_compute. repeat split; reflexivity.
Defined.

(** ** What the patterns can find *)

Import Language.

Lemma star_loop_consumes (greedy : bool) (r : regex)
      (body : mstate -> (mstate -> option mstate) -> option mstate) :
  consumes r body ->
  forall fuel k st res,
    star_loop body greedy k fuel st = Some res ->
    exists u st1, matches (Star greedy r) u /\ m_rest st = (u ++ m_rest st1)%list
                  /\ m_pos st1 = (m_pos st + length u)%nat /\ k st1 = Some res.
Proof.
  intros Hbody. induction fuel as [|fuel IH]; intros k st res; cbn [star_loop].
  - intros Hk. exists [], st. split; [constructor|]. cbn. rewrite Nat.add_0_r. auto.
  - assert (Hmore : body st (fun st' => if (m_pos st <? m_pos st')%nat
                                        then star_loop body greedy k fuel st' else None)
                    = Some res ->
                    exists u st1, matches (Star greedy r) u
                                  /\ m_rest st = (u ++ m_rest st1)%list
                                  /\ m_pos st1 = (m_pos st + length u)%nat
                                  /\ k st1 = Some res).
    { intros H. apply Hbody in H as (u & st1 & Hu & Hrest & Hpos & Hk).
      destruct (m_pos st <? m_pos st1)%nat; [|discriminate].
      apply IH in Hk as (v & st2 & Hv & Hrest2 & Hpos2 & Hk).
      exists (u ++ v)%list, st2. split; [constructor; assumption|].
      rewrite Hrest, Hrest2, Hpos2, Hpos, <- app_assoc, length_app. split; [reflexivity|].
      split; [lia|exact Hk]. }
    assert (Hstop : k st = Some res ->
                    exists u st1, matches (Star greedy r) u
                                  /\ m_rest st = (u ++ m_rest st1)%list
                                  /\ m_pos st1 = (m_pos st + length u)%nat
                                  /\ k st1 = Some res).
    { intros Hk. exists [], st. split; [constructor|]. cbn. rewrite Nat.add_0_r. auto. }
    unfold first_some. destruct greedy.
    + destruct (body st _) as [res'|] eqn:Hb; [|exact Hstop].
      intros [= <-]. apply Hmore. reflexivity.
    + destruct (k st) as [res'|] eqn:Hk; [intros [= <-]; apply Hstop; reflexivity|].
      exact Hmore.
Qed.

(** The matcher is sound for [matches]. *)
Lemma rmatch_consumes (r : regex) : consumes r (rmatch r).
Proof.
  induction r as [p| |r1 IH1 r2 IH2|r1 IH1 r2 IH2|greedy r IH|n r IH| |];
    intros st k res; cbn [rmatch].
  - destruct (m_rest st) as [|c t] eqn:Hrest; [discriminate|].
    destruct (p c) eqn:Hp; [|discriminate]. intros Hk.
    exists [c], (advance c t st). split; [constructor; exact Hp|].
    cbn. split; [reflexivity|]. split; [lia|exact Hk].
  - intros Hk. exists [], st. split; [constructor|]. cbn. rewrite Nat.add_0_r. auto.
  - intros H. apply IH1 in H as (u & st1 & Hu & Hrest & Hpos & H).
    apply IH2 in H as (v & st2 & Hv & Hrest2 & Hpos2 & Hk).
    exists (u ++ v)%list, st2. split; [constructor; assumption|].
    rewrite Hrest, Hrest2, Hpos2, Hpos, <- app_assoc, length_app. split; [reflexivity|].
    split; [lia|exact Hk].
  - unfold first_some. destruct (rmatch r1 st k) as [res'|] eqn:H1.
    + intros [= <-]. apply IH1 in H1 as (u & st1 & Hu & H). exists u, st1.
      split; [apply matches_alt_l, Hu|exact H].
    + intros H2. apply IH2 in H2 as (u & st1 & Hu & H). exists u, st1.
      split; [apply matches_alt_r, Hu|exact H].
  - apply star_loop_consumes. exact IH.
  - intros H. apply IH in H as (u & st1 & Hu & Hrest & Hpos & Hk).
    exists u, (close_group n (m_pos st) st1). split; [constructor; exact Hu|].
    cbn. auto.
  - destruct (m_pos st =? 0)%nat; [|discriminate]. intros Hk.
    exists [], st. split; [constructor|]. cbn. rewrite Nat.add_0_r. auto.
  - destruct (xorb _ _); [|discriminate]. intros Hk.
    exists [], st. split; [constructor|]. cbn. rewrite Nat.add_0_r. auto.
Qed.

Lemma slice_middle (pre u rest : list ascii) :
  slice (pre ++ u ++ rest) (length pre) (length pre + length u) = string_of_list_ascii u.
Proof.
  unfold slice. f_equal.
  replace (length pre + length u - length pre)%nat with (length u) by lia.
  rewrite drop_app_length, take_app_length. reflexivity.
Qed.

Lemma search_from_finds (r : regex) (input : list ascii) :
  forall rest pre prev m,
    input = (pre ++ rest)%list ->
    search_from r input prev rest (length pre) = Some m ->
    exists a u b, input = (a ++ u ++ b)%list /\ matches r u
                  /\ group0 m = string_of_list_ascii u.
Proof.
  induction rest as [|c rest IH]; intros pre prev m Hinput; cbn [search_from];
    destruct (rmatch r _ Some) as [st|] eqn:Hrun.
  - intros [= <-]. apply rmatch_consumes in Hrun as (u & st1 & Hu & Hrest & Hpos & [= ->]).
    cbn in Hrest, Hpos. exists pre, u, (m_rest st). rewrite Hinput, Hrest. split; [reflexivity|].
    split; [exact Hu|]. unfold group0. cbn. rewrite Hpos. apply slice_middle.
  - discriminate.
  - intros [= <-]. apply rmatch_consumes in Hrun as (u & st1 & Hu & Hrest & Hpos & [= ->]).
    cbn in Hrest, Hpos. exists pre, u, (m_rest st). rewrite Hinput, Hrest. split; [reflexivity|].
    split; [exact Hu|]. unfold group0. cbn. rewrite Hpos. apply slice_middle.
  - intros H. apply (IH (pre ++ [c])%list (Some c) m).
    + rewrite <- app_assoc. exact Hinput.
    + rewrite length_app. cbn. rewrite Nat.add_1_r. exact H.
Qed.

(** What [re.search] returns is a piece of the text that the pattern can
    consume. *)
Lemma search_finds (r : regex) (s : string) (m : match_obj) :
  search r s = Some m ->
  exists a u b, s = a ++ string_of_list_ascii u ++ b /\ matches r u
                /\ group0 m = string_of_list_ascii u.
Proof.
  unfold search. intros H.
  apply (search_from_finds r _ _ [] None m eq_refl) in H as (a & u & b & Hs & Hu & Hg).
  exists (string_of_list_ascii a), u, (string_of_list_ascii b).
  split; [|split; assumption].
  cbn [app] in Hs.
  rewrite <- !string_of_list_ascii_app, <- Hs, string_of_list_ascii_of_string. reflexivity.
Qed.

Lemma matches_lit (c : ascii) (u : list ascii) : matches (lit c) u -> u = [c].
Proof.
  unfold lit. intros H. inversion H as [p c' Hp| | | | | | | | |]; subst.
  apply Ascii.eqb_eq in Hp. now subst.
Qed.

Lemma matches_star_class (greedy : bool) (p : ascii -> bool) (u : list ascii) :
  matches (Star greedy (Chr p)) u -> forallb p u = true.
Proof.
  intros H. remember (Star greedy (Chr p)) as r eqn:Hr.
  induction H as [| | | | | |g r0 u v Hu _ Hv IH| | |]; try discriminate; [reflexivity|].
  injection Hr as -> ->. inversion Hu; subst. cbn. rewrite IH by reflexivity.
  now rewrite andb_true_r.
Qed.


Lemma matches_plus_class (greedy : bool) (p : ascii -> bool) (u : list ascii) :
  matches (plus greedy (Chr p)) u -> forallb p u = true /\ u <> [].
Proof.
  unfold plus. intros H. inversion H as [| |r1 r2 u1 u2 H1 H2| | | | | | |]; subst.
  inversion H1; subst. apply matches_star_class in H2. cbn.
  split; [now rewrite H2, andb_true_r|discriminate].
Qed.









Lemma contains_char (c : ascii) (s : string) :
  contains (String c "") s = existsb (Ascii.eqb c) (list_ascii_of_string s).
Proof.
  induction s as [|x s IH]; [reflexivity|]. cbn [contains startswith list_ascii_of_string existsb].
  rewrite IH, andb_true_r. reflexivity.
Qed.

Lemma contains_char_piece (c : ascii) (a s b : string) :
  contains (String c "") (a ++ s ++ b) = false -> contains (String c "") s = false.
Proof.
  rewrite !contains_char, !list_ascii_of_string_app, !existsb_app. intros H.
  apply orb_false_elim in H as [_ H]. apply orb_false_elim in H as [H _]. exact H.
Qed.

Lemma contains_char_in (c : ascii) (u : list ascii) :
  In c u -> contains (String c "") (string_of_list_ascii u) = true.
Proof.
  intros Hin. rewrite contains_char, list_ascii_of_string_of_list_ascii.
  apply existsb_exists. exists c. split; [exact Hin|apply Ascii.eqb_refl].
Qed.


Lemma search_needs (r : regex) (c : ascii) (s : string) :
  (forall u, matches r u -> In c u) ->
  contains (String c "") s = false -> search r s = None.
Proof.
  intros Hneeds Hno. destruct (search r s) as [m|] eqn:Hsearch; [|reflexivity].
  apply search_finds in Hsearch as (a & u & b & Hs & Hu & _).
  rewrite Hs in Hno. apply contains_char_piece in Hno.
  rewrite (contains_char_in c u (Hneeds u Hu)) in Hno. discriminate.
Qed.

Lemma split_on_absent (sep : ascii) (s : string) :
  contains (String sep "") s = false -> split_on sep s = [s].
Proof.
  rewrite contains_char. induction s as [|c s IH]; [reflexivity|].
  cbn [list_ascii_of_string existsb split_on]. intros H.
  apply orb_false_elim in H as [Hc Hs]. rewrite Ascii.eqb_sym, Hc, (IH Hs). reflexivity.
Qed.

(** X27.  A sender without an address.  When the [From] header has
    neither [<] nor [@], neither pattern of [extract_email_info] matches,
    and the header itself is returned both as the name and as the
    address. *)
Theorem sender_without_address_is_its_own_address (sender : string) :
  contains "<" sender = false ->
  contains "@" sender = false ->
  EmailBot.extract_email_info sender = (sender, sender).
Proof.
  intros Hlt Hat. unfold EmailBot.extract_email_info.
  assert (Hname : search EmailBot.name_pattern sender = None).
  { apply (search_needs _ "<"%char); [|exact Hlt].
    intros u Hu. unfold EmailBot.name_pattern in Hu.
    inversion Hu as [| |? ? u0 v0 H0 H1| | | | | | |]; subst.
    inversion H1 as [| |? ? u1 v1 _ H2| | | | | | |]; subst.
    inversion H2 as [| |? ? u2 v2 _ H3| | | | | | |]; subst.
    apply matches_lit in H3 as ->. rewrite !in_app_iff. cbn. auto. }
  destruct (search EmailBot.email_pattern sender) as [m|] eqn:Hemail.
  - exfalso. apply search_finds in Hemail as (a & u & b & Hs & Hu & _).
    rewrite Hs in Hlt, Hat. apply contains_char_piece in Hlt, Hat.
    unfold EmailBot.email_pattern in Hu.
    inversion Hu as [| | |? ? ? Hangle|? ? ? Hbare| | | | |]; subst.
    + inversion Hangle as [| |? ? u0 v0 H0 _| | | | | | |]; subst.
      apply matches_lit in H0 as ->.
      rewrite (contains_char_in "<"%char) in Hlt; [discriminate|]. cbn. auto.
    + inversion Hbare as [| | | | | | |? ? ? Hgroup| |]; subst.
      inversion Hgroup as [| |? ? u0 v0 _ H1| | | | | | |]; subst.
      inversion H1 as [| |? ? u1 v1 H2 _| | | | | | |]; subst.
      apply matches_lit in H2 as ->.
      rewrite (contains_char_in "@"%char) in Hat; [discriminate|].
      rewrite !in_app_iff. cbn. auto.
  - rewrite Hname, (split_on_absent _ _ Hat). reflexivity.
Qed.

(** The theorem at a header that is a word. *)
Lemma sender_without_address_is_its_own_address_witness :
  EmailBot.extract_email_info "MAILER-DAEMON" = ("MAILER-DAEMON", "MAILER-DAEMON").
Proof.
  apply sender_without_address_is_its_own_address; reflexivity.
Defined.

(** ** A sender with a display name *)

Lemma search_from_step (r : regex) (input : list ascii) (prev : option ascii) (c : ascii)
      (rest : list ascii) (pos : nat) :
  rmatch r (MState prev (c :: rest) pos []) Some = None ->
  search_from r input prev (c :: rest) pos = search_from r input (Some c) rest (S pos).
Proof. intros H. cbn [search_from]. rewrite H. reflexivity. Qed.

(** The lazy [.+?] before a [>]: it stops at the first [>]. *)
Lemma lazy_dot_until_gt (n start : nat) (tail : list ascii) (w : list ascii) :
  forall fuel prev pos groups,
    existsb (Ascii.eqb ">") w = false ->
    existsb (Ascii.eqb "010") w = false ->
    (length w < fuel)%nat ->
    star_loop (rmatch dot) false
              (fun st' => rmatch (lit ">") (close_group n start st') Some)
              fuel (MState prev (w ++ ">"%char :: tail) pos groups)
    = Some (MState (Some ">"%char) tail (S (pos + length w))
                   ((n, (start, (pos + length w)%nat)) :: groups)).
Proof.
  set (body := rmatch dot).
  induction w as [|c w IH]; intros fuel prev pos groups Hgt Hnl Hfuel;
    destruct fuel as [|fuel]; try (cbn in Hfuel; lia); cbn [star_loop app].
  - cbn. rewrite Nat.add_0_r. reflexivity.
  - cbn [existsb] in Hgt, Hnl. apply orb_false_elim in Hgt as [Hc Hgt].
    apply orb_false_elim in Hnl as [Hc' Hnl].
    unfold first_some.
    replace (rmatch (lit ">") (close_group n start (MState prev (c :: w ++ ">"%char :: tail)
                                                      pos groups)) Some)
      with (@None mstate)
      by (unfold lit; cbn [rmatch close_group m_rest]; rewrite Hc; reflexivity).
    unfold body at 1, dot. cbn [rmatch m_rest]. rewrite Ascii.eqb_sym, Hc'.
    cbn [negb]. unfold advance. cbn [m_pos m_groups].
    replace (pos <? S pos)%nat with true by (symmetry; apply Nat.ltb_lt; lia).
    rewrite IH; [|assumption|assumption|cbn in Hfuel; lia].
    cbn [length]. replace (S pos + length w)%nat with (pos + S (length w))%nat by lia.
    reflexivity.
Qed.

Lemma existsb_eqb_false (c : ascii) (l : list ascii) :
  existsb (Ascii.eqb c) l = false -> ~ In c l.
Proof.
  intros H Hin. assert (existsb (Ascii.eqb c) l = true); [|congruence].
  apply existsb_exists. exists c. split; [exact Hin|apply Ascii.eqb_refl].
Qed.

(** Two ways to cut a list before a character cannot disagree. *)
Lemma prefix_clash (a b : ascii) (l1 l2 x y : list ascii) :
  (l1 ++ a :: x = l2 ++ b :: y)%list -> ~ In a l2 -> ~ In b l1 -> a <> b -> False.
Proof.
  revert l2. induction l1 as [|c l1 IH]; intros [|c' l2] Heq Ha Hb Hab; cbn in Heq;
    injection Heq as Hc Hrest.
  - contradiction.
  - apply Ha. left. congruence.
  - apply Hb. left. congruence.
  - apply (IH l2 Hrest).
    + intros Hin. apply Ha. right. exact Hin.
    + intros Hin. apply Hb. right. exact Hin.
    + exact Hab.
Qed.

(** Before the [<] of a header whose display name has no [<] and no [@],
    the address pattern matches nowhere. *)
Lemma email_pattern_not_before (prev : option ascii) (pos : nat) (c : ascii)
      (v tail : list ascii) :
  existsb (Ascii.eqb "<") (c :: v) = false ->
  existsb (Ascii.eqb "@") (c :: v) = false ->
  rmatch EmailBot.email_pattern (MState prev ((c :: v) ++ "<"%char :: tail) pos []) Some = None.
Proof.
  intros Hlt Hat.
  destruct (rmatch _ _ Some) as [st|] eqn:Hrun; [exfalso|reflexivity].
  apply rmatch_consumes in Hrun as (u & st1 & Hu & Hrest & _). cbn [m_rest] in Hrest.
  apply existsb_eqb_false in Hlt, Hat.
  unfold EmailBot.email_pattern in Hu.
  inversion Hu as [| | |? ? ? Hangle|? ? ? Hbare| | | | |]; subst.
  - inversion Hangle as [| |? ? u0 v0 H0 _| | | | | | |]; subst.
    apply matches_lit in H0 as ->. cbn in Hrest. injection Hrest as -> _.
    apply Hlt. left. reflexivity.
  - inversion Hbare as [| | | | | | |? ? ? Hgroup| |]; subst.
    inversion Hgroup as [| |? ? local v0 Hlocal H1| | | | | | |]; subst.
    inversion H1 as [| |? ? u1 v1 H2 _| | | | | | |]; subst.
    apply matches_lit in H2 as ->. apply matches_plus_class in Hlocal as [Hclass _].
    rewrite <- !app_assoc in Hrest. cbn [app] in Hrest.
    apply (prefix_clash "<" "@" (c :: v) local tail (v1 ++ m_rest st1) Hrest);
      [|exact Hat|discriminate].
    intros Hin. rewrite forallb_forall in Hclass. apply Hclass in Hin. discriminate.
Qed.

Lemma search_from_skips_the_name (input : list ascii) (tail : list ascii) (v : list ascii) :
  forall prev pos,
    existsb (Ascii.eqb "<") v = false ->
    existsb (Ascii.eqb "@") v = false ->
    exists prev',
      search_from EmailBot.email_pattern input prev (v ++ "<"%char :: tail) pos
      = search_from EmailBot.email_pattern input prev' ("<"%char :: tail) (pos + length v).
Proof.
  induction v as [|c v IH]; intros prev pos Hlt Hat.
  - exists prev. cbn. rewrite Nat.add_0_r. reflexivity.
  - pose proof (email_pattern_not_before prev pos c v tail Hlt Hat) as Hnone.
    cbn [existsb] in Hlt, Hat. apply orb_false_elim in Hlt as [_ Hlt].
    apply orb_false_elim in Hat as [_ Hat].
    destruct (IH (Some c) (S pos) Hlt Hat) as (prev' & Hskip). exists prev'.
    cbn [app] in Hnone |- *. rewrite (search_from_step _ _ _ _ _ _ Hnone), Hskip.
    cbn [length]. replace (S pos + length v)%nat with (pos + S (length v))%nat by lia.
    reflexivity.
Qed.

(** At the [<], the first alternative takes the text up to the first
    [>] as group 1. *)
Lemma email_pattern_at_the_angle (prev : option ascii) (pos : nat) (c : ascii)
      (addr tail : list ascii) :
  existsb (Ascii.eqb ">") (c :: addr) = false ->
  existsb (Ascii.eqb "010") (c :: addr) = false ->
  rmatch EmailBot.email_pattern
         (MState prev ("<"%char :: (c :: addr) ++ ">"%char :: tail) pos []) Some
  = Some (MState (Some ">"%char) tail (pos + length (c :: addr) + 2)
                 [(1%nat, (S pos, (S pos + length (c :: addr))%nat))]).
Proof.
  intros Hgt Hnl. cbn [existsb] in Hgt, Hnl.
  apply orb_false_elim in Hgt as [Hc Hgt]. apply orb_false_elim in Hnl as [Hc' Hnl].
  unfold EmailBot.email_pattern.
  match goal with
  | |- rmatch (Alt ?angle ?bare) ?st ?k = _ =>
      change (rmatch (Alt angle bare) st k) with (first_some (rmatch angle st k) (rmatch bare st k));
      generalize (rmatch bare st k) as other
  end.
  intros other. cbn [rmatch]. unfold lit at 1. cbn [rmatch m_rest]. rewrite Ascii.eqb_refl.
  unfold advance at 1. cbn [m_pos m_groups app]. unfold plus. cbn [rmatch].
  unfold dot at 1. cbn [rmatch m_rest]. rewrite Ascii.eqb_sym, Hc'. cbn [negb].
  unfold advance. cbn [m_pos m_groups m_rest].
  rewrite (lazy_dot_until_gt 1 (S pos) tail addr); [|assumption|assumption|].
  - cbn [length first_some].
    replace (S (S (S pos) + length addr)) with (pos + S (length addr) + 2)%nat by lia.
    replace (S (S pos) + length addr)%nat with (S pos + S (length addr))%nat by lia.
    reflexivity.
  - rewrite length_app. cbn. lia.
Qed.

(** The greedy [\s*] before a [<]: over blanks only it reaches the
    [<]; over anything else that has no [<] it fails, however far it
    backtracks. *)
Lemma greedy_spaces_then_lt (tail : list ascii) (w : list ascii) :
  forall fuel prev pos groups,
    forallb isspace w = true ->
    (length w < fuel)%nat ->
    star_loop (rmatch (Chr isspace)) true (fun st => rmatch (lit "<") st Some) fuel
              (MState prev (w ++ "<"%char :: tail) pos groups)
    = Some (MState (Some "<"%char) tail (S (pos + length w)) groups).
Proof.
  set (body := rmatch (Chr isspace)).
  induction w as [|c w IH]; intros fuel prev pos groups Hw Hfuel;
    destruct fuel as [|fuel]; try (cbn in Hfuel; lia); cbn [star_loop app].
  - unfold body at 1. cbn. rewrite Nat.add_0_r. reflexivity.
  - cbn [forallb] in Hw. apply andb_prop in Hw as [Hc Hw].
    unfold body at 1. cbn [rmatch m_rest]. rewrite Hc. unfold advance. cbn [m_pos m_groups].
    replace (pos <? S pos)%nat with true by (symmetry; apply Nat.ltb_lt; lia).
    rewrite IH; [|assumption|cbn in Hfuel; lia]. cbn [first_some length].
    replace (S pos + length w)%nat with (pos + S (length w))%nat by lia. reflexivity.
Qed.

Lemma spaces_then_lt_fails (tail : list ascii) (w : list ascii) :
  forall fuel prev pos groups,
    forallb isspace w = false ->
    existsb (Ascii.eqb "<") w = false ->
    star_loop (rmatch (Chr isspace)) true (fun st => rmatch (lit "<") st Some) fuel
              (MState prev (w ++ "<"%char :: tail) pos groups)
    = None.
Proof.
  set (body := rmatch (Chr isspace)).
  induction w as [|c w IH]; intros fuel prev pos groups Hw Hlt; [discriminate|].
  cbn [existsb] in Hlt. apply orb_false_elim in Hlt as [Hc Hlt].
  assert (Hstop : rmatch (lit "<") (MState prev ((c :: w) ++ "<"%char :: tail) pos groups) Some
                  = None).
  { unfold lit. cbn [rmatch m_rest app]. rewrite Hc. reflexivity. }
  destruct fuel as [|fuel]; cbn [star_loop]; [exact Hstop|].
  rewrite Hstop. unfold body at 1. cbn [rmatch m_rest app].
  destruct (isspace c) eqn:Hspace; [|reflexivity].
  unfold advance. cbn [m_pos m_groups].
  replace (pos <? S pos)%nat with true by (symmetry; apply Nat.ltb_lt; lia).
  cbn [forallb] in Hw. rewrite Hspace in Hw. cbn [andb] in Hw.
  rewrite IH; [reflexivity|assumption|assumption].
Qed.

Lemma name_continuation (st : mstate) :
  rmatch (Seq (Star true (Chr isspace)) (lit "<")) (close_group 1 0 st) Some
  = star_loop (rmatch (Chr isspace)) true (fun st' => rmatch (lit "<") st' Some)
              (S (length (m_rest st)))
              (MState (m_prev st) (m_rest st) (m_pos st) ((1%nat, (0%nat, m_pos st)) :: m_groups st)).
Proof. reflexivity. Qed.

(** The lazy [.+?] of the name pattern: it stops where only blanks are
    left before the [<], and group 1 is what it took. *)
Lemma lazy_dot_until_spaces_and_lt (tail : list ascii) (w : list ascii) :
  forall fuel prev pos groups,
    existsb (Ascii.eqb "<") w = false ->
    existsb (Ascii.eqb "010") w = false ->
    (length w < fuel)%nat ->
    exists p ws,
      w = (p ++ ws)%list /\ forallb isspace ws = true
      /\ star_loop (rmatch dot) false
                   (fun st' => rmatch (Seq (Star true (Chr isspace)) (lit "<"))
                                      (close_group 1 0 st') Some)
                   fuel (MState prev (w ++ "<"%char :: tail) pos groups)
         = Some (MState (Some "<"%char) tail (S (pos + length w))
                        ((1%nat, (0%nat, (pos + length p)%nat)) :: groups)).
Proof.
  set (body := rmatch dot).
  set (K := fun st' => rmatch (Seq (Star true (Chr isspace)) (lit "<"))
                              (close_group 1 0 st') Some).
  assert (Hblank : forall ws prev pos groups,
             forallb isspace ws = true ->
             K (MState prev (ws ++ "<"%char :: tail) pos groups)
             = Some (MState (Some "<"%char) tail (S (pos + length ws))
                            ((1%nat, (0%nat, pos)) :: groups))).
  { intros ws prev pos groups Hws. unfold K. rewrite name_continuation.
    cbn [m_prev m_rest m_pos m_groups].
    apply greedy_spaces_then_lt; [exact Hws|rewrite length_app; cbn; lia]. }
  assert (Hother : forall v prev pos groups,
             forallb isspace v = false -> existsb (Ascii.eqb "<") v = false ->
             K (MState prev (v ++ "<"%char :: tail) pos groups) = None).
  { intros v prev pos groups Hv Hlt. unfold K. rewrite name_continuation.
    cbn [m_prev m_rest m_pos m_groups]. apply spaces_then_lt_fails; assumption. }
  clearbody K.
  induction w as [|c w IH]; intros fuel prev pos groups Hlt Hnl Hfuel;
    destruct fuel as [|fuel]; try (cbn in Hfuel; lia).
  - exists [], []. split; [reflexivity|]. split; [reflexivity|].
    cbn [star_loop]. rewrite (Hblank [] prev pos groups eq_refl).
    cbn [first_some length]. rewrite Nat.add_0_r. reflexivity.
  - destruct (forallb isspace (c :: w)) eqn:Hspaces.
    + exists [], (c :: w). split; [reflexivity|]. split; [exact Hspaces|].
      cbn [star_loop]. rewrite (Hblank (c :: w) prev pos groups Hspaces).
      cbn [first_some length]. rewrite Nat.add_0_r. reflexivity.
    + pose proof (Hother (c :: w) prev pos groups Hspaces Hlt) as Hstop.
      cbn [existsb] in Hlt, Hnl. apply orb_false_elim in Hlt as [_ Hlt].
      apply orb_false_elim in Hnl as [Hc Hnl].
      destruct (IH fuel (Some c) (S pos) groups Hlt Hnl) as (p & ws & Hw & Hws & Hrun);
        [cbn in Hfuel; lia|].
      exists (c :: p), ws. split; [cbn; now rewrite Hw|]. split; [exact Hws|].
      cbn [star_loop]. rewrite Hstop. cbn [first_some].
      unfold body at 1, dot. cbn [rmatch m_rest app].
      rewrite Ascii.eqb_sym, Hc. cbn [negb]. unfold advance. cbn [m_pos m_groups].
      replace (pos <? S pos)%nat with true by (symmetry; apply Nat.ltb_lt; lia).
      fold body. rewrite Hrun. cbn [length].
      replace (S pos + length w)%nat with (pos + S (length w))%nat by lia.
      replace (S pos + length p)%nat with (pos + S (length p))%nat by lia. reflexivity.
Qed.

Lemma lstrip_spaces (s : string) :
  forallb isspace (list_ascii_of_string s) = true -> lstrip s = "".
Proof.
  induction s as [|c s IH]; [reflexivity|]. cbn. intros H.
  apply andb_prop in H as [-> H]. exact (IH H).
Qed.

Lemma lstrip_app (x y : string) :
  lstrip (x ++ y)
  = if forallb isspace (list_ascii_of_string x) then lstrip y else lstrip x ++ y.
Proof.
  induction x as [|c x IH]; [reflexivity|]. rewrite append_cons. cbn.
  destruct (isspace c); [exact IH|reflexivity].
Qed.

Lemma forallb_rev_string (p : ascii -> bool) (s : string) :
  forallb p (list_ascii_of_string (rev_string s)) = forallb p (list_ascii_of_string s).
Proof.
  unfold rev_string. rewrite list_ascii_of_string_of_list_ascii.
  induction (list_ascii_of_string s) as [|c l IH]; [reflexivity|].
  cbn. rewrite forallb_app, IH. cbn. rewrite andb_true_r. apply andb_comm.
Qed.

Lemma rstrip_app_spaces (x ws : string) :
  forallb isspace (list_ascii_of_string ws) = true -> rstrip (x ++ ws) = rstrip x.
Proof.
  intros Hws. unfold rstrip. rewrite rev_string_app, lstrip_app, forallb_rev_string, Hws.
  reflexivity.
Qed.

(** Blanks after a text do not change what [strip] gives. *)
Lemma strip_app_spaces (x ws : string) :
  forallb isspace (list_ascii_of_string ws) = true -> strip (x ++ ws) = strip x.
Proof.
  intros Hws. unfold strip. rewrite lstrip_app.
  destruct (forallb isspace (list_ascii_of_string x)) eqn:Hx.
  - rewrite (lstrip_spaces ws Hws), (lstrip_spaces x Hx). reflexivity.
  - apply rstrip_app_spaces. exact Hws.
Qed.

Lemma name_pattern_at_start (c0 : ascii) (rest : list ascii) :
  rmatch EmailBot.name_pattern (MState None (c0 :: rest) 0 []) Some
  = if negb (Ascii.eqb c0 "010")
    then star_loop (rmatch dot) false
                   (fun st' => rmatch (Seq (Star true (Chr isspace)) (lit "<"))
                                      (close_group 1 0 st') Some)
                   (S (length rest)) (MState (Some c0) rest 1 [])
    else None.
Proof. reflexivity. Qed.

Lemma slice_prefix (u rest : list ascii) :
  slice (u ++ rest) 0 (length u) = string_of_list_ascii u.
Proof. exact (slice_middle [] u rest). Qed.

(** X28.  A sender with a display name.  For a [From] header of the form
    [name <addr>], where the name has no [<], no [@] and no line break and
    the address is not empty and has no [>] and no line break,
    [extract_email_info] returns the name without the blanks around it and
    the address between the angle brackets. *)
Theorem display_name_and_address_are_split (name addr : string) :
  contains "<" name = false ->
  contains "@" name = false ->
  contains nl name = false ->
  addr <> "" ->
  contains ">" addr = false ->
  contains nl addr = false ->
  EmailBot.extract_email_info (name ++ " <" ++ addr ++ ">") = (strip name, addr).
Proof.
  intros Hlt Hat Hnl Haddr Hgt Hnl'. unfold nl in Hnl, Hnl'.
  rewrite contains_char in Hlt, Hat, Hnl, Hgt, Hnl'.
  set (n := list_ascii_of_string name) in *. set (a := list_ascii_of_string addr) in *.
  assert (Hinput : list_ascii_of_string (name ++ " <" ++ addr ++ ">")
                   = ((n ++ [" "%char]) ++ "<"%char :: a ++ [">"%char])%list).
  { rewrite !list_ascii_of_string_app, <- app_assoc. reflexivity. }
  assert (Hname_lt : existsb (Ascii.eqb "<") (n ++ [" "%char]) = false)
    by (rewrite existsb_app, Hlt; reflexivity).
  assert (Hname_at : existsb (Ascii.eqb "@") (n ++ [" "%char]) = false)
    by (rewrite existsb_app, Hat; reflexivity).
  assert (Hname_nl : existsb (Ascii.eqb "010") (n ++ [" "%char]) = false)
    by (rewrite existsb_app, Hnl; reflexivity).
  destruct a as [|a0 a'] eqn:Ha.
  { exfalso. apply Haddr. rewrite <- (string_of_list_ascii_of_string addr). fold a.
    rewrite Ha. reflexivity. }
  (* the address *)
  assert (Hemail : exists m, search EmailBot.email_pattern (name ++ " <" ++ addr ++ ">") = Some m
                             /\ EmailBot.group_or_empty 1 m = addr).
  { unfold search. rewrite Hinput.
    destruct (search_from_skips_the_name
                ((n ++ [" "%char]) ++ "<"%char :: (a0 :: a') ++ [">"%char])
                ((a0 :: a') ++ [">"%char]) (n ++ [" "%char]) None 0 Hname_lt Hname_at)
      as (prev' & ->).
    cbn [search_from]. rewrite (email_pattern_at_the_angle prev' _ a0 a' [] Hgt Hnl').
    eexists. split; [reflexivity|]. unfold EmailBot.group_or_empty, group.
    cbn [mo_groups mo_input m_groups m_pos]. cbn [assoc_nat Nat.eqb]. rewrite Nat.add_0_l.
    replace ((n ++ [" "%char]) ++ "<"%char :: (a0 :: a') ++ [">"%char])%list
      with (((n ++ [" "%char]) ++ ["<"%char]) ++ (a0 :: a') ++ [">"%char])%list
      by (rewrite <- !app_assoc; reflexivity).
    replace (S (length (n ++ [" "%char]))) with (length ((n ++ [" "%char]) ++ ["<"%char]))
      by (rewrite !length_app; cbn; lia).
    rewrite slice_middle, <- Ha. apply string_of_list_ascii_of_string. }
  (* the name *)
  assert (Hname : exists m g ws,
             search EmailBot.name_pattern (name ++ " <" ++ addr ++ ">") = Some m
             /\ EmailBot.group_or_empty 1 m = string_of_list_ascii g
             /\ (g ++ ws = n ++ [" "%char])%list /\ forallb isspace ws = true).
  { unfold search. rewrite Hinput.
    destruct (n ++ [" "%char])%list as [|c0 w] eqn:Hw; [destruct n; discriminate|].
    cbn [existsb] in Hname_lt, Hname_nl.
    apply orb_false_elim in Hname_lt as [_ Hw_lt].
    apply orb_false_elim in Hname_nl as [Hc0 Hw_nl].
    destruct (lazy_dot_until_spaces_and_lt ((a0 :: a') ++ [">"%char]) w
                (S (length (w ++ "<"%char :: (a0 :: a') ++ [">"%char]))) (Some c0) 1 []
                Hw_lt Hw_nl) as (p & ws & Hsplit & Hws & Hrun);
      [rewrite length_app; cbn; lia|].
    eexists _, (c0 :: p), ws.
    rewrite <- app_comm_cons. cbn [search_from]. rewrite name_pattern_at_start.
    rewrite Ascii.eqb_sym, Hc0. cbn [negb]. rewrite Hrun. split; [reflexivity|].
    split; [|split; [cbn; now rewrite Hsplit|exact Hws]].
    unfold EmailBot.group_or_empty, group.
    cbn [mo_groups mo_input m_groups m_pos]. cbn [assoc_nat Nat.eqb].
    rewrite Hsplit.
    replace (c0 :: (p ++ ws) ++ "<"%char :: (a0 :: a') ++ [">"%char])%list
      with ((c0 :: p) ++ ws ++ "<"%char :: (a0 :: a') ++ [">"%char])%list
      by (cbn; rewrite <- app_assoc; reflexivity).
    apply (slice_prefix (c0 :: p)). }
  unfold EmailBot.extract_email_info.
  destruct Hemail as (m & -> & Hgroup). destruct Hname as (m' & g & ws & -> & Hg & Hsplit & Hws).
  rewrite Hgroup, Hg.
  replace (is_empty addr) with false by (destruct addr; [contradiction|reflexivity]).
  f_equal.
  rewrite <- (strip_app_spaces (string_of_list_ascii g) (string_of_list_ascii ws))
    by (rewrite list_ascii_of_string_of_list_ascii; exact Hws).
  rewrite <- string_of_list_ascii_app, Hsplit, string_of_list_ascii_app.
  unfold n. rewrite string_of_list_ascii_of_string.
  apply strip_app_spaces. reflexivity.
Qed.

(** The theorem at Jane's header. *)
Lemma display_name_and_address_are_split_witness :
  EmailBot.extract_email_info "Jane Doe <jane@x.com>" = ("Jane Doe", "jane@x.com").
Proof.
  apply (display_name_and_address_are_split "Jane Doe" "jane@x.com");
    try reflexivity. discriminate.
Defined.

(** ** A webhook call that repeats what was handled *)

Import Batches.

Lemma logged_app (logs new : list WhatsAppLog.t) (message : WhatsAppBot.message_data) :
  logged logs message = true -> logged (logs ++ new) message = true.
Proof.
  unfold logged. induction logs as [|l logs IH]; cbn; [discriminate|].
  destruct (_ && _); [reflexivity|exact IH].
Qed.

Lemma for_each_ends_fresh (E : Env) (ms : list WhatsAppBot.message_data) :
  forall s, fresh_session s = s ->
            fresh_session (snd (for_each (WhatsAppBot.process_whatsapp_message E) ms s))
            = snd (for_each (WhatsAppBot.process_whatsapp_message E) ms s).
Proof.
  induction ms as [|m ms IH]; intros s Hs; cbn [for_each]; [exact Hs|].
  unfold bind. pose proof (process_whatsapp_message_ends_fresh E m s) as Hm.
  destruct (WhatsAppBot.process_whatsapp_message E m s) as [[[]|e] s1]; cbn [snd] in Hm |- *.
  - apply IH. exact Hm.
  - exact Hm.
Qed.

(** Handling the messages of a list one after the other, in a session
    that is fresh, when some of them are in the ledger already. *)
Lemma for_each_skips_logged (E : Env) (logs : list WhatsAppLog.t)
      (ms : list WhatsAppBot.message_data) :
  forall s,
    fresh_session s = s ->
    (exists new, whatsapp_logs (db s) = (logs ++ new)%list) ->
    for_each (WhatsAppBot.process_whatsapp_message E) ms s
    = for_each (WhatsAppBot.process_whatsapp_message E)
               (List.filter (fun m => negb (logged logs m)) ms) s.
Proof.
  induction ms as [|m ms IH]; intros s Hfresh (new & Hlogs); cbn [List.filter for_each];
    [reflexivity|].
  assert (Hnext : forall s1,
             snd (WhatsAppBot.process_whatsapp_message E m s) = s1 ->
             for_each (WhatsAppBot.process_whatsapp_message E) ms s1
             = for_each (WhatsAppBot.process_whatsapp_message E)
                        (List.filter (fun m => negb (logged logs m)) ms) s1).
  { intros s1 <-. apply IH; [apply process_whatsapp_message_ends_fresh|].
    pose proof (whatsapp_handler_footprint E m s) as H.
    destruct (WhatsAppBot.process_whatsapp_message E m s) as [[[]|e] s1]; cbn [snd].
    - destruct H as (_ & _ & [Hl|(l & Hl & _)]); rewrite Hl, Hlogs.
      + eauto.
      + exists (new ++ [l])%list. now rewrite app_assoc.
    - destruct H as ((Hl & _) & _). rewrite Hl, Hlogs. eauto. }
  destruct (logged logs m) eqn:Hm; cbn [negb].
  - assert (Hskip : WhatsAppBot.process_whatsapp_message E m s = (Returns tt, s)).
    { pose proof (logged_app logs new m Hm) as Hl. rewrite <- Hlogs in Hl. unfold logged in Hl.
      destruct (find _ (whatsapp_logs (db s))) as [l|] eqn:Hfind; [|discriminate].
      rewrite (whatsapp_logged_message_is_skipped E m s l Hfind), Hfresh. reflexivity. }
    unfold bind. rewrite Hskip. apply Hnext. rewrite Hskip. reflexivity.
  - cbn [for_each]. unfold bind.
    destruct (WhatsAppBot.process_whatsapp_message E m s) as [[[]|e] s1] eqn:Hrun;
      [|reflexivity].
    apply Hnext. reflexivity.
Qed.

(** X29.  A webhook call that repeats messages.  The messages of the
    payload that have an entry in the ledger when the call begins are
    skipped, wherever they stand in the payload and whatever is handled
    between them: the call does what it would do on the other messages
    alone, in their order. *)
Theorem webhook_handles_only_what_is_not_logged (E : Env) (d : data) (st : State) :
  handle_webhook E d (fresh_session st)
  = try_catch
      (for_each (WhatsAppBot.process_whatsapp_message E)
                (List.filter (fun m => negb (logged (whatsapp_logs (db st)) m)) (delivered d)))
      (fun _ => ret tt) (fresh_session st).
Proof.
  rewrite handle_webhook_delivered. unfold try_catch.
  rewrite (for_each_skips_logged E (whatsapp_logs (db st)) (delivered d) (fresh_session st));
    [reflexivity|reflexivity|].
  exists []. cbn. now rewrite app_nil_r.
Qed.

(** ** Cleaning a cleaned profile *)

Lemma ensure_list_fixed (key : string) (m : gmap string pyval) :
  match m !! key with
  | Some (PList _) | None => True
  | Some _ => False
  end ->
  ensure_list key m = m.
Proof.
  unfold ensure_list, get_or. destruct (m !! key) as [[]|]; cbn; intros H;
    try contradiction; reflexivity.
Qed.

Lemma clean_experience_years_fixed (m : gmap string pyval) :
  match m !! "experience_years" with
  | Some (PInt _) | Some (PBool _) => True
  | _ => False
  end ->
  clean_experience_years m = m.
Proof.
  unfold clean_experience_years, get.
  destruct (m !! "experience_years") as [[| | | | | |]|]; cbn; intros H;
    try contradiction; rewrite ?andb_false_r; reflexivity.
Qed.

(** X30.  The cleaning in [parse_cv_with_ai] is idempotent: applied to
    a profile it has produced, it returns that profile unchanged, and on a
    value that is not an object it fails both times.  So is the profile the
    parser returns, the default one included: cleaned again, it is the
    same. *)
Theorem cleaning_is_idempotent :
  (forall parsed,
      obind (normalize_result parsed) (fun out => normalize_result (PDict out))
      = normalize_result parsed)
  /\ (forall (L : Libs) (cv_text : string),
        obind (parse_cv_with_ai L cv_text) (fun out => normalize_result (PDict out))
        = parse_cv_with_ai L cv_text).
Proof.
  assert (Hfixed : forall result out,
             normalize_result (PDict result) = Returns out ->
             normalize_result (PDict out) = Returns out).
  { intros result out Hout.
    destruct (normalize_result_lookup result) as (out' & Hout' & Hyears & Hlists).
    rewrite Hout in Hout'. injection Hout' as <-.
    assert (Hlist : forall key, In key ["skills"; "education"; "work_experience"] ->
                                ensure_list key out = out).
    { intros key Hkey. apply ensure_list_fixed. rewrite (Hlists key Hkey).
      destruct (result !! key) as [[]|]; exact I. }
    cbn [normalize_result].
    rewrite (Hlist "skills"), (Hlist "education"), (Hlist "work_experience")
      by (cbn; auto).
    rewrite clean_experience_years_fixed; [reflexivity|].
    rewrite Hyears. unfold get.
    destruct (result !! "experience_years") as [[| | | | | |]|]; exact I. }
  split.
  - intros parsed. destruct (normalize_result parsed) as [out|e] eqn:Hout; [|reflexivity].
    destruct parsed; try discriminate. cbn [obind]. eapply Hfixed. exact Hout.
  - intros L cv_text. unfold parse_cv_with_ai.
    destruct (openai_json L cv_text) as [parsed|e]; cbn [obind try_except]; [|reflexivity].
    destruct (normalize_result parsed) as [out|e] eqn:Hout; cbn [obind try_except];
      [|reflexivity].
    destruct parsed; try discriminate. eapply Hfixed. exact Hout.
Qed.
